(** * E7umf: protocol codec and frame transport of the UHF-U1-CU-71 reader

    A shallow embedding of [E7umf.py].  Python integers are [Z]; [bytes] and
    [bytearray] values are lists of [Z] whose items lie in [0, 256); a call
    that can raise returns a [res]; the USB channel and the caller's buffers
    are explicit state.  Printing (the [debug_mode] traces and the error
    messages) has no effect on any result and is left out. *)

From Stdlib Require Import ZArith QArith Lia Bool.
From stdpp Require Import base list.

Local Open Scope Z_scope.

(** ** Python values and exceptions *)

Inductive exn : Type :=
| IndexError
| ValueError
| TypeError
| USBError (errno : Z)
| OtherException.

Inductive res (A : Type) : Type :=
| Val (a : A)
| Raise (e : exn).
Arguments Val {A} a.
Arguments Raise {A} e.

Definition res_bind {A B} (m : res A) (k : A -> res B) : res B :=
  match m with
  | Val a => k a
  | Raise e => Raise e
  end.

Declare Scope py_scope.
Delimit Scope py_scope with py.
Notation "'let*' x ':=' m 'in' k" := (res_bind m (fun x => k))
  (at level 10, x name, m at level 100, k at level 200) : py_scope.

(** What one pass through a loop body leaves behind: the loop variables for
    the next pass, or the value of a [return] statement met in the body. *)
Inductive ctl (A R : Type) : Type :=
| Next (a : A)
| Return (r : R).
Arguments Next {A R} a.
Arguments Return {A R} r.

(** [for i in range(n)] over a body that may raise or return early. *)
Fixpoint for_loop {A R} (body : Z -> A -> res (ctl A R)) (i : Z) (n : nat) (a : A)
  : res (ctl A R) :=
  match n with
  | O => Val (Next a)
  | S n' =>
      match body i a with
      | Val (Next a') => for_loop body (i + 1) n' a'
      | Val (Return r) => Val (Return r)
      | Raise e => Raise e
      end
  end.

Definition for_range {A R} (n : Z) (body : Z -> A -> res (ctl A R)) (a : A)
  : res (ctl A R) :=
  for_loop body 0 (Z.to_nat n) a.

Definition len (l : list Z) : Z := Z.of_nat (length l).

Definition is_byte (v : Z) : Prop := 0 <= v < 256.
Definition is_byteb (v : Z) : bool := (0 <=? v) && (v <? 256).

(** [bytearray(n)]: [n] zero bytes. *)
Definition bytearray (n : Z) : list Z := replicate (Z.to_nat n) 0.

(** [l[i]], negative indices counting from the end. *)
Definition getitem (l : list Z) (i : Z) : res Z :=
  let j := if i <? 0 then i + len l else i in
  if (j <? 0) || (len l <=? j) then Raise IndexError
  else match l !! Z.to_nat j with
       | Some v => Val v
       | None => Raise IndexError
       end.

(** [l[i] = v] on a bytearray: the value must be a byte, the index in range. *)
Definition setitem (l : list Z) (i v : Z) : res (list Z) :=
  if negb (is_byteb v) then Raise ValueError
  else
    let j := if i <? 0 then i + len l else i in
    if (j <? 0) || (len l <=? j) then Raise IndexError
    else Val (<[Z.to_nat j := v]> l).

(** Slice bounds, as Python adjusts them for a step of one. *)
Definition clip (l : list Z) (i : Z) : Z :=
  let j := if i <? 0 then i + len l else i in
  if j <? 0 then 0 else if len l <? j then len l else j.

(** [l[a:b]], [l[:b]] and [l[a:]]. *)
Definition slice (l : list Z) (a b : Z) : list Z :=
  let s := clip l a in
  let e := clip l b in
  take (Z.to_nat (e - s)) (drop (Z.to_nat s) l).
Definition slice_to (l : list Z) (b : Z) : list Z := slice l 0 b.
Definition slice_from (l : list Z) (a : Z) : list Z := slice l a (len l).

(** [l[a:b] = v] on a bytearray: the slice is replaced, whatever its length. *)
Definition setslice (l : list Z) (a b : Z) (v : list Z) : list Z :=
  let s := clip l a in
  let e := Z.max s (clip l b) in
  take (Z.to_nat s) l ++ v ++ drop (Z.to_nat e) l.

(** ** Byte/Hex codec *)

Definition toHexChar (value : Z) : Z :=
  if value >=? 10 then value + 55 else value + 48.

(** The body of the loop of [binaryToHex]; [result] is the loop variable. *)
Definition binaryToHex_body (source : list Z) (i : Z) (result : list Z)
  : res (ctl (list Z) Empty_set) :=
  (let* value := getitem source i in
   let* result := setitem result (i * 2) (toHexChar (Z.shiftr value 4)) in
   let* result := setitem result (i * 2 + 1) (toHexChar (Z.land value 15)) in
   Val (Next result))%py.

Definition binaryToHex (source : list Z) (length : Z) : res (option (list Z)) :=
  if (length <=? 0) || bool_decide (source = []) then Val None
  else
    let result := bytearray (length * 2) in
    match for_range length (binaryToHex_body source) result with
    | Val (Next result) => Val (Some result)
    | Val (Return r) => match r with end
    | Raise e => Raise e
    end.

Definition is_hex_digit (c : Z) : bool :=
  ((48 <=? c) && (c <=? 57)) || ((65 <=? c) && (c <=? 70))
  || ((97 <=? c) && (c <=? 102)).

Definition hex_value (c : Z) : option Z :=
  if (48 <=? c) && (c <=? 57) then Some (c - 48)
  else if (65 <=? c) && (c <=? 70) then Some (c - 55)
  else if (97 <=? c) && (c <=? 102) then Some (c - 87)
  else None.

(** [int(chr(high) + chr(low), 16)].  The call sits behind the digit test of
    [asciiToHex], so only two hex digits ever reach it; anything else is
    given Python's [ValueError]. *)
Definition int16 (high low : Z) : res Z :=
  match hex_value high, hex_value low with
  | Some h, Some l => Val (16 * h + l)
  | _, _ => Raise ValueError
  end.

(** The [try ... except ValueError: return None] around the loop body. *)
Definition except_ValueError {A} (m : res (ctl A (option (list Z))))
  : res (ctl A (option (list Z))) :=
  match m with
  | Raise ValueError => Val (Return None)
  | other => other
  end.

(** The body of the loop of [asciiToHex]; [result] is the loop variable. *)
Definition asciiToHex_body (source : list Z) (i : Z) (result : list Z)
  : res (ctl (list Z) (option (list Z))) :=
  except_ValueError (
    let* high := getitem source (2 * i) in
    let* low := getitem source (2 * i + 1) in
    if negb (is_hex_digit high) || negb (is_hex_digit low)
    then Val (Return None)
    else
      let* v := int16 high low in
      let* result := setitem result i v in
      Val (Next result))%py.

Definition asciiToHex (source : list Z) (length : Z) : res (option (list Z)) :=
  if (length <=? 0) || bool_decide (source = []) || (len source <? length * 2)
  then Val None
  else
    let result := bytearray length in
    match for_range length (asciiToHex_body source) result with
    | Val (Next result) => Val (Some result)
    | Val (Return r) => Val r
    | Raise e => Raise e
    end.

(** ** The USB channel

    The device is an open duplex channel.  What it will answer is a script:
    each read hands over at most 64 bytes or raises, and takes some time;
    once the script is used up a read times out ([USBError] with errno 110).
    A write succeeds and is logged in [sent] unless the script makes it
    raise.  [now] is the reading of [time.time()], in seconds. *)

Record read_event : Type := { took : Q; delivers : res (list Z) }.

Record Device : Type := {
  handle : Z;
  now : Q;
  reads : list read_event;
  writes : list (res Z);
  sent : list (list Z)
}.

Definition device_write (d : Device) (chunk : list Z) : res Z * Device :=
  match writes d with
  | [] =>
      (Val (len chunk),
       {| handle := handle d; now := now d; reads := reads d; writes := [];
          sent := sent d ++ [chunk] |})
  | Val written :: rest =>
      (Val written,
       {| handle := handle d; now := now d; reads := reads d; writes := rest;
          sent := sent d ++ [chunk] |})
  | Raise e :: rest =>
      (Raise e,
       {| handle := handle d; now := now d; reads := reads d; writes := rest;
          sent := sent d |})
  end.

Definition device_read (d : Device) : res (list Z) * Device :=
  match reads d with
  | [] => (Raise (USBError 110), d)
  | ev :: rest =>
      (match delivers ev with
       | Val chunk => Val (take 64%nat chunk)
       | Raise e => Raise e
       end,
       {| handle := handle d; now := (now d + took ev)%Q; reads := rest;
          writes := writes d; sent := sent d |})
  end.

(** ** Frame transport *)

(** The [while bytes_written < len(data)] loop.  Every pass moves
    [bytes_written] on by 64, so [S (length data)] passes are never used up. *)
Fixpoint send_loop (fuel : nat) (data : list Z) (bytes_written : Z) (d : Device)
  : res bool * Device :=
  match fuel with
  | O => (Raise OtherException, d)
  | S fuel' =>
      if bytes_written <? len data then
        let chunk := slice data bytes_written (bytes_written + 64) in
        let chunk :=
          if (len data >? 64) && (bytes_written + 64 <? len data)
          then 130 :: slice_from chunk 1
          else if len data >? 64 then 2 :: slice_from chunk 1
          else chunk in
        match device_write d chunk with
        | (Val written, d') => send_loop fuel' data (bytes_written + 64) d'
        | (Raise (USBError errno), d') => (Val false, d')
        | (Raise e, d') => (Raise e, d')
        end
      else (Val true, d)
  end.

Definition send_command (device : option Device) (data : list Z)
  : res bool * option Device :=
  match device with
  | None => (Val false, None)
  | Some d =>
      let (r, d') := send_loop (S (length data)) data 0 d in (r, Some d')
  end.

(** [(time.time() - start_time) * 1000 > timeout] *)
Definition timed_out (t start_time : Q) (timeout : Z) : bool :=
  negb (Qle_bool ((t - start_time) * 1000) (inject_Z timeout)).

(** The [while True] loop.  Every pass that goes round again has taken one
    event from the script, so [S (length (reads d))] passes are never used
    up. *)
Fixpoint read_loop (fuel : nat) (timeout : Z) (start_time : Q) (response : list Z)
    (d : Device) : res (list Z) * Device :=
  match fuel with
  | O => (Raise OtherException, d)
  | S fuel' =>
      match device_read d with
      | (Raise e, d') => (Raise e, d')
      | (Val chunk_bytes, d') =>
          let response := response ++ chunk_bytes in
          match getitem chunk_bytes 0 with
          | Raise e => (Raise e, d')
          | Val first =>
              if negb (first =? 63) || timed_out (now d') start_time timeout
              then (Val response, d')
              else if len chunk_bytes <? 64 then (Val response, d')
              else read_loop fuel' timeout start_time response d'
          end
      end
  end.

Definition read_response (device : option Device) (timeout : Z)
  : res (option (list Z)) * option Device :=
  match device with
  | None => (Val None, None)
  | Some d =>
      match read_loop (S (length (reads d))) timeout (now d) [] d with
      | (Val response, d') =>
          (Val (if len response =? 0 then None else Some response), Some d')
      | (Raise (USBError errno), d') => (Val None, Some d')
      | (Raise e, d') => (Raise e, Some d')
      end
  end.

(** [usb_device is None or id(usb_device) != icdev] *)
Definition bad_handle (usb_device : option Device) (icdev : Z) : bool :=
  match usb_device with
  | None => true
  | Some d => negb (handle d =? icdev)
  end.

(** [if response], for a response that is [None] or a bytearray. *)
Definition truthy (response : option (list Z)) : bool :=
  match response with
  | Some (_ :: _) => true
  | _ => false
  end.

Definition response_bytes (response : option (list Z)) : list Z :=
  match response with
  | Some r => r
  | None => []
  end.

(** [bytearray([...])] of integers. *)
Definition bytearray_of (items : list Z) : res (list Z) :=
  if forallb is_byteb items then Val items else Raise ValueError.

(** [response[i] == v] *)
Definition item_eq (response : list Z) (i v : Z) : res bool :=
  (let* x := getitem response i in Val (x =? v))%py.

(** Python's short-circuit [and] over tests that may raise. *)
Definition and_then (m1 m2 : res bool) : res bool :=
  (let* b := m1 in if b then m2 else Val false)%py.
Infix "<&&>" := and_then (at level 42, right associativity) : py_scope.

(** ** Command codec

    The module global [usb_device] and the bytearrays the caller passes by
    reference make up the state the operations run in; what an operation
    has written stays written when it raises later on. *)

Record World : Type := {
  usb_device : option Device;
  pData : list Z;
  tagCount : list Z;
  dataLen : list Z
}.

Definition M (A : Type) : Type := World -> res A * World.

Definition ret {A} (a : A) : M A := fun w => (Val a, w).
Definition bind {A B} (m : M A) (k : A -> M B) : M B :=
  fun w =>
    match m w with
    | (Val a, w') => k a w'
    | (Raise e, w') => (Raise e, w')
    end.
Definition lift {A} (r : res A) : M A := fun w => (r, w).

Notation "'let!' x ':=' m 'in' k" := (bind m (fun x => k))
  (at level 10, x name, m at level 100, k at level 200) : py_scope.
Notation "m ';;' k" := (bind m (fun _ => k))
  (at level 100, k at level 200, right associativity) : py_scope.

Definition set_device (w : World) (dev : option Device) : World :=
  {| usb_device := dev; pData := pData w; tagCount := tagCount w;
     dataLen := dataLen w |}.
Definition set_pData (w : World) (l : list Z) : World :=
  {| usb_device := usb_device w; pData := l; tagCount := tagCount w;
     dataLen := dataLen w |}.
Definition set_tagCount (w : World) (l : list Z) : World :=
  {| usb_device := usb_device w; pData := pData w; tagCount := l;
     dataLen := dataLen w |}.
Definition set_dataLen (w : World) (l : list Z) : World :=
  {| usb_device := usb_device w; pData := pData w; tagCount := tagCount w;
     dataLen := l |}.

Definition send (command : list Z) : M bool :=
  fun w =>
    let (r, dev) := send_command (usb_device w) command in (r, set_device w dev).

Definition recv (timeout : Z) : M (option (list Z)) :=
  fun w =>
    let (r, dev) := read_response (usb_device w) timeout in (r, set_device w dev).

Definition pData_len : M Z := fun w => (Val (len (pData w)), w).

Definition pData_set (i v : Z) : M unit :=
  fun w =>
    match setitem (pData w) i v with
    | Val l => (Val tt, set_pData w l)
    | Raise e => (Raise e, w)
    end.

Definition tagCount_set (i v : Z) : M unit :=
  fun w =>
    match setitem (tagCount w) i v with
    | Val l => (Val tt, set_tagCount w l)
    | Raise e => (Raise e, w)
    end.

Definition dataLen_set (i v : Z) : M unit :=
  fun w =>
    match setitem (dataLen w) i v with
    | Val l => (Val tt, set_dataLen w l)
    | Raise e => (Raise e, w)
    end.

(** [for i in range(n)] over a body that works on the state. *)
Fixpoint for_loop_st {A R} (body : Z -> A -> M (ctl A R)) (i : Z) (n : nat) (a : A)
  : M (ctl A R) :=
  fun w =>
    match n with
    | O => (Val (Next a), w)
    | S n' =>
        match body i a w with
        | (Val (Next a'), w') => for_loop_st body (i + 1) n' a' w'
        | other => other
        end
    end.

Definition for_range_st {A R} (n : Z) (body : Z -> A -> M (ctl A R)) (a : A)
  : M (ctl A R) :=
  for_loop_st body 0 (Z.to_nat n) a.

(** [try: ... except Exception: return -13] *)
Definition except_Exception (body : M Z) (w : World) : Z * World :=
  match body w with
  | (Val code, w') => (code, w')
  | (Raise e, w') => (-13, w')
  end.

(** [rlen + 55 if rlen >= 10 else rlen + 48] *)
Definition length_digit (n : Z) : Z := if n >=? 10 then n + 55 else n + 48.

Definition valid_infoType (infoType : Z) : bool :=
  bool_decide (infoType ∈ [1; 2; 3; 4]).

(** The frame [uhf_read] builds: [command[:command_length]]. *)
Definition read_command (infoType address rlen : Z) : res (list Z) :=
  (let command := bytearray 256 in
   let* command := setitem command 1 2 in
   let command := setslice command 2 4 [65; 82] in
   let* command := setitem command 4 (infoType + 48) in
   let* command := setitem command 5 44 in
   if address >=? 16 then
     let* command := setitem command 6 (toHexChar (Z.shiftr address 4)) in
     let* command := setitem command 7 (toHexChar (Z.land address 15)) in
     let* command := setitem command 8 44 in
     let* command := setitem command 9 (length_digit rlen) in
     let* command := setitem command 0 9 in
     let command_length := 10 in
     Val (slice_to command command_length)
   else
     let* command := setitem command 6 (toHexChar address) in
     let* command := setitem command 7 44 in
     let* command := setitem command 8 (length_digit rlen) in
     let* command := setitem command 0 8 in
     let command_length := 9 in
     Val (slice_to command command_length))%py.

(** [pData[i] = response[5 + i] if 5 + i < len(response) else 0] *)
Definition read_store_step (response : list Z) (i : Z) (_ : unit)
  : M (ctl unit Empty_set) :=
  (let! v := lift (if 5 + i <? len response then getitem response (5 + i)
                   else Val 0) in
   pData_set i v ;;
   ret (Next tt))%py.

(** [for i in range(data_length)] over that store. *)
Definition read_store (response : list Z) (data_length : Z) : M unit :=
  (let! r := for_range_st data_length (read_store_step response) tt in
   ret tt)%py.

(** The [try] block of [uhf_read]. *)
Definition uhf_read_body (infoType address rlen : Z) : M Z :=
  (if negb (valid_infoType infoType) then ret (-2)
   else
     let! command := lift (read_command infoType address rlen) in
     let! sent_ok := send command in
     if sent_ok then
       let! response := recv 2000 in
       let r := response_bytes response in
       let! good := lift (Val (truthy response) <&&> Val (6 <=? len r)
                          <&&> item_eq r 4 82) in
       if good then
         let! n := pData_len in
         let data_length := Z.min (rlen * 4) n in
         read_store r data_length ;;
         ret 0
       else ret (-6)
     else ret (-6))%py.

Definition uhf_read (icdev infoType address rlen : Z) (w : World) : Z * World :=
  if bad_handle (usb_device w) icdev then (32, w)
  else except_Exception (uhf_read_body infoType address rlen) w.

(** The frame [uhf_write] builds: [command[:command_length]], after
    [command[0] = command_length - 1]. *)
Definition write_command (infoType address wlen : Z) (data : list Z)
  : res (list Z) :=
  (let command := bytearray 256 in
   let* command := setitem command 1 2 in
   let command := setslice command 2 4 [65; 87] in
   let* command := setitem command 4 (infoType + 48) in
   let* command := setitem command 5 44 in
   let* built :=
     if address >=? 16 then
       let* command := setitem command 6 (toHexChar (Z.shiftr address 4)) in
       let* command := setitem command 7 (toHexChar (Z.land address 15)) in
       let* command := setitem command 8 44 in
       let* command := setitem command 9 (length_digit wlen) in
       let* command := setitem command 10 44 in
       let command :=
         setslice command 11 (11 + wlen * 4) (slice_to data (wlen * 4)) in
       Val (command, 11 + wlen * 4)
     else
       let* command := setitem command 6 (toHexChar address) in
       let* command := setitem command 7 44 in
       let* command := setitem command 8 (length_digit wlen) in
       let* command := setitem command 9 44 in
       let command :=
         setslice command 10 (10 + wlen * 4) (slice_to data (wlen * 4)) in
       Val (command, 10 + wlen * 4) in
   let command := fst built in
   let command_length := snd built in
   let* command := setitem command 0 (command_length - 1) in
   Val (slice_to command command_length))%py.

Definition uhf_write (icdev infoType address wlen : Z) (w : World) : Z * World :=
  if bad_handle (usb_device w) icdev then (32, w)
  else except_Exception (
    if negb (valid_infoType infoType) then ret (-2)
    else
      let! command := lift (write_command infoType address wlen (pData w)) in
      let! sent_ok := send command in
      if sent_ok then
        let! response := recv 2000 in
        let r := response_bytes response in
        let! good := lift (Val (truthy response) <&&> Val (1 <=? len r) <&&> item_eq r 0 8) in
        if good then ret 0 else ret (-6)
      else ret (-6))%py w.

Definition valid_action (action : Z) : bool :=
  bool_decide (action ∈ [1; 2; 4; 8]) || ((0 <? action) && (action <=? 15)).

Definition uhf_action (icdev action time : Z) (w : World) : Z * World :=
  if bad_handle (usb_device w) icdev then (32, w)
  else except_Exception (
    if negb (valid_action action) then ret (-2)
    else
      let! command := lift (bytearray_of [4; 2; 145; action; time]) in
      let! sent_ok := send command in
      if sent_ok then
        let! response := recv 2000 in
        let r := response_bytes response in
        let! good := lift (Val (truthy response) <&&> Val (4 <=? len r)
                           <&&> item_eq r 0 3 <&&> item_eq r 1 2
                           <&&> item_eq r 2 145 <&&> item_eq r 3 0) in
        if good then ret 0 else ret (-6)
      else ret (-6))%py w.

(** The frame [uhf_setAccessPassword] builds. *)
Definition password_command (AccessPassword : list Z) : res (list Z) :=
  (let command := bytearray 12 in
   let* command := setitem command 0 11 in
   let* command := setitem command 1 2 in
   let command := setslice command 2 4 [65; 80] in
   let command := setslice command 4 8 (slice_to AccessPassword 4) in
   let command := setslice command 8 12 (slice AccessPassword 4 8) in
   Val command)%py.

(** The [isinstance(..., (bytes, bytearray))] half of the argument test is
    the type [list Z] of the argument; the length half is tested. *)
Definition uhf_setAccessPassword (icdev : Z) (AccessPassword : list Z) (w : World)
  : Z * World :=
  if bad_handle (usb_device w) icdev then (32, w)
  else except_Exception (
    if negb (len AccessPassword =? 8) then ret (-2)
    else
      let! command := lift (password_command AccessPassword) in
      let! sent_ok := send command in
      if sent_ok then
        let! response := recv 2000 in
        let r := response_bytes response in
        let! good := lift (Val (truthy response) <&&> Val (5 <=? len r)
                           <&&> item_eq r 0 4 <&&> item_eq r 1 2
                           <&&> item_eq r 2 65 <&&> item_eq r 3 0
                           <&&> item_eq r 4 80) in
        if good then ret 0 else ret (-6)
      else ret (-6))%py w.

(** The frame [uhf_lockMemory] builds. *)
Definition lock_command (lockSetting : list Z) : res (list Z) :=
  (let command := bytearray 11 in
   let* command := setitem command 0 10 in
   let* command := setitem command 1 2 in
   let command := setslice command 2 4 [65; 76] in
   let command := setslice command 4 10 lockSetting in
   Val command)%py.

(** As for [uhf_setAccessPassword], the argument is a byte string by its
    type and its length is tested. *)
Definition uhf_lockMemory (icdev : Z) (lockSetting : list Z) (w : World)
  : Z * World :=
  if bad_handle (usb_device w) icdev then (32, w)
  else except_Exception (
    if negb (len lockSetting =? 6) then ret (-2)
    else
      let! command := lift (lock_command lockSetting) in
      let! sent_ok := send command in
      if sent_ok then
        let! response := recv 2000 in
        let r := response_bytes response in
        let! good := lift (Val (truthy response) <&&> Val (8 <=? len r)
                           <&&> item_eq r 0 8 <&&> item_eq r 4 76
                           <&&> item_eq r 6 79 <&&> item_eq r 7 75) in
        if good then ret 0 else ret (-6)
      else ret (-6))%py w.

(** ** Inventory session *)

(** [pData[current_offset + 2 + j] = hex_data[j] if j < len(hex_data) else 0] *)
Definition record_store_step (hex_data : list Z) (current_offset j : Z) (_ : unit)
  : M (ctl unit Empty_set) :=
  (let! v := lift (if j <? len hex_data then getitem hex_data j else Val 0) in
   pData_set (current_offset + 2 + j) v ;;
   ret (Next tt))%py.

(** [for j in range(data_length)] over that store. *)
Definition record_store (hex_data : list Z) (current_offset data_length : Z)
  : M unit :=
  (let! r := for_range_st data_length
               (record_store_step hex_data current_offset) tt in
   ret tt)%py.

(** One pass of [for i in range(count)]: the loop variable that lives on is
    [current_offset]; a [return] in the body ends the whole call. *)
Definition inventory_round (command : list Z) (i current_offset : Z)
  : M (ctl Z Z) :=
  (let! result := send command in
   if negb result then ret (Return (-6))
   else
     let! response := recv 2000 in
     if negb (truthy response) then ret (Return (-6))
     else
       let response := response_bytes response in
       let! first := lift (getitem response 0) in
       if first =? 4 then ret (Return 4)
       else
         let! second := lift (getitem response 1) in
         if negb (second =? 160) then ret (Return 160)
         else
           let! words := lift (getitem response 5) in
           let byte_count := 2 * words - 8 in
           let! last_byte := lift (getitem response (first - 1)) in
           let! n := pData_len in
           (if current_offset <? n
            then pData_set current_offset (byte_count + 1) else ret tt) ;;
           (if current_offset + 1 <? n
            then pData_set (current_offset + 1) last_byte else ret tt) ;;
           let! hex_data := lift (binaryToHex response byte_count) in
           (if truthy hex_data then
              let hex_data := response_bytes hex_data in
              let data_length := Z.min byte_count (n - current_offset - 2) in
              record_store hex_data current_offset data_length
            else ret tt) ;;
           ret (Next (current_offset + (byte_count + 2))))%py.

(** The [try] block of [uhf_inventory]. *)
Definition uhf_inventory_body : M Z :=
  (let! command := lift (bytearray_of [3; 2; 85; 128]) in
   let! sent_ok := send command in
   if sent_ok then
     let! response := recv 2000 in
     let r := response_bytes response in
     if truthy response && (5 <=? len r) then
       let! count := lift (getitem r 4) in
       tagCount_set 0 (Z.land count 255) ;;
       tagCount_set 1 (Z.land (Z.shiftr count 8) 255) ;;
       if count =? 0 then
         dataLen_set 0 0 ;;
         dataLen_set 1 0 ;;
         ret 0
       else
         let! command := lift (setitem command 3 145) in
         let current_offset := 0 in
         let! r := for_range_st count (inventory_round command) current_offset in
         match r with
         | Return code => ret code
         | Next current_offset =>
             dataLen_set 0 (Z.land current_offset 255) ;;
             dataLen_set 1 (Z.land (Z.shiftr current_offset 8) 255) ;;
             ret 0
         end
     else ret (-6)
   else ret (-6))%py.

Definition uhf_inventory (icdev : Z) (w : World) : Z * World :=
  if bad_handle (usb_device w) icdev then (32, w)
  else except_Exception uhf_inventory_body w.

(** ** Notions used to state the properties *)

(** The encoding as the specification words it: every byte gives two hex
    digit characters, high nibble first. *)
Definition hex_pairs (b : list Z) : list Z :=
  flat_map (fun v => [toHexChar (Z.shiftr v 4); toHexChar (Z.land v 15)]) b.

(** The decoding as the specification words it: [n] pairs of hex digit
    characters, each pair giving one byte; anything else is a failure. *)
Fixpoint unhex (n : nat) (s : list Z) : option (list Z) :=
  match n with
  | O => Some []
  | S n' =>
      match s with
      | high :: low :: rest =>
          match hex_value high, hex_value low, unhex n' rest with
          | Some h, Some l, Some out => Some (16 * h + l :: out)
          | _, _, _ => None
          end
      | _ => None
      end
  end.

(** What the round-trip property asks of one byte sequence [b]: it encodes,
    the encoding is twice as long, and the encoding decodes to [b]. *)
Definition hex_roundtrip (b : list Z) : Prop :=
  exists enc,
    binaryToHex b (len b) = Val (Some enc) /\
    len enc = 2 * len b /\
    asciiToHex enc (len b) = Val (Some b).

(** An input of [asciiToHex] that asks for nothing but hex digits: the source
    holds [2 * n] characters at least, and each of the first [2 * n] is a
    hex digit. *)
Definition hex_valid (source : list Z) (n : Z) : Prop :=
  2 * n <= len source /\
  forall i c, 0 <= i < 2 * n -> source !! Z.to_nat i = Some c ->
              is_hex_digit c = true.

(** No write is scripted to raise. *)
Definition writes_ok (d : Device) : Prop :=
  forall e, Raise e ∉ writes d.

(** The device once [chunks] have been written to it without a failure. *)
Definition after_writes (d : Device) (chunks : list (list Z)) : Device :=
  {| handle := handle d; now := now d; reads := reads d;
     writes := drop (length chunks) (writes d);
     sent := sent d ++ chunks |}.

(** Chunk number [k] of a frame as the specification words it: the 64 bytes
    from offset [64 * k] on (fewer at the end); when the frame is longer
    than 64 bytes the first of them gives way to [0x82], or to [0x02] in the
    last chunk. *)
Definition marked_chunk (frame : list Z) (k : nat) : list Z :=
  let piece := take 64 (drop (64 * k) frame) in
  if (64 <? length frame)%nat then
    (if (64 * (k + 1) <? length frame)%nat then 130 else 2) :: drop 1 piece
  else piece.

(** The value [read_store] puts at place [j]. *)
Definition read_byte (response : list Z) (j : nat) : Z :=
  default 0 (response !! (5 + j)%nat).

Definition read_world : World :=
  {| usb_device :=
       Some {| handle := 7; now := 0%Q;
               reads := [{| took := (1 # 100)%Q;
                            delivers := Val [8; 2; 65; 0; 82; 1; 2] |}];
               writes := []; sent := [] |};
     pData := [255; 255; 255];
     tagCount := [];
     dataLen := [] |}.

(** An exception that is not the channel's [USBError]. *)
Definition not_usb (e : exn) : Prop := forall errno, e <> USBError errno.

(** A reader that has been unplugged: the first write raises [USBError]
    (errno 19, no such device). *)
Definition unplugged_device : Device :=
  {| handle := 7; now := 0%Q; reads := []; writes := [Raise (USBError 19)];
     sent := [] |}.

Definition unplugged_world : World :=
  {| usb_device := Some unplugged_device; pData := bytearray 50;
     tagCount := []; dataLen := [] |}.

(** A reader that takes the frame and then fails the read with [USBError]
    (errno 5, input/output error). *)
Definition mute_world : World :=
  {| usb_device :=
       Some {| handle := 7; now := 0%Q;
               reads := [{| took := (1 # 2)%Q; delivers := Raise (USBError 5) |}];
               writes := []; sent := [] |};
     pData := bytearray 50; tagCount := []; dataLen := [] |}.

(** A response that [uhf_read] does not accept: fewer than 6 bytes, or a
    byte other than [R] at index 4. *)
Definition malformed (response : list Z) : Prop :=
  len response < 6 \/ exists x, getitem response 4 = Val x /\ x <> 82.

(** A reader that takes the frame and answers with a response of the right
    length that carries [Q] where [R] should be. *)
Definition garbled_world : World :=
  {| usb_device :=
       Some {| handle := 7; now := 0%Q;
               reads := [{| took := (1 # 100)%Q;
                            delivers := Val [8; 2; 65; 0; 81; 1; 2] |}];
               writes := []; sent := [] |};
     pData := bytearray 50; tagCount := []; dataLen := [] |}.

(** The record one round puts into the output buffer. *)
Definition inventory_record (response : list Z) (byte_count last_byte : Z)
  : list Z :=
  [byte_count + 1; last_byte]
  ++ take (Z.to_nat byte_count) (hex_pairs (take (Z.to_nat byte_count) response)).

(** The buffer with [record] laid over it from [offset] on. *)
Definition put_record (buffer : list Z) (offset : Z) (record : list Z) : list Z :=
  take (Z.to_nat offset) buffer ++ record
  ++ drop (Z.to_nat offset + length record) buffer.

(** The value [record_store] puts at place [current_offset + 2 + j]. *)
Definition hex_byte (hex_data : list Z) (j : nat) : Z :=
  default 0 (hex_data !! j).

(** A per-tag response that passes the checks of a round and announces
    [words] words; [last_byte] is the byte at its self-described end. *)
Definition tag_response (response : list Z) (words last_byte : Z) : Prop :=
  Forall is_byte response /\
  (exists first, getitem response 0 = Val first /\ first <> 4 /\
                 getitem response (first - 1) = Val last_byte) /\
  getitem response 1 = Val 160 /\
  getitem response 5 = Val words.

(** A reader that sees two tags. *)
Definition two_tag_device : Device :=
  {| handle := 7; now := 0%Q;
     reads := [ {| took := (1 # 100)%Q; delivers := Val [4; 2; 85; 0; 2] |};
                {| took := (1 # 100)%Q;
                   delivers := Val [7; 160; 0; 0; 0; 6; 17] |};
                {| took := (1 # 100)%Q;
                   delivers := Val [0; 160; 1; 2; 3; 6; 0; 99] |} ];
     writes := []; sent := [] |}.

Definition two_tag_world : World :=
  {| usb_device := Some two_tag_device; pData := replicate 20 255;
     tagCount := [9; 9]; dataLen := [9; 9] |}.

(** A computation that touches neither [tagCount] nor [dataLen]. *)
Definition frames_caller {A} (m : M A) : Prop :=
  forall w r w', m w = (r, w') ->
                 tagCount w' = tagCount w /\ dataLen w' = dataLen w.

(** The state of the session once the count is known and stored. *)
Definition after_count (w : World) (dev : option Device) (count : Z) : World :=
  set_tagCount (set_device w dev)
    (<[1%nat := Z.land (Z.shiftr count 8) 255]>
       (<[0%nat := Z.land count 255]> (tagCount w))).

(** A reader that sees two tags and reports a fault on the second. *)
Definition faulty_tag_world : World :=
  {| usb_device :=
       Some {| handle := 7; now := 0%Q;
               reads := [ {| took := (1 # 100)%Q;
                             delivers := Val [4; 2; 85; 0; 2] |};
                          {| took := (1 # 100)%Q;
                             delivers := Val [7; 160; 0; 0; 0; 6; 17] |};
                          {| took := (1 # 100)%Q;
                             delivers := Val [4; 160; 1; 2; 3; 6; 0; 99] |} ];
               writes := []; sent := [] |};
     pData := replicate 20 255; tagCount := [9; 9]; dataLen := [9; 9] |}.

(** A reader that announces one tag and answers the query for it with the
    two bytes [1; 160]. *)
Definition short_tag_world : World :=
  {| usb_device :=
       Some {| handle := 7; now := 0%Q;
               reads := [ {| took := (1 # 100)%Q;
                             delivers := Val [4; 2; 85; 0; 1] |};
                          {| took := (1 # 100)%Q; delivers := Val [1; 160] |} ];
               writes := []; sent := [] |};
     pData := bytearray 50; tagCount := bytearray 2; dataLen := bytearray 2 |}.

(** The device after one scripted read. *)
Definition after_read (d : Device) (ev : read_event) (rest : list read_event)
  : Device :=
  {| handle := handle d; now := (now d + took ev)%Q; reads := rest;
     writes := writes d; sent := sent d |}.

(** The loop goes round again after a chunk read at time [t]: the chunk
    starts with [0x3F], the timeout has not elapsed, and the chunk is full. *)
Definition continuing (start_time : Q) (timeout : Z) (t : Q) (chunk : list Z)
  : Prop :=
  chunk !! 0%nat = Some 63 /\ timed_out t start_time timeout = false /\
  len chunk = 64.

(** The loop ends after a (non-empty) chunk read at time [t]. *)
Definition stopping (start_time : Q) (timeout : Z) (t : Q) (chunk : list Z)
  : Prop :=
  exists first, chunk !! 0%nat = Some first /\
    (first <> 63 \/ timed_out t start_time timeout = true \/ len chunk < 64).

(** Every event of [evs], read from time [t] on, hands over a chunk after
    which the loop goes round again. *)
Fixpoint all_continue (start_time : Q) (timeout : Z) (t : Q)
    (evs : list read_event) : Prop :=
  match evs with
  | [] => True
  | ev :: evs' =>
      (exists c, delivers ev = Val c /\
                 continuing start_time timeout (t + took ev)%Q (take 64 c)) /\
      all_continue start_time timeout (t + took ev)%Q evs'
  end.

(** The chunks the events hand over, in read order, one after the other. *)
Fixpoint chunks_of (evs : list read_event) : list Z :=
  match evs with
  | [] => []
  | ev :: evs' =>
      match delivers ev with
      | Val c => take 64 c
      | Raise _ => []
      end ++ chunks_of evs'
  end.

(** The clock after the events. *)
Definition elapsed (t : Q) (evs : list read_event) : Q :=
  fold_left (fun t ev => (t + took ev)%Q) evs t.

(** A reader whose answer is a zero-length packet. *)
Definition empty_packet_device : Device :=
  {| handle := 7; now := 0%Q;
     reads := [{| took := (1 # 100)%Q; delivers := Val [] |}];
     writes := []; sent := [] |}.

Definition empty_packet_world : World :=
  {| usb_device := Some empty_packet_device; pData := bytearray 50;
     tagCount := bytearray 2; dataLen := bytearray 2 |}.

(** [frame[0] == len(frame) - 1] *)
Definition length_prefixed (frame : list Z) : Prop :=
  frame !! 0%nat = Some (len frame - 1).

(** The caller's data of the example script, [bytearray(50)] filled with
    [0x35], written as 61 words at address 2. *)
Definition short_data_world : World :=
  {| usb_device :=
       Some {| handle := 7; now := 0%Q;
               reads := [{| took := (1 # 100)%Q; delivers := Val [8] |}];
               writes := []; sent := [] |};
     pData := replicate 50 53; tagCount := []; dataLen := [] |}.

(** A hex digit character in lower case: [A]-[F] become [a]-[f]. *)
Definition to_lower (c : Z) : Z :=
  if (65 <=? c) && (c <=? 70) then c + 32 else c.

(** The acknowledgement [uhf_action] waits for: [3, 2, 145, 0, ...]. *)
Definition action_ack (response : option (list Z)) : bool :=
  match response with
  | Some (b0 :: b1 :: b2 :: b3 :: _) =>
      (b0 =? 3) && (b1 =? 2) && (b2 =? 145) && (b3 =? 0)
  | _ => false
  end.

(** The acknowledgement [uhf_setAccessPassword] waits for:
    [4, 2, 65, 0, 80, ...]. *)
Definition password_ack (response : option (list Z)) : bool :=
  match response with
  | Some (b0 :: b1 :: b2 :: b3 :: b4 :: _) =>
      (b0 =? 4) && (b1 =? 2) && (b2 =? 65) && (b3 =? 0) && (b4 =? 80)
  | _ => false
  end.

(** The acknowledgement [uhf_lockMemory] waits for: eight bytes or more,
    8 first, then [L] at 4, [O] at 6 and [K] at 7. *)
Definition lock_ack (response : option (list Z)) : bool :=
  match response with
  | Some (b0 :: _ :: _ :: _ :: b4 :: _ :: b6 :: b7 :: _) =>
      (b0 =? 8) && (b4 =? 76) && (b6 =? 79) && (b7 =? 75)
  | _ => false
  end.

(** What an operation answers once its frame is out and [read_response]
    has come back with [r]: 0 for the acknowledgement, -6 for anything else
    read (or nothing), -13 when the read raised. *)
Definition answer (ack : option (list Z) -> bool) (r : res (option (list Z)))
  : Z :=
  match r with
  | Val response => if ack response then 0 else -6
  | Raise _ => -13
  end.
(** The acknowledgement [uhf_write] waits for: a first byte 8. *)
Definition write_ack (response : option (list Z)) : bool :=
  match response with
  | Some (b0 :: _) => b0 =? 8
  | _ => false
  end.

(** The chunks [send_command] makes of a frame. *)
Definition chunks_of_frame (frame : list Z) : list (list Z) :=
  map (marked_chunk frame) (seq 0 ((length frame + 63) / 64)).

(** The caller's three buffers hold in [w'] what they hold in [w]. *)
Definition same_buffers (w w' : World) : Prop :=
  pData w' = pData w /\ tagCount w' = tagCount w /\ dataLen w' = dataLen w.

(** The caller's three buffers are as long in [w'] as in [w]. *)
Definition same_sizes (w w' : World) : Prop :=
  length (pData w') = length (pData w) /\
  length (tagCount w') = length (tagCount w) /\
  length (dataLen w') = length (dataLen w).

(** The session in [w'] is on the device it is on in [w], in the state it
    has there. *)
Definition same_device (w w' : World) : Prop := usb_device w' = usb_device w.

(** Every run of [m] takes a state to one that is [P]-related to it. *)
Definition keeps {A} (P : World -> World -> Prop) (m : M A) : Prop :=
  forall w r w', m w = (r, w') -> P w w'.




(** [buffer[0] = n & 0xFF; buffer[1] = (n >> 8) & 0xFF]: the low two bytes
    of [n], low byte first, over the first two places of the buffer. *)
Definition store16 (n : Z) (buffer : list Z) : list Z :=
  Z.land n 255 :: Z.land (Z.shiftr n 8) 255 :: drop 2 buffer.

(** A reader that sees no tag. *)
Definition no_tag_world : World :=
  {| usb_device :=
       Some {| handle := 7; now := 0%Q;
               reads := [{| took := (1 # 100)%Q;
                            delivers := Val [4; 2; 85; 0; 0] |}];
               writes := []; sent := [] |};
     pData := [1; 2; 3]; tagCount := [9; 9]; dataLen := [9; 9; 9] |}.

(** A reader that sees two tags and answers the query for the second one
    with a wrong marker byte. *)
Definition bad_marker_world : World :=
  {| usb_device :=
       Some {| handle := 7; now := 0%Q;
               reads := [ {| took := (1 # 100)%Q;
                             delivers := Val [4; 2; 85; 0; 2] |};
                          {| took := (1 # 100)%Q;
                             delivers := Val [7; 160; 0; 0; 0; 6; 17] |};
                          {| took := (1 # 100)%Q;
                             delivers := Val [7; 161; 1; 2; 3; 6; 0; 99] |} ];
               writes := []; sent := [] |};
     pData := replicate 20 255; tagCount := [9; 9]; dataLen := [9; 9] |}.

(** ** Session life cycle

    What the USB host library answers is not the program's to decide; the
    outcomes of its calls are arguments of the model. *)

(** [uhf_disconnect], given how [usb.util.release_interface] and
    [usb.util.dispose_resources] turn out.  Only [USBError] is caught; any
    other exception leaves the function. *)
Definition uhf_disconnect (release_interface dispose_resources : res unit)
    (icdev : Z) (w : World) : res Z * World :=
  if bad_handle (usb_device w) icdev then (Val 32, w)
  else
    match release_interface with
    | Raise (USBError errno) => (Val (-13), w)
    | Raise e => (Raise e, w)
    | Val _ =>
        match dispose_resources with
        | Raise (USBError errno) => (Val (-13), w)
        | Raise e => (Raise e, w)
        | Val _ => (Val 0, set_device w None)
        end
    end.

(** One interface of the device found, as [uhf_connect] meets it: whether a
    kernel driver is active on it, and how detaching that driver turns out. *)
Record interface : Type := {
  is_kernel_driver_active : res bool;
  detach_kernel_driver : res unit
}.

(** What the host answers to [uhf_connect]: how [usb.core.find] turns out (a
    device, [None], or an exception), what [for config in usb_device]
    yields one after the other (a configuration with its interfaces, or the
    exception raised on the way to it), and the outcomes of
    [set_configuration] and [usb.util.claim_interface]. *)
Record Host : Type := {
  usb_core_find : res (option Device);
  configurations : list (res (list interface));
  set_configuration : res unit;
  claim_interface : res unit
}.

(** [try: usb_device.detach_kernel_driver(...)] with
    [except usb.core.USBError: return -1], for one interface. *)
Definition release_driver (intf : interface) (_ : unit)
  : res (ctl unit Z) :=
  (let* active := is_kernel_driver_active intf in
   if active then
     match detach_kernel_driver intf with
     | Val _ => Val (Next tt)
     | Raise (USBError errno) => Val (Return (-1))
     | Raise e => Raise e
     end
   else Val (Next tt))%py.

(** [for x in xs] over a body that may raise or return early. *)
Fixpoint for_each {X A R} (body : X -> A -> res (ctl A R)) (xs : list X) (a : A)
  : res (ctl A R) :=
  match xs with
  | [] => Val (Next a)
  | x :: xs' =>
      match body x a with
      | Val (Next a') => for_each body xs' a'
      | Val (Return r) => Val (Return r)
      | Raise e => Raise e
      end
  end.

(** [for intf in config], for what the outer loop yields next. *)
Definition release_drivers (config : res (list interface)) (_ : unit)
  : res (ctl unit Z) :=
  (let* interfaces := config in
   for_each release_driver interfaces tt)%py.

(** [try ... except usb.core.USBError: return -1] around one host call. *)
Definition or_return_minus_1 (call : res unit) : res (ctl unit Z) :=
  match call with
  | Val _ => Val (Next tt)
  | Raise (USBError errno) => Val (Return (-1))
  | Raise e => Raise e
  end.

(** What [uhf_connect] does once the device is found. *)
Definition claim_device (host : Host) (d : Device) : res Z :=
  match for_each release_drivers (configurations host) tt with
  | Val (Return code) => Val code
  | Raise e => Raise e
  | Val (Next _) =>
      match or_return_minus_1 (set_configuration host) with
      | Val (Return code) => Val code
      | Raise e => Raise e
      | Val (Next _) =>
          match or_return_minus_1 (claim_interface host) with
          | Val (Return code) => Val code
          | Raise e => Raise e
          | Val (Next _) => Val (handle d)
          end
      end
  end.

(** [uhf_connect].  The global is assigned when [usb.core.find] has
    returned, whatever comes after, and is left alone when it raises;
    [except Exception] turns anything raised into -1. *)
Definition uhf_connect (host : Host) (port baud : Z) (w : World) : Z * World :=
  if negb (port =? 100) then (-1, w)
  else
    match usb_core_find host with
    | Raise e => (-1, w)
    | Val found =>
        let w1 := set_device w found in
        match found with
        | None => (-32, w1)
        | Some d =>
            match claim_device host d with
            | Val code => (code, w1)
            | Raise e => (-1, w1)
            end
        end
    end.

(** The driver of an interface is out of the way: none is active, or the
    active one detaches. *)
Definition released (intf : interface) : Prop :=
  is_kernel_driver_active intf = Val false \/
  (is_kernel_driver_active intf = Val true /\
   exists u, detach_kernel_driver intf = Val u).

(** Every step of [uhf_connect] after the device is found goes through. *)
Definition claimable (host : Host) : Prop :=
  Forall (fun config =>
            exists interfaces, config = Val interfaces /\
                               Forall released interfaces)
    (configurations host) /\
  (exists u, set_configuration host = Val u) /\
  (exists u, claim_interface host = Val u).

(** A host on which the device is found and one interface has an active
    kernel driver that detaches. *)
Definition ready_host : Host :=
  {| usb_core_find := Val (Some unplugged_device);
     configurations :=
       [Val [ {| is_kernel_driver_active := Val true;
                 detach_kernel_driver := Val tt |};
              {| is_kernel_driver_active := Val false;
                 detach_kernel_driver := Raise (USBError 1) |} ]];
     set_configuration := Val tt; claim_interface := Val tt |}.

(** A host on which the device is found and another program holds the
    interface: the claim raises [USBError] (errno 16, resource busy). *)
Definition busy_host : Host :=
  {| usb_core_find := Val (Some unplugged_device);
     configurations := [Val []];
     set_configuration := Val tt; claim_interface := Raise (USBError 16) |}.

(** A host without a USB backend: [usb.core.find] itself raises. *)
Definition no_backend_host : Host :=
  {| usb_core_find := Raise OtherException; configurations := [];
     set_configuration := Val tt; claim_interface := Val tt |}.

(** A host on which no reader is plugged in. *)
Definition empty_host : Host :=
  {| usb_core_find := Val None; configurations := [];
     set_configuration := Val tt; claim_interface := Val tt |}.

(** ** The example session

    The script at the end of the file reads the three buffers back after a
    successful [uhf_inventory]. *)







(** * Properties *)

(** ** Indexing *)

Lemma len_nonneg l : 0 <= len l.
Proof. unfold len. lia. Qed.

Lemma getitem_lookup l (n : nat) v :
  l !! n = Some v -> getitem l (Z.of_nat n) = Val v.
Proof.
  intros H. pose proof (lookup_lt_Some _ _ _ H) as Hlt.
  unfold getitem, len.
  destruct (Z.ltb_spec (Z.of_nat n) 0); [lia|].
  destruct (Z.ltb_spec (Z.of_nat n) 0); [lia|].
  destruct (Z.leb_spec (Z.of_nat (length l)) (Z.of_nat n)); [lia|].
  simpl. rewrite Nat2Z.id, H. reflexivity.
Qed.

Lemma is_byteb_true v : is_byte v -> is_byteb v = true.
Proof. unfold is_byte, is_byteb. intros. apply andb_true_iff. split; [apply Z.leb_le|apply Z.ltb_lt]; lia. Qed.

Lemma setitem_insert l (n : nat) v :
  is_byte v -> (n < length l)%nat ->
  setitem l (Z.of_nat n) v = Val (<[n := v]> l).
Proof.
  intros Hv Hn. unfold setitem, len. rewrite (is_byteb_true _ Hv). simpl.
  destruct (Z.ltb_spec (Z.of_nat n) 0); [lia|].
  destruct (Z.ltb_spec (Z.of_nat n) 0); [lia|].
  destruct (Z.leb_spec (Z.of_nat (length l)) (Z.of_nat n)); [lia|].
  simpl. rewrite Nat2Z.id. reflexivity.
Qed.

(** ** Byte/Hex codec *)

Lemma nibbles_range v :
  is_byte v -> 0 <= Z.shiftr v 4 < 16 /\ 0 <= Z.land v 15 < 16.
Proof.
  unfold is_byte. intros Hv.
  rewrite Z.shiftr_div_pow2 by lia.
  change 15 with (Z.ones 4). rewrite Z.land_ones by lia.
  change (2 ^ 4) with 16. split.
  - split; [apply Z.div_pos; lia | apply Z.div_lt_upper_bound; lia].
  - apply Z.mod_pos_bound; lia.
Qed.

Lemma nibbles_join v : is_byte v -> 16 * Z.shiftr v 4 + Z.land v 15 = v.
Proof.
  unfold is_byte. intros Hv.
  rewrite Z.shiftr_div_pow2 by lia.
  change 15 with (Z.ones 4). rewrite Z.land_ones by lia.
  change (2 ^ 4) with 16. symmetry. apply Z.div_mod. lia.
Qed.

Lemma toHexChar_byte d : 0 <= d < 16 -> is_byte (toHexChar d).
Proof.
  unfold toHexChar, is_byte. intros Hd.
  destruct (Z.geb_spec d 10); lia.
Qed.

Lemma hex_value_toHexChar d : 0 <= d < 16 -> hex_value (toHexChar d) = Some d.
Proof.
  intros Hd. assert (Hcases : d = 0 \/ d = 1 \/ d = 2 \/ d = 3 \/ d = 4 \/ d = 5
    \/ d = 6 \/ d = 7 \/ d = 8 \/ d = 9 \/ d = 10 \/ d = 11 \/ d = 12 \/ d = 13
    \/ d = 14 \/ d = 15) by lia.
  repeat (destruct Hcases as [-> | Hcases]; [reflexivity|]). subst. reflexivity.
Qed.

Lemma hex_pairs_length b : length (hex_pairs b) = (2 * length b)%nat.
Proof. induction b as [|v b IH]; simpl; [reflexivity | rewrite IH; lia]. Qed.

Lemma hex_pairs_snoc b v :
  hex_pairs (b ++ [v]) =
  hex_pairs b ++ [toHexChar (Z.shiftr v 4); toHexChar (Z.land v 15)].
Proof. unfold hex_pairs. rewrite flat_map_app. simpl. reflexivity. Qed.

Lemma hex_pairs_lookup b (i : nat) v :
  b !! i = Some v ->
  hex_pairs b !! (2 * i)%nat = Some (toHexChar (Z.shiftr v 4)) /\
  hex_pairs b !! (2 * i + 1)%nat = Some (toHexChar (Z.land v 15)).
Proof.
  revert i. induction b as [|x b IH]; intros i H; [discriminate|].
  destruct i as [|i]; simpl in *.
  - injection H as ->. split; reflexivity.
  - replace (i + S (i + 0))%nat with (S (2 * i)) by lia. simpl.
    replace (i + (i + 0))%nat with (2 * i)%nat by lia. apply IH, H.
Qed.

Lemma binaryToHex_body_step source (i : nat) v pre rest :
  source !! i = Some v -> is_byte v -> length pre = (2 * i)%nat ->
  binaryToHex_body source (Z.of_nat i) (pre ++ 0 :: 0 :: rest)
  = Val (Next (pre ++ toHexChar (Z.shiftr v 4) :: toHexChar (Z.land v 15) :: rest)).
Proof.
  intros Hv Hbv Hpre. destruct (nibbles_range v Hbv) as [Hhi Hlo].
  unfold binaryToHex_body. rewrite (getitem_lookup _ _ _ Hv). cbn [res_bind].
  replace (Z.of_nat i * 2) with (Z.of_nat (2 * i)) by lia.
  rewrite (setitem_insert _ (2 * i));
    [| apply toHexChar_byte, Hhi | rewrite length_app; simpl; lia].
  cbn [res_bind].
  replace (Z.of_nat (2 * i) + 1) with (Z.of_nat (2 * i + 1)) by lia.
  rewrite (setitem_insert _ (2 * i + 1));
    [| apply toHexChar_byte, Hlo | rewrite length_insert, length_app; simpl; lia].
  cbn [res_bind].
  rewrite insert_app_r_alt by lia. rewrite Hpre, Nat.sub_diag.
  rewrite insert_app_r_alt by lia. rewrite Hpre.
  replace (2 * i + 1 - 2 * i)%nat with 1%nat by lia. reflexivity.
Qed.

Lemma binaryToHex_loop source (k : nat) :
  Forall is_byte source ->
  forall (i : nat) pre,
    length pre = (2 * i)%nat -> (i + k <= length source)%nat ->
    for_loop (binaryToHex_body source) (Z.of_nat i) k (pre ++ replicate (2 * k) 0)
    = Val (Next (pre ++ hex_pairs (take k (drop i source)))).
Proof.
  intros Hb. induction k as [|k IH]; intros i pre Hpre Hik.
  - reflexivity.
  - destruct (lookup_lt_is_Some_2 source i) as [v Hv]; [lia|].
    assert (Hbv : is_byte v) by (eapply Forall_lookup_1; eauto).
    rewrite (drop_S _ _ _ Hv).
    replace (2 * S k)%nat with (S (S (2 * k))) by lia.
    cbn [for_loop replicate].
    rewrite (binaryToHex_body_step _ _ _ _ _ Hv Hbv Hpre).
    replace (Z.of_nat i + 1) with (Z.of_nat (S i)) by lia.
    specialize (IH (S i) (pre ++ [toHexChar (Z.shiftr v 4); toHexChar (Z.land v 15)])).
    rewrite <- !app_assoc in IH. cbn [app] in IH. rewrite IH.
    + reflexivity.
    + rewrite length_app. simpl. lia.
    + lia.
Qed.

Lemma binaryToHex_take source length :
  Forall is_byte source -> 0 < length <= len source ->
  binaryToHex source length
  = Val (Some (hex_pairs (take (Z.to_nat length) source))).
Proof.
  intros Hb [Hpos Hle]. unfold binaryToHex.
  destruct (Z.leb_spec length 0); [lia|]. simpl.
  destruct source as [|x source]; [unfold len in Hle; simpl in Hle; lia|].
  rewrite bool_decide_eq_false_2 by discriminate.
  unfold for_range, bytearray.
  replace (Z.to_nat (length * 2)) with (2 * Z.to_nat length)%nat by lia.
  pose proof (binaryToHex_loop (x :: source) (Z.to_nat length) Hb 0 []) as Hloop.
  cbn [app] in Hloop. change (Z.of_nat 0) with 0 in Hloop. rewrite Hloop.
  - reflexivity.
  - reflexivity.
  - unfold len in Hle. lia.
Qed.

Lemma hex_value_digit c :
  hex_value c = None <-> is_hex_digit c = false.
Proof.
  unfold hex_value, is_hex_digit.
  destruct ((48 <=? c) && (c <=? 57)); [split; discriminate|].
  destruct ((65 <=? c) && (c <=? 70)); [split; discriminate|].
  destruct ((97 <=? c) && (c <=? 102)); [split; discriminate|].
  split; reflexivity.
Qed.

Lemma hex_value_Some_digit c d : hex_value c = Some d -> is_hex_digit c = true.
Proof.
  intros H. destruct (is_hex_digit c) eqn:E; [reflexivity|].
  apply hex_value_digit in E. congruence.
Qed.

Lemma hex_value_range c d : hex_value c = Some d -> 0 <= d < 16.
Proof.
  unfold hex_value.
  destruct ((48 <=? c) && (c <=? 57)) eqn:E1.
  { intros [= <-]. apply andb_true_iff in E1 as [H1 H2]. lia. }
  destruct ((65 <=? c) && (c <=? 70)) eqn:E2.
  { intros [= <-]. apply andb_true_iff in E2 as [H1 H2]. lia. }
  destruct ((97 <=? c) && (c <=? 102)) eqn:E3.
  { intros [= <-]. apply andb_true_iff in E3 as [H1 H2]. lia. }
  discriminate.
Qed.

Lemma asciiToHex_body_step source (i : nat) high low rest pre tail :
  drop (2 * i) source = high :: low :: rest -> length pre = i ->
  asciiToHex_body source (Z.of_nat i) (pre ++ 0 :: tail)
  = match hex_value high, hex_value low with
    | Some h, Some l => Val (Next (pre ++ (16 * h + l) :: tail))
    | _, _ => Val (Return None)
    end.
Proof.
  intros Hdrop Hpre.
  assert (Hh : source !! (2 * i)%nat = Some high).
  { rewrite <- (Nat.add_0_r (2 * i)), <- lookup_drop, Hdrop. reflexivity. }
  assert (Hl : source !! (2 * i + 1)%nat = Some low).
  { rewrite <- lookup_drop, Hdrop. reflexivity. }
  unfold asciiToHex_body.
  replace (2 * Z.of_nat i) with (Z.of_nat (2 * i)) by lia.
  rewrite (getitem_lookup _ _ _ Hh). cbn [res_bind].
  replace (Z.of_nat (2 * i) + 1) with (Z.of_nat (2 * i + 1)) by lia.
  rewrite (getitem_lookup _ _ _ Hl). cbn [res_bind].
  unfold int16.
  destruct (hex_value high) as [h|] eqn:Eh.
  - destruct (hex_value low) as [l|] eqn:El.
    + assert (is_hex_digit high = true) as ->.
      { destruct (is_hex_digit high) eqn:E; [reflexivity|].
        apply hex_value_digit in E. congruence. }
      assert (is_hex_digit low = true) as ->.
      { destruct (is_hex_digit low) eqn:E; [reflexivity|].
        apply hex_value_digit in E. congruence. }
      cbn [negb orb res_bind].
      apply hex_value_range in Eh. apply hex_value_range in El.
      rewrite (setitem_insert _ i);
        [| unfold is_byte; lia | rewrite length_app; simpl; lia].
      cbn [res_bind except_ValueError].
      rewrite insert_app_r_alt by lia. rewrite Hpre, Nat.sub_diag. reflexivity.
    + apply hex_value_digit in El. rewrite El.
      rewrite orb_true_r. reflexivity.
  - apply hex_value_digit in Eh. rewrite Eh. reflexivity.
Qed.

Lemma asciiToHex_loop source (k : nat) :
  forall (i : nat) pre,
    length pre = i -> (2 * (i + k) <= length source)%nat ->
    for_loop (asciiToHex_body source) (Z.of_nat i) k (pre ++ replicate k 0)
    = match unhex k (drop (2 * i) source) with
      | Some out => Val (Next (pre ++ out))
      | None => Val (Return None)
      end.
Proof.
  induction k as [|k IH]; intros i pre Hpre Hik.
  - reflexivity.
  - destruct (drop (2 * i) source) as [|high [|low rest]] eqn:Hdrop.
    + apply (f_equal length) in Hdrop. rewrite length_drop in Hdrop. simpl in Hdrop. lia.
    + apply (f_equal length) in Hdrop. rewrite length_drop in Hdrop. simpl in Hdrop. lia.
    + cbn [for_loop replicate unhex].
      rewrite (asciiToHex_body_step _ _ _ _ _ _ _ Hdrop Hpre).
      destruct (hex_value high) as [h|]; [|reflexivity].
      destruct (hex_value low) as [l|]; [|reflexivity].
      replace (Z.of_nat i + 1) with (Z.of_nat (S i)) by lia.
      specialize (IH (S i) (pre ++ [16 * h + l])).
      replace (2 * S i)%nat with (2 * i + 2)%nat in IH by lia.
      rewrite <- (drop_drop source 2 (2 * i)), Hdrop in IH.
      change (drop 2 (high :: low :: rest)) with rest in IH.
      rewrite <- app_assoc in IH. cbn [app] in IH. rewrite IH.
      * destruct (unhex k rest); [rewrite <- app_assoc|]; reflexivity.
      * rewrite length_app. simpl. lia.
      * lia.
Qed.

Lemma unhex_Some_inv n : forall s out,
  unhex n s = Some out ->
  length out = n /\ (2 * n <= length s)%nat /\
  forall (i : nat) c, (i < 2 * n)%nat -> s !! i = Some c -> is_hex_digit c = true.
Proof.
  induction n as [|n IH]; intros s out H.
  - injection H as <-. repeat split; [simpl; lia | intros; lia].
  - destruct s as [|high [|low rest]]; try discriminate. cbn [unhex] in H.
    destruct (hex_value high) as [h|] eqn:Eh; [|discriminate].
    destruct (hex_value low) as [l|] eqn:El; [|discriminate].
    destruct (unhex n rest) as [out'|] eqn:Eo; [|discriminate].
    injection H as <-. destruct (IH _ _ Eo) as (Hlen & Hle & Hall).
    repeat split; [simpl; lia | simpl; lia |].
    intros i c Hi Hc.
    destruct i as [|[|i]]; simpl in Hc.
    + injection Hc as <-. eapply hex_value_Some_digit, Eh.
    + injection Hc as <-. eapply hex_value_Some_digit, El.
    + apply (Hall i c); [lia | exact Hc].
Qed.

Lemma unhex_total n : forall s,
  (2 * n <= length s)%nat ->
  (forall (i : nat) c, (i < 2 * n)%nat -> s !! i = Some c -> is_hex_digit c = true) ->
  exists out, unhex n s = Some out.
Proof.
  induction n as [|n IH]; intros s Hlen Hall.
  - eexists. reflexivity.
  - destruct s as [|high [|low rest]]; simpl in Hlen; try lia.
    cbn [unhex].
    destruct (hex_value high) as [h|] eqn:Eh.
    2:{ apply hex_value_digit in Eh. rewrite (Hall 0%nat high) in Eh;
          [discriminate | lia | reflexivity]. }
    destruct (hex_value low) as [l|] eqn:El.
    2:{ apply hex_value_digit in El. rewrite (Hall 1%nat low) in El;
          [discriminate | lia | reflexivity]. }
    destruct (IH rest) as [out Hout].
    + lia.
    + intros i c Hi Hc. apply (Hall (S (S i)) c); [lia | exact Hc].
    + rewrite Hout. eexists. reflexivity.
Qed.

Lemma unhex_lookup n : forall s out (i : nat) high low,
  unhex n s = Some out -> (i < n)%nat ->
  s !! (2 * i)%nat = Some high -> s !! (2 * i + 1)%nat = Some low ->
  exists h l, hex_value high = Some h /\ hex_value low = Some l /\
              out !! i = Some (16 * h + l).
Proof.
  induction n as [|n IH]; intros s out i high low H Hi Hh Hl; [lia|].
  destruct s as [|a [|b rest]]; try discriminate. cbn [unhex] in H.
  destruct (hex_value a) as [h|] eqn:Eh; [|discriminate].
  destruct (hex_value b) as [l|] eqn:El; [|discriminate].
  destruct (unhex n rest) as [out'|] eqn:Eo; [|discriminate].
  injection H as <-. destruct i as [|i].
  - simpl in Hh, Hl. injection Hh as <-. injection Hl as <-.
    exists h, l. repeat split; assumption.
  - replace (2 * S i)%nat with (S (S (2 * i))) in Hh by lia.
    replace (2 * S i + 1)%nat with (S (S (2 * i + 1))) in Hl by lia.
    simpl in Hh, Hl. apply (IH rest out' i high low Eo); [lia | exact Hh | exact Hl].
Qed.

Lemma unhex_hex_pairs b :
  Forall is_byte b -> unhex (length b) (hex_pairs b) = Some b.
Proof.
  induction 1 as [|v b Hv Hb IH]; [reflexivity|].
  destruct (nibbles_range v Hv) as [Hhi Hlo].
  simpl. rewrite (hex_value_toHexChar _ Hhi), (hex_value_toHexChar _ Hlo).
  fold (hex_pairs b). rewrite IH, (nibbles_join v Hv). reflexivity.
Qed.

Lemma asciiToHex_unhex source n :
  0 < n -> asciiToHex source n = Val (unhex (Z.to_nat n) source).
Proof.
  intros Hpos. unfold asciiToHex.
  destruct (Z.leb_spec n 0); [lia|]. cbn [orb].
  assert (Hshort : (length source < 2 * Z.to_nat n)%nat ->
                   unhex (Z.to_nat n) source = None).
  { intros Hlt. destruct (unhex (Z.to_nat n) source) eqn:E; [|reflexivity].
    apply unhex_Some_inv in E. lia. }
  destruct (bool_decide_reflect (source = [])) as [->|Hne].
  { rewrite Hshort; [reflexivity | simpl; lia]. }
  cbn [orb]. destruct (Z.ltb_spec (len source) (n * 2)) as [Hlt|Hge].
  { rewrite Hshort; [reflexivity | unfold len in Hlt; lia]. }
  unfold for_range, bytearray.
  pose proof (asciiToHex_loop source (Z.to_nat n) 0 [] eq_refl) as Hloop.
  cbn [app] in Hloop. change (Z.of_nat 0) with 0 in Hloop.
  rewrite Hloop by (unfold len in Hge; lia).
  change (drop (2 * 0) source) with source.
  destruct (unhex (Z.to_nat n) source); reflexivity.
Qed.

(** C5, as stated, fails on the empty byte sequence: [binaryToHex] gives no
    result for it, so there is nothing to decode. *)
Lemma hex_roundtrip_empty_fails : ~ hex_roundtrip [].
Proof. intros (enc & H & _). vm_compute in H. discriminate. Qed.

(** C5 (amended): every non-empty byte sequence [b] is encoded by
    [binaryToHex] into the [2 * len b] characters [hex_pairs b] -- byte [v]
    gives [toHexChar (v >> 4)] then [toHexChar (v & 15)], where a digit value
    [d] maps to [d + 48] below ten and to [d + 55] (an uppercase letter) from
    ten on -- and [asciiToHex] decodes that encoding to [b] again. *)
Theorem binaryToHex_asciiToHex_roundtrip (b : list Z) :
  b <> [] -> Forall is_byte b ->
  hex_roundtrip b /\
  binaryToHex b (len b) = Val (Some (hex_pairs b)) /\
  (forall (i : nat) v, b !! i = Some v ->
     hex_pairs b !! (2 * i)%nat = Some (toHexChar (Z.shiftr v 4)) /\
     hex_pairs b !! (2 * i + 1)%nat = Some (toHexChar (Z.land v 15))) /\
  (forall d, toHexChar d = if d <? 10 then d + 48 else d + 55) /\
  (forall d, 10 <= d <= 15 -> 65 <= toHexChar d <= 70).
Proof.
  intros Hne Hb.
  assert (Hpos : 0 < len b).
  { destruct b; [congruence | unfold len; simpl; lia]. }
  assert (Henc : binaryToHex b (len b) = Val (Some (hex_pairs b))).
  { rewrite binaryToHex_take by (auto; lia).
    unfold len. rewrite Nat2Z.id, firstn_all. reflexivity. }
  split; [|split; [exact Henc|split; [|split]]].
  - exists (hex_pairs b). split; [exact Henc|]. split.
    + unfold len. rewrite hex_pairs_length. lia.
    + rewrite asciiToHex_unhex by exact Hpos.
      unfold len. rewrite Nat2Z.id, unhex_hex_pairs by exact Hb. reflexivity.
  - intros i v Hv. apply hex_pairs_lookup, Hv.
  - intros d. unfold toHexChar.
    destruct (Z.geb_spec d 10), (Z.ltb_spec d 10); lia || reflexivity.
  - intros d Hd. unfold toHexChar. destruct (Z.geb_spec d 10); lia.
Qed.

Lemma binaryToHex_asciiToHex_roundtrip_witness :
  hex_roundtrip [0; 171; 255] /\
  binaryToHex [0; 171; 255] 3 = Val (Some [48; 48; 65; 66; 70; 70]).
Proof.
  assert (Hne : [0; 171; 255] <> []) by discriminate.
  assert (Hb : Forall is_byte [0; 171; 255]).
  { repeat constructor; unfold is_byte; lia. }
  destruct (binaryToHex_asciiToHex_roundtrip [0; 171; 255] Hne Hb)
    as (Hrt & Henc & _).
  split; [exact Hrt | exact Henc].
Defined.

(** C6, as stated, fails when no byte is asked for: the input is valid (no
    consumed character is a non-digit, nothing is missing), yet
    [asciiToHex] returns its failure value. *)
Lemma asciiToHex_zero_length_fails :
  hex_valid [52; 49] 0 /\ asciiToHex [52; 49] 0 = Val None.
Proof.
  split; [|reflexivity]. split; [unfold len; simpl; lia | intros; lia].
Qed.

(** C6 (amended): [asciiToHex] never raises and returns either the failure
    value or a buffer of exactly [n] decoded bytes; it fails whenever the
    source is shorter than [2 * n] or one of the [2 * n] consumed characters
    is not a hex digit; and a valid input that asks for at least one byte
    never fails: byte [i] of the result is the value of the pair of digits
    at [2 * i] and [2 * i + 1]. *)
Theorem asciiToHex_atomic (source : list Z) (n : Z) :
  ((len source < 2 * n \/
    exists i c, 0 <= i < 2 * n /\ source !! Z.to_nat i = Some c /\
                is_hex_digit c = false) ->
   asciiToHex source n = Val None) /\
  (0 < n -> hex_valid source n ->
   exists out, asciiToHex source n = Val (Some out) /\ len out = n /\
     forall i high low, 0 <= i < n ->
       source !! Z.to_nat (2 * i) = Some high ->
       source !! Z.to_nat (2 * i + 1) = Some low ->
       exists h l, hex_value high = Some h /\ hex_value low = Some l /\
                   out !! Z.to_nat i = Some (16 * h + l)) /\
  (asciiToHex source n = Val None \/
   exists out, asciiToHex source n = Val (Some out) /\ len out = n /\
               hex_valid source n).
Proof.
  destruct (Z.leb_spec n 0) as [Hn|Hn].
  { assert (Hnone : asciiToHex source n = Val None).
    { unfold asciiToHex. destruct (Z.leb_spec n 0); [reflexivity | lia]. }
    split; [intros _; exact Hnone | split; [lia | left; exact Hnone]]. }
  rewrite (asciiToHex_unhex _ _ Hn).
  destruct (unhex (Z.to_nat n) source) as [out|] eqn:E.
  - destruct (unhex_Some_inv _ _ _ E) as (Hlen & Hle & Hall).
    assert (Hvalid : hex_valid source n).
    { split; [unfold len; lia|]. intros i c Hi Hc. apply (Hall (Z.to_nat i) c); [lia | exact Hc]. }
    split; [|split].
    + intros [Hshort | (i & c & Hi & Hc & Hbad)].
      * unfold len in Hshort. lia.
      * rewrite (Hall (Z.to_nat i) c) in Hbad; [discriminate | lia | exact Hc].
    + intros _ _. exists out. split; [reflexivity|]. split; [unfold len; lia|].
      intros i high low Hi Hh Hl.
      apply (unhex_lookup _ _ _ (Z.to_nat i) high low E); [lia | |].
      * replace (2 * Z.to_nat i)%nat with (Z.to_nat (2 * i)) by lia. exact Hh.
      * replace (2 * Z.to_nat i + 1)%nat with (Z.to_nat (2 * i + 1)) by lia. exact Hl.
    + right. exists out. split; [reflexivity|]. split; [unfold len; lia | exact Hvalid].
  - split; [intros _; reflexivity | split; [|left; reflexivity]].
    intros _ [Hlen Hall].
    destruct (unhex_total (Z.to_nat n) source) as [out Hout].
    + unfold len in Hlen. lia.
    + intros i c Hi Hc. apply (Hall (Z.of_nat i)); [lia | rewrite Nat2Z.id; exact Hc].
    + congruence.
Qed.

Lemma asciiToHex_atomic_witness :
  asciiToHex [52; 71] 1 = Val None /\
  exists out, asciiToHex [52; 49; 55] 1 = Val (Some out) /\ len out = 1.
Proof.
  split.
  - apply (proj1 (asciiToHex_atomic [52; 71] 1)). right.
    exists 1, 71. split; [lia | split; reflexivity].
  - destruct (proj1 (proj2 (asciiToHex_atomic [52; 49; 55] 1))) as (out & H1 & H2 & _).
    + lia.
    + split; [unfold len; simpl; lia|]. intros i c Hi Hc.
      assert (Hcase : i = 0 \/ i = 1) by lia.
      destruct Hcase as [-> | ->]; simpl in Hc; injection Hc as <-; reflexivity.
    + exists out. split; assumption.
Defined.

(** ** Frame transport: sending *)

Lemma clip_in_range l i : 0 <= i <= len l -> clip l i = i.
Proof.
  intros Hi. unfold clip.
  destruct (Z.ltb_spec i 0); [lia|].
  destruct (Z.ltb_spec i 0); [lia|].
  destruct (Z.ltb_spec (len l) i); lia.
Qed.

Lemma clip_above l i : len l <= i -> clip l i = len l.
Proof.
  intros Hi. pose proof (len_nonneg l). unfold clip.
  destruct (Z.ltb_spec i 0); [lia|].
  destruct (Z.ltb_spec i 0); [lia|].
  destruct (Z.ltb_spec (len l) i); lia.
Qed.

Lemma slice_take_drop l a b :
  0 <= a <= len l -> a <= b ->
  slice l a b = take (Z.to_nat (b - a)) (drop (Z.to_nat a) l).
Proof.
  intros Ha Hb. unfold slice. rewrite (clip_in_range l a Ha).
  destruct (Z.le_gt_cases b (len l)) as [Hle|Hgt].
  - rewrite clip_in_range by lia. reflexivity.
  - rewrite clip_above by lia.
    rewrite !take_ge; [reflexivity | |]; rewrite length_drop; unfold len in *; lia.
Qed.

Lemma slice_from_1 l : slice_from l 1 = drop 1 l.
Proof.
  unfold slice_from. destruct l as [|x l]; [reflexivity|].
  rewrite slice_take_drop by (unfold len; simpl; lia).
  apply take_ge. rewrite length_drop. unfold len. simpl. lia.
Qed.

Lemma after_writes_nil d : after_writes d [] = d.
Proof. destruct d. unfold after_writes. simpl. rewrite app_nil_r. reflexivity. Qed.

Lemma after_writes_app d a b :
  after_writes (after_writes d a) b = after_writes d (a ++ b).
Proof.
  unfold after_writes. simpl. rewrite drop_drop, length_app, app_assoc.
  reflexivity.
Qed.

Lemma writes_ok_after d chunks : writes_ok d -> writes_ok (after_writes d chunks).
Proof.
  unfold writes_ok. simpl. intros H e Hin. apply (H e).
  apply list_elem_of_lookup in Hin as [i Hi]. rewrite lookup_drop in Hi.
  apply list_elem_of_lookup. eauto.
Qed.

Lemma device_write_ok d chunk :
  writes_ok d ->
  exists written, device_write d chunk = (Val written, after_writes d [chunk]).
Proof.
  intros Hok. unfold device_write, after_writes.
  destruct (writes d) as [|[written|e] rest] eqn:E.
  - eexists. reflexivity.
  - eexists. reflexivity.
  - exfalso. apply (Hok e). rewrite E. left.
Qed.

Lemma send_loop_step fuel data (k : nat) d :
  writes_ok d -> (64 * k < length data)%nat ->
  send_loop (S fuel) data (Z.of_nat (64 * k)) d
  = send_loop fuel data (Z.of_nat (64 * (k + 1)))
      (after_writes d [marked_chunk data k]).
Proof.
  intros Hok Hk. cbn [send_loop].
  destruct (Z.ltb_spec (Z.of_nat (64 * k)) (len data)); [|unfold len in *; lia].
  rewrite slice_take_drop by (unfold len; lia).
  replace (Z.to_nat (Z.of_nat (64 * k) + 64 - Z.of_nat (64 * k))) with 64%nat by lia.
  rewrite Nat2Z.id, slice_from_1.
  set (chunk := if (len data >? 64) && _ then _ else _).
  assert (Hchunk : chunk = marked_chunk data k).
  { unfold chunk, marked_chunk, len.
    destruct (Z.gtb_spec (Z.of_nat (length data)) 64);
      destruct (Nat.ltb_spec 64 (length data)); try lia; [|reflexivity].
    destruct (Z.ltb_spec (Z.of_nat (64 * k) + 64) (Z.of_nat (length data)));
      destruct (Nat.ltb_spec (64 * (k + 1)) (length data)); try lia; reflexivity. }
  rewrite Hchunk. destruct (device_write_ok d (marked_chunk data k) Hok) as [written ->].
  replace (Z.of_nat (64 * k) + 64) with (Z.of_nat (64 * (k + 1))) by lia.
  reflexivity.
Qed.

Lemma send_loop_chunks data (m : nat) :
  forall (k fuel : nat) d,
    writes_ok d ->
    (length data <= 64 * (k + m))%nat ->
    (m = 0%nat \/ 64 * (k + m - 1) < length data)%nat ->
    (m < fuel)%nat ->
    send_loop fuel data (Z.of_nat (64 * k)) d
    = (Val true, after_writes d (map (marked_chunk data) (seq k m))).
Proof.
  induction m as [|m IH]; intros k fuel d Hok Hle Hgt Hfuel.
  - destruct fuel as [|fuel]; [lia|]. cbn [send_loop].
    destruct (Z.ltb_spec (Z.of_nat (64 * k)) (len data)); [unfold len in *; lia|].
    rewrite after_writes_nil. reflexivity.
  - destruct fuel as [|fuel]; [lia|].
    rewrite send_loop_step by (assumption || lia).
    replace (k + 1)%nat with (S k) by lia.
    rewrite (IH (S k) fuel); [| apply writes_ok_after, Hok | lia | lia | lia].
    rewrite after_writes_app. reflexivity.
Qed.

Lemma chunk_count_bounds (L : nat) :
  let n := ((L + 63) / 64)%nat in
  (L <= 64 * n)%nat /\ (n = 0%nat \/ 64 * (n - 1) < L)%nat /\ (n <= L)%nat.
Proof.
  intros n. pose proof (Nat.div_mod_eq (L + 63) 64) as Hdm.
  pose proof (Nat.mod_upper_bound (L + 63) 64) as Hub.
  fold n in Hdm. lia.
Qed.

Lemma marked_chunk_short frame :
  (length frame <= 64)%nat -> marked_chunk frame 0 = frame.
Proof.
  intros H. unfold marked_chunk.
  destruct (Nat.ltb_spec 64 (length frame)); [lia|].
  simpl. apply take_ge. lia.
Qed.

Lemma marked_chunk_long frame (k : nat) :
  (64 < length frame)%nat -> (64 * k < length frame)%nat ->
  length (marked_chunk frame k) = Nat.min 64 (length frame - 64 * k) /\
  marked_chunk frame k !! 0%nat
    = Some (if (64 * (k + 1) <? length frame)%nat then 130 else 2) /\
  forall j : nat, (0 < j < length (marked_chunk frame k))%nat ->
    marked_chunk frame k !! j = frame !! (64 * k + j)%nat.
Proof.
  intros Hlong Hk. unfold marked_chunk.
  destruct (Nat.ltb_spec 64 (length frame)); [|lia].
  split; [|split].
  - cbn [length]. rewrite length_drop, length_take, length_drop. lia.
  - reflexivity.
  - intros j. cbn [length]. rewrite length_drop, length_take, length_drop.
    intros Hj. destruct j as [|j]; [lia|].
    rewrite lookup_cons. rewrite (lookup_drop _ 1 j).
    rewrite lookup_take_lt by lia. rewrite lookup_drop. reflexivity.
Qed.

(** C1: [send_command] hands a non-empty frame of length [L] to the channel
    in exactly [ceil(L/64)] chunks, in order.  A frame of at most 64 bytes
    goes out as one chunk equal to the frame.  For a longer frame chunk
    [k] holds [min 64 (L - 64 k)] bytes, its first byte is [0x02] in the last
    chunk and [0x82] in every other one, and each other byte [j] is byte
    [64 k + j] of the frame. *)
Theorem send_command_chunks (d : Device) (frame : list Z) :
  frame <> [] -> writes_ok d ->
  exists chunks,
    send_command (Some d) frame = (Val true, Some (after_writes d chunks)) /\
    sent (after_writes d chunks) = sent d ++ chunks /\
    Z.of_nat (length chunks) = (len frame + 63) / 64 /\
    (len frame <= 64 -> chunks = [frame]) /\
    (64 < len frame ->
     forall (k : nat) chunk, chunks !! k = Some chunk ->
       len chunk = Z.min 64 (len frame - 64 * Z.of_nat k) /\
       chunk !! 0%nat = Some (if decide (S k = length chunks) then 2 else 130) /\
       forall j : nat, (0 < j < length chunk)%nat ->
         chunk !! j = frame !! (64 * k + j)%nat).
Proof.
  intros Hne Hok.
  set (n := ((length frame + 63) / 64)%nat).
  destruct (chunk_count_bounds (length frame)) as (Hle & Hgt & Hn). fold n in Hle, Hgt, Hn.
  assert (Hpos : (0 < length frame)%nat) by (destruct frame; [congruence | simpl; lia]).
  exists (map (marked_chunk frame) (seq 0 n)).
  split; [|split; [|split; [|split]]].
  - unfold send_command.
    pose proof (send_loop_chunks frame n 0 (S (length frame)) d Hok) as Hloop.
    change (Z.of_nat (64 * 0)) with 0 in Hloop. rewrite Hloop; [reflexivity | | |]; lia.
  - reflexivity.
  - rewrite length_map, length_seq. unfold n, len.
    rewrite Nat2Z.inj_div, Nat2Z.inj_add. reflexivity.
  - unfold len. intros Hshort.
    assert (n = 1%nat) as -> by lia. simpl.
    rewrite marked_chunk_short by lia. reflexivity.
  - unfold len. intros Hlong k chunk Hk.
    rewrite list_lookup_fmap in Hk.
    destruct (seq 0 n !! k) as [k'|] eqn:Hseq; [|discriminate].
    apply lookup_seq in Hseq as [-> Hkn]. simpl in Hk. injection Hk as <-.
    destruct (marked_chunk_long frame k) as (H1 & H2 & H3); [lia | lia |].
    split; [lia|]. split; [|exact H3].
    rewrite H2, length_map, length_seq. f_equal.
    destruct (Nat.ltb_spec (64 * (k + 1)) (length frame));
      destruct (decide (S k = n)); try reflexivity; lia.
Qed.

Lemma send_command_chunks_witness :
  exists chunks,
    send_command
      (Some {| handle := 1; now := 0%Q; reads := []; writes := []; sent := [] |})
      (replicate 65 7)
    = (Val true,
       Some (after_writes
               {| handle := 1; now := 0%Q; reads := []; writes := []; sent := [] |}
               chunks)) /\
    Z.of_nat (length chunks) = 2.
Proof.
  destruct (send_command_chunks
              {| handle := 1; now := 0%Q; reads := []; writes := []; sent := [] |}
              (replicate 65 7)) as (chunks & H1 & _ & H2 & _).
  - discriminate.
  - intros e He. inversion He.
  - exists chunks. split; [exact H1 | exact H2].
Defined.

(** ** Stores into the caller's buffer *)

Lemma getitem_in_range l i :
  0 <= i < len l ->
  exists v, l !! Z.to_nat i = Some v /\ getitem l i = Val v.
Proof.
  intros Hi. destruct (lookup_lt_is_Some_2 l (Z.to_nat i)) as [v Hv].
  { unfold len in Hi. lia. }
  exists v. split; [exact Hv|].
  rewrite <- (Z2Nat.id i) at 1 by lia. apply getitem_lookup, Hv.
Qed.

Lemma setitem_Val l i v l' :
  0 <= i -> setitem l i v = Val l' ->
  l' = <[Z.to_nat i := v]> l /\ i < len l /\ is_byte v.
Proof.
  intros Hi. unfold setitem.
  destruct (is_byteb v) eqn:Eb; [|discriminate]. cbn [negb].
  destruct (Z.ltb_spec i 0); [lia|].
  destruct (Z.ltb_spec i 0); [lia|].
  destruct (Z.leb_spec (len l) i); [discriminate|]. cbn [orb].
  intros [= <-]. split; [reflexivity|]. split; [assumption|].
  unfold is_byteb in Eb. apply andb_true_iff in Eb as [Hlo Hhi].
  unfold is_byte. lia.
Qed.

(** A loop that stores [f j] at [base + j] for [j] from [i] on, [k] times:
    if it comes to its end, the buffer holds the stored values at these
    places and nothing else has changed. *)
Lemma store_loop_inv (body : Z -> unit -> M (ctl unit Empty_set))
    (f : nat -> Z) (base : nat) (k : nat) :
  forall (i : nat) w r w',
    (forall (j : nat) w0, (i <= j < i + k)%nat ->
       body (Z.of_nat j) tt w0
       = match setitem (pData w0) (Z.of_nat (base + j)) (f j) with
         | Val l => (Val (Next tt), set_pData w0 l)
         | Raise e => (Raise e, w0)
         end) ->
    for_loop_st body (Z.of_nat i) k tt w = (Val r, w') ->
    usb_device w' = usb_device w /\ tagCount w' = tagCount w /\
    dataLen w' = dataLen w /\ length (pData w') = length (pData w) /\
    (base + i + k <= length (pData w) \/ k = 0)%nat /\
    forall j : nat,
      pData w' !! j
      = if decide (base + i <= j < base + i + k)%nat
        then Some (f (j - base)%nat) else pData w !! j.
Proof.
  induction k as [|k IH]; intros i w r w' Hbody H.
  - cbn [for_loop_st] in H. injection H as <- <-.
    repeat split; [right; reflexivity|].
    intros j. destruct (decide _); [lia | reflexivity].
  - cbn [for_loop_st] in H. rewrite Hbody in H by lia.
    destruct (setitem (pData w) (Z.of_nat (base + i)) (f i)) as [l|e] eqn:Eset;
      [|discriminate].
    apply setitem_Val in Eset as (-> & Hlt & Hbyte); [|lia].
    rewrite Nat2Z.id in *. unfold len in Hlt.
    replace (Z.of_nat i + 1) with (Z.of_nat (S i)) in H by lia.
    apply IH in H.
    2:{ intros j w0 Hj. apply Hbody. lia. }
    destruct H as (Hd & Ht & Hl & Hlen & Hfit & Hlook). cbn [set_pData usb_device tagCount dataLen pData] in *.
    rewrite length_insert in Hlen, Hfit.
    repeat split; try assumption.
    + left. destruct Hfit as [Hfit | ->]; lia.
    + intros j. rewrite Hlook.
      destruct (decide (base + S i <= j < base + S i + k)%nat);
        destruct (decide (base + i <= j < base + i + S k)%nat); try lia.
      * reflexivity.
      * assert (j = base + i)%nat as -> by lia.
        rewrite list_lookup_insert_eq by lia. do 2 f_equal. lia.
      * apply list_lookup_insert_ne. lia.
Qed.

(** The same loop comes to its end when the values are bytes and the
    places lie inside the buffer. *)
Lemma store_loop_ok (body : Z -> unit -> M (ctl unit Empty_set))
    (f : nat -> Z) (base : nat) (k : nat) :
  forall (i : nat) w,
    (forall (j : nat) w0, (i <= j < i + k)%nat ->
       body (Z.of_nat j) tt w0
       = match setitem (pData w0) (Z.of_nat (base + j)) (f j) with
         | Val l => (Val (Next tt), set_pData w0 l)
         | Raise e => (Raise e, w0)
         end) ->
    (forall j : nat, (i <= j < i + k)%nat -> is_byte (f j)) ->
    (base + i + k <= length (pData w))%nat ->
    exists w', for_loop_st body (Z.of_nat i) k tt w = (Val (Next tt), w').
Proof.
  induction k as [|k IH]; intros i w Hbody Hbytes Hfit.
  - eexists. reflexivity.
  - cbn [for_loop_st]. rewrite Hbody by lia.
    rewrite setitem_insert by (apply Hbytes || idtac; lia).
    replace (Z.of_nat i + 1) with (Z.of_nat (S i)) by lia.
    apply IH.
    + intros j w0 Hj. apply Hbody. lia.
    + intros j Hj. apply Hbytes. lia.
    + cbn [set_pData pData]. rewrite length_insert. lia.
Qed.

(** ** Running the operations *)

Lemma bind_Val_inv {A B} (m : M A) (k : A -> M B) w b w' :
  bind m k w = (Val b, w') ->
  exists a w1, m w = (Val a, w1) /\ k a w1 = (Val b, w').
Proof.
  unfold bind. destruct (m w) as [[a|e] w1]; [|discriminate].
  intros H. exists a, w1. split; [reflexivity | exact H].
Qed.

Lemma lift_inv {A} (r : res A) w x w' : lift r w = (x, w') -> x = r /\ w' = w.
Proof. unfold lift. intros [= <- <-]. split; reflexivity. Qed.

Lemma ret_inv {A} (a : A) w x w' : ret a w = (x, w') -> x = Val a /\ w' = w.
Proof. unfold ret. intros [= <- <-]. split; reflexivity. Qed.

Lemma send_frame command w r w' :
  send command w = (r, w') ->
  pData w' = pData w /\ tagCount w' = tagCount w /\ dataLen w' = dataLen w.
Proof.
  unfold send. destruct (send_command (usb_device w) command).
  intros [= <- <-]. repeat split.
Qed.

Lemma recv_frame timeout w r w' :
  recv timeout w = (r, w') ->
  pData w' = pData w /\ tagCount w' = tagCount w /\ dataLen w' = dataLen w.
Proof.
  unfold recv. destruct (read_response (usb_device w) timeout).
  intros [= <- <-]. repeat split.
Qed.

Lemma except_Exception_0 body w w' :
  except_Exception body w = (0, w') -> body w = (Val 0, w').
Proof.
  unfold except_Exception. destruct (body w) as [[code|e] w1].
  - intros [= -> ->]. reflexivity.
  - discriminate.
Qed.

Lemma and_then_true m1 m2 :
  and_then m1 m2 = Val true -> m1 = Val true /\ m2 = Val true.
Proof.
  unfold and_then, res_bind. destruct m1 as [[|]|e]; try discriminate.
  intros ->. split; reflexivity.
Qed.

Lemma read_store_body response (j : nat) w0 :
  read_store_step response (Z.of_nat j) tt w0
  = match setitem (pData w0) (Z.of_nat (0 + j)) (read_byte response j) with
    | Val l => (Val (Next tt), set_pData w0 l)
    | Raise e => (Raise e, w0)
    end.
Proof.
  assert (Hv : (if 5 + Z.of_nat j <? len response
                then getitem response (5 + Z.of_nat j) else Val 0)
               = Val (read_byte response j)).
  { unfold read_byte. destruct (Z.ltb_spec (5 + Z.of_nat j) (len response)) as [Hlt|Hge].
    - destruct (getitem_in_range response (5 + Z.of_nat j)) as (v & Hv & ->); [lia|].
      replace (Z.to_nat (5 + Z.of_nat j)) with (5 + j)%nat in Hv by lia.
      rewrite Hv. reflexivity.
    - rewrite lookup_ge_None_2; [reflexivity | unfold len in Hge; lia]. }
  unfold read_store_step. rewrite Hv. unfold bind, lift, pData_set, ret.
  cbn [Nat.add].
  destruct (setitem (pData w0) (Z.of_nat j) (read_byte response j)); reflexivity.
Qed.

(** C9: when [uhf_read] succeeds, the frame was built and sent, a response
    was read, and the caller's buffer keeps its length and differs from
    what it was only at the places below [min (rlen * 4) (len pData)]: place
    [j] there holds byte [5 + j] of the response, or 0 when the response has
    no such byte.  The other buffers are untouched. *)
Theorem uhf_read_writes_prefix (icdev infoType address rlen : Z) (w w' : World) :
  uhf_read icdev infoType address rlen w = (0, w') ->
  exists command w1 response,
    read_command infoType address rlen = Val command /\
    send command w = (Val true, w1) /\
    fst (recv 2000 w1) = Val (Some response) /\
    length (pData w') = length (pData w) /\
    tagCount w' = tagCount w /\ dataLen w' = dataLen w /\
    forall j : nat,
      pData w' !! j
      = if decide (Z.of_nat j < Z.min (rlen * 4) (len (pData w)))
        then Some (default 0 (response !! (5 + j)%nat))
        else pData w !! j.
Proof.
  unfold uhf_read. destruct (bad_handle (usb_device w) icdev); [discriminate|].
  intros H. apply except_Exception_0 in H. unfold uhf_read_body in H.
  destruct (valid_infoType infoType); cbn [negb] in H; [|discriminate].
  apply bind_Val_inv in H as (command & w0 & Hcmd & H).
  apply lift_inv in Hcmd as [Hcmd ->].
  apply bind_Val_inv in H as (sent_ok & w1 & Hsend & H).
  destruct sent_ok; [|discriminate].
  apply bind_Val_inv in H as (response & w2 & Hrecv & H).
  apply bind_Val_inv in H as (good & w3 & Hgood & H).
  apply lift_inv in Hgood as [Hgood ->].
  destruct good; [|discriminate].
  symmetry in Hgood. apply and_then_true in Hgood as [Htruthy _].
  destruct response as [[|x r]|]; try discriminate Htruthy.
  cbn [response_bytes] in H.
  apply bind_Val_inv in H as (n & w3 & Hn & H).
  unfold pData_len in Hn. injection Hn as <- <-.
  apply bind_Val_inv in H as ([] & w4 & Hstore & H).
  apply ret_inv in H as [_ ->].
  unfold read_store in Hstore.
  apply bind_Val_inv in Hstore as (c & w5 & Hloop & Hret).
  apply ret_inv in Hret as [_ ->].
  destruct (send_frame _ _ _ _ Hsend) as (Hp1 & Ht1 & Hl1).
  destruct (recv_frame _ _ _ _ Hrecv) as (Hp2 & Ht2 & Hl2).
  unfold for_range_st in Hloop. change 0 with (Z.of_nat 0) in Hloop.
  apply (store_loop_inv _ (read_byte (x :: r)) 0) in Hloop.
  2:{ intros j w0 _. apply read_store_body. }
  destruct Hloop as (_ & Ht & Hl & Hlen & Hfit & Hlook).
  exists command, w1, (x :: r).
  split; [symmetry; exact Hcmd|]. split; [exact Hsend|].
  split; [rewrite Hrecv; reflexivity|].
  split; [congruence|]. split; [congruence|]. split; [congruence|].
  intros j. rewrite Hlook, Hp2, Hp1. unfold read_byte.
  replace (j - 0)%nat with j by lia.
  destruct (decide (0 + 0 <= j < 0 + 0 + Z.to_nat (Z.min (rlen * 4) (len (pData w))))%nat);
    destruct (decide (Z.of_nat j < Z.min (rlen * 4) (len (pData w)))); try lia;
    reflexivity.
Qed.

Lemma uhf_read_writes_prefix_witness :
  exists command w1 response,
    read_command 1 0 2 = Val command /\
    send command read_world = (Val true, w1) /\
    fst (recv 2000 w1) = Val (Some response) /\
    length (pData (snd (uhf_read 7 1 0 2 read_world))) = length (pData read_world).
Proof.
  destruct (uhf_read_writes_prefix 7 1 0 2 read_world
              (snd (uhf_read 7 1 0 2 read_world)))
    as (command & w1 & response & H1 & H2 & H3 & H4 & _).
  - vm_compute. reflexivity.
  - exists command, w1, response. repeat split; assumption.
Defined.

(** ** Error codes of [uhf_read] *)

Lemma setitem_Raise l i v e :
  setitem l i v = Raise e -> e = ValueError \/ e = IndexError.
Proof.
  unfold setitem. destruct (negb (is_byteb v)); [intros [= <-]; left; reflexivity|].
  destruct (_ || _); [intros [= <-]; right; reflexivity | discriminate].
Qed.

Lemma getitem_Raise l i e : getitem l i = Raise e -> e = IndexError.
Proof.
  unfold getitem. destruct (_ || _); [intros [= <-]; reflexivity|].
  destruct (l !! _); [discriminate | intros [= <-]; reflexivity].
Qed.

Lemma res_bind_Raise_inv {A B} (m : res A) (k : A -> res B) e :
  res_bind m k = Raise e -> m = Raise e \/ exists a, m = Val a /\ k a = Raise e.
Proof.
  destruct m as [a|e']; simpl; intros H.
  - right. exists a. split; [reflexivity | exact H].
  - left. injection H as ->. reflexivity.
Qed.

Lemma res_bind_Val_inv {A B} (m : res A) (k : A -> res B) b :
  res_bind m k = Val b -> exists a, m = Val a /\ k a = Val b.
Proof.
  destruct m as [a|e']; simpl; intros H; [|discriminate].
  exists a. split; [reflexivity | exact H].
Qed.

Lemma not_usb_setitem l i v e : setitem l i v = Raise e -> not_usb e.
Proof. intros H errno ->. apply setitem_Raise in H as [H|H]; discriminate. Qed.

Ltac raise_steps H :=
  repeat (apply res_bind_Raise_inv in H as [H | (? & _ & H)];
          [eapply not_usb_setitem; exact H|]).

Lemma read_command_Raise infoType address rlen e :
  read_command infoType address rlen = Raise e -> not_usb e.
Proof.
  unfold read_command. intros H. raise_steps H.
  destruct (address >=? 16); raise_steps H; discriminate.
Qed.

Lemma send_loop_Raise fuel data : forall bytes_written d e d',
  send_loop fuel data bytes_written d = (Raise e, d') -> not_usb e.
Proof.
  induction fuel as [|fuel IH]; intros bw d e d' H.
  - injection H as <- _. intros errno. discriminate.
  - cbn [send_loop] in H. destruct (bw <? len data); [|discriminate].
    destruct (device_write d _) as [[written|[| | |errno|]] d1];
      try (injection H as <- _; intros errno'; discriminate).
    + eapply IH, H.
    + discriminate.
Qed.

Lemma send_command_Raise device data e device' :
  send_command device data = (Raise e, device') -> not_usb e.
Proof.
  unfold send_command. destruct device as [d|]; [|discriminate].
  destruct (send_loop _ data 0 d) as [r d1] eqn:E. intros [= -> _].
  eapply send_loop_Raise, E.
Qed.

Lemma read_response_Raise device timeout e device' :
  read_response device timeout = (Raise e, device') -> not_usb e.
Proof.
  unfold read_response. destruct device as [d|]; [|discriminate].
  destruct (read_loop _ timeout (now d) [] d) as [[response|[| | |errno|]] d1];
    try discriminate; intros [= <- _] errno'; discriminate.
Qed.

Ltac val_steps H :=
  repeat (let Hs := fresh "Hs" in
          apply res_bind_Val_inv in H as (? & Hs & H);
          apply setitem_Val in Hs as (-> & _ & _); [|lia]).

Lemma read_command_frame infoType address rlen command :
  read_command infoType address rlen = Val command ->
  (len command = 9 \/ len command = 10) /\
  command !! 0%nat = Some (len command - 1).
Proof.
  unfold read_command. intros H. val_steps H.
  destruct (address >=? 16); val_steps H; injection H as <-.
  - generalize (toHexChar (Z.shiftr address 4)) (toHexChar (Z.land address 15))
      (length_digit rlen) (infoType + 48).
    intros. vm_compute. split; [right|]; reflexivity.
  - generalize (toHexChar address) (length_digit rlen) (infoType + 48).
    intros. vm_compute. split; [left|]; reflexivity.
Qed.

Lemma bind_Raise_inv {A B} (m : M A) (k : A -> M B) w e w' :
  bind m k w = (Raise e, w') ->
  m w = (Raise e, w') \/ exists a w1, m w = (Val a, w1) /\ k a w1 = (Raise e, w').
Proof.
  unfold bind. destruct (m w) as [[a|e'] w1]; intros H.
  - right. exists a, w1. split; [reflexivity | exact H].
  - left. injection H as -> ->. reflexivity.
Qed.

Lemma and_then_Raise m1 m2 e :
  and_then m1 m2 = Raise e -> m1 = Raise e \/ m2 = Raise e.
Proof.
  unfold and_then, res_bind. destruct m1 as [[|]|e']; intros H.
  - right. exact H.
  - discriminate.
  - left. injection H as ->. reflexivity.
Qed.

Lemma item_eq_Raise response i v e : item_eq response i v = Raise e -> not_usb e.
Proof.
  unfold item_eq, res_bind. destruct (getitem response i) eqn:E; [discriminate|].
  intros [= <-] errno ->. apply getitem_Raise in E. discriminate.
Qed.

Lemma send_Raise command w e w' : send command w = (Raise e, w') -> not_usb e.
Proof.
  unfold send. destruct (send_command (usb_device w) command) as [r dev] eqn:E.
  intros [= -> _]. eapply send_command_Raise, E.
Qed.

Lemma recv_Raise timeout w e w' : recv timeout w = (Raise e, w') -> not_usb e.
Proof.
  unfold recv. destruct (read_response (usb_device w) timeout) as [r dev] eqn:E.
  intros [= -> _]. eapply read_response_Raise, E.
Qed.

Lemma store_loop_Raise (body : Z -> unit -> M (ctl unit Empty_set))
    (f : nat -> Z) (base : nat) (k : nat) :
  forall (i : nat) w e w',
    (forall (j : nat) w0, (i <= j < i + k)%nat ->
       body (Z.of_nat j) tt w0
       = match setitem (pData w0) (Z.of_nat (base + j)) (f j) with
         | Val l => (Val (Next tt), set_pData w0 l)
         | Raise e => (Raise e, w0)
         end) ->
    for_loop_st body (Z.of_nat i) k tt w = (Raise e, w') -> not_usb e.
Proof.
  induction k as [|k IH]; intros i w e w' Hbody H; [discriminate|].
  cbn [for_loop_st] in H. rewrite Hbody in H by lia.
  destruct (setitem (pData w) (Z.of_nat (base + i)) (f i)) as [l|e0] eqn:Eset.
  - replace (Z.of_nat i + 1) with (Z.of_nat (S i)) in H by lia.
    eapply IH, H. intros j w0 Hj. apply Hbody. lia.
  - injection H as <- _. eapply not_usb_setitem, Eset.
Qed.

Lemma read_store_Raise response data_length w e w' :
  read_store response data_length w = (Raise e, w') -> not_usb e.
Proof.
  unfold read_store. intros H.
  apply bind_Raise_inv in H as [H | (c & w1 & _ & H)]; [|discriminate].
  unfold for_range_st in H. change 0 with (Z.of_nat 0) in H.
  eapply (store_loop_Raise _ (read_byte response) 0), H.
  intros j w0 _. apply read_store_body.
Qed.

(** Whatever escapes from the [try] block of [uhf_read] is not a
    [USBError]: the frame transport has caught those. *)
Lemma uhf_read_body_Raise infoType address rlen w e w' :
  uhf_read_body infoType address rlen w = (Raise e, w') -> not_usb e.
Proof.
  unfold uhf_read_body. destruct (negb (valid_infoType infoType)); [discriminate|].
  intros H.
  apply bind_Raise_inv in H as [H | (command & w0 & _ & H)].
  { apply lift_inv in H as [H _]. symmetry in H. eapply read_command_Raise, H. }
  apply bind_Raise_inv in H as [H | (sent_ok & w1 & _ & H)].
  { eapply send_Raise, H. }
  destruct sent_ok; [|discriminate].
  apply bind_Raise_inv in H as [H | (response & w2 & _ & H)].
  { eapply recv_Raise, H. }
  apply bind_Raise_inv in H as [H | (good & w3 & _ & H)].
  { apply lift_inv in H as [H _]. symmetry in H.
    apply and_then_Raise in H as [H|H]; [discriminate|].
    apply and_then_Raise in H as [H|H]; [discriminate|].
    eapply item_eq_Raise, H. }
  destruct good; [|discriminate].
  apply bind_Raise_inv in H as [H | (n & w4 & _ & H)]; [discriminate|].
  apply bind_Raise_inv in H as [H | (u & w5 & _ & H)]; [|discriminate].
  eapply read_store_Raise, H.
Qed.

(** With a valid [infoType] the [try] block returns 0 or -6. *)
Lemma uhf_read_body_codes infoType address rlen w code w' :
  valid_infoType infoType = true ->
  uhf_read_body infoType address rlen w = (Val code, w') ->
  code = 0 \/ code = -6.
Proof.
  unfold uhf_read_body. intros -> H. cbn [negb] in H.
  apply bind_Val_inv in H as (command & w0 & _ & H).
  apply bind_Val_inv in H as (sent_ok & w1 & _ & H).
  destruct sent_ok; [|apply ret_inv in H as [[= <-] _]; right; reflexivity].
  apply bind_Val_inv in H as (response & w2 & _ & H).
  apply bind_Val_inv in H as (good & w3 & _ & H).
  destruct good; [|apply ret_inv in H as [[= <-] _]; right; reflexivity].
  apply bind_Val_inv in H as (n & w4 & _ & H).
  apply bind_Val_inv in H as (u & w5 & _ & H).
  apply ret_inv in H as [[= <-] _]. left. reflexivity.
Qed.

Lemma slice_whole l b : len l <= b -> slice l 0 b = l.
Proof.
  intros Hb. pose proof (len_nonneg l).
  rewrite slice_take_drop by lia. cbn [Z.to_nat drop].
  apply take_ge. unfold len in *. lia.
Qed.

(** A frame of at most 64 bytes is one write; when the channel raises
    [USBError] on it, [send_command] reports failure. *)
Lemma send_command_usb_error d command errno d' :
  0 < len command <= 64 ->
  device_write d command = (Raise (USBError errno), d') ->
  send_command (Some d) command = (Val false, Some d').
Proof.
  intros [Hpos Hle] Hw. unfold send_command. cbn [send_loop].
  destruct (Z.ltb_spec 0 (len command)); [|lia].
  destruct (Z.gtb_spec (len command) 64); [lia|]. cbn [andb].
  rewrite slice_whole by lia. rewrite Hw. reflexivity.
Qed.

(** C8, as stated, fails: the channel raises [USBError] during the send (or
    during the receive) of [uhf_read], and the call returns -6, not -13. *)
Lemma uhf_read_usb_error_not_13 :
  fst (device_write unplugged_device [8; 2; 65; 82; 49; 44; 48; 44; 56])
    = Raise (USBError 19) /\
  fst (uhf_read 7 1 0 8 unplugged_world) = -6 /\
  fst (uhf_read 7 1 0 8 unplugged_world) <> -13 /\
  fst (uhf_read 7 1 0 8 mute_world) = -6.
Proof. repeat split. vm_compute. discriminate. Qed.

(** The test [response and len(response) >= 6 and response[4] == ord('R')]
    fails exactly on a missing or malformed response. *)
Lemma read_test_fails response :
  (Val (truthy response) <&&> Val (6 <=? len (response_bytes response))
     <&&> item_eq (response_bytes response) 4 82)%py = Val false <->
  response = None \/ exists r, response = Some r /\ malformed r.
Proof.
  destruct response as [r|]; cbn [response_bytes truthy]; [|split; [left|]; reflexivity].
  split.
  - intros H. right. exists r. split; [reflexivity|]. unfold malformed.
    destruct r as [|x r]; [left; unfold len; simpl; lia|].
    unfold and_then at 1 in H. cbn [res_bind] in H.
    unfold and_then in H. cbn [res_bind] in H.
    destruct (Z.leb_spec 6 (len (x :: r))) as [Hle|Hlt]; [|left; exact Hlt].
    right. unfold item_eq, res_bind in H.
    destruct (getitem (x :: r) 4) as [y|e]; [|discriminate H].
    exists y. split; [reflexivity|]. injection H as H.
    apply Z.eqb_neq. exact H.
  - intros [H | (r' & [= <-] & Hm)]; [discriminate H|].
    destruct r as [|x r]; [reflexivity|].
    unfold and_then at 1. cbn [res_bind].
    unfold and_then. cbn [res_bind].
    destruct (Z.leb_spec 6 (len (x :: r))) as [Hle|Hlt]; [|reflexivity].
    destruct Hm as [Hm | (y & Hy & Hne)]; [lia|].
    unfold item_eq. rewrite Hy. cbn [res_bind]. f_equal.
    apply Z.eqb_neq. exact Hne.
Qed.

(** The [try] block of [uhf_read] returns -6 exactly when the frame was
    built and then the send failed, or no response came, or the response
    was malformed. *)
Lemma uhf_read_body_minus_6 infoType address rlen w :
  (exists w', uhf_read_body infoType address rlen w = (Val (-6), w')) <->
  exists command,
    valid_infoType infoType = true /\
    read_command infoType address rlen = Val command /\
    (fst (send command w) = Val false \/
     exists w1, send command w = (Val true, w1) /\
       (fst (recv 2000 w1) = Val None \/
        exists response, fst (recv 2000 w1) = Val (Some response) /\
                         malformed response)).
Proof.
  unfold uhf_read_body. split.
  - intros [w' H].
    destruct (valid_infoType infoType) eqn:Ev; cbn [negb] in H;
      [|apply ret_inv in H as [H _]; discriminate H].
    apply bind_Val_inv in H as (command & w0 & Hcmd & H).
    apply lift_inv in Hcmd as [Hcmd ->].
    exists command. split; [reflexivity|]. split; [symmetry; exact Hcmd|].
    apply bind_Val_inv in H as (sent_ok & w1 & Hsend & H).
    destruct sent_ok; [|left; rewrite Hsend; reflexivity].
    right. exists w1. split; [exact Hsend|].
    apply bind_Val_inv in H as (response & w2 & Hrecv & H).
    cbv zeta in H.
    apply bind_Val_inv in H as (good & w3 & Hgood & H).
    apply lift_inv in Hgood as [Hgood ->].
    destruct good.
    { apply bind_Val_inv in H as (n & w4 & _ & H).
      apply bind_Val_inv in H as (u & w5 & _ & H).
      apply ret_inv in H as [H _]. discriminate H. }
    symmetry in Hgood. apply read_test_fails in Hgood.
    rewrite Hrecv. cbn [fst].
    destruct Hgood as [-> | (r & -> & Hm)]; [left; reflexivity|].
    right. exists r. split; [reflexivity | exact Hm].
  - intros (command & Ev & Hcmd & H). rewrite Ev, Hcmd. cbn [negb].
    unfold lift at 1. unfold bind at 1.
    destruct H as [Hsend | (w1 & Hsend & H)].
    + destruct (send command w) as [r w1] eqn:Es. cbn [fst] in Hsend. subst r.
      exists w1. unfold bind. rewrite Es. reflexivity.
    + destruct (recv 2000 w1) as [r w2] eqn:Er. cbn [fst] in H.
      assert (Hr : exists response,
                 r = Val response /\
                 (response = None \/ exists x, response = Some x /\ malformed x)).
      { destruct H as [-> | (response & -> & Hm)].
        - exists None. split; [reflexivity | left; reflexivity].
        - exists (Some response). split; [reflexivity|].
          right. exists response. split; [reflexivity | exact Hm]. }
      destruct Hr as (response & -> & Hr). apply read_test_fails in Hr.
      exists w2. unfold bind at 1. rewrite Hsend. cbv beta iota.
      unfold bind at 1. rewrite Er. cbv beta iota zeta.
      unfold lift at 1. unfold bind at 1. rewrite Hr. reflexivity.
Qed.

(** C8 (amended): with a valid handle, [uhf_read] returns -2 exactly for an
    [infoType] outside 1-4; a [USBError] that the channel raises on the
    write of the frame, or on a read of the response, is caught by the frame
    transport and makes [uhf_read] return -6; -13 is returned exactly when
    an exception other than [USBError] escapes from the [try] block; and -6
    is returned exactly when the frame was built and the send failed, or no
    response came, or the response was malformed. *)
Theorem uhf_read_error_codes (icdev infoType address rlen : Z) (w : World) :
  bad_handle (usb_device w) icdev = false ->
  (fst (uhf_read icdev infoType address rlen w) = -2 <->
   valid_infoType infoType = false) /\
  (forall command d errno d',
     valid_infoType infoType = true ->
     read_command infoType address rlen = Val command ->
     usb_device w = Some d ->
     device_write d command = (Raise (USBError errno), d') ->
     uhf_read icdev infoType address rlen w = (-6, set_device w (Some d'))) /\
  (forall command w1 d errno d',
     valid_infoType infoType = true ->
     read_command infoType address rlen = Val command ->
     send command w = (Val true, w1) ->
     usb_device w1 = Some d ->
     read_loop (S (length (reads d))) 2000 (now d) [] d
       = (Raise (USBError errno), d') ->
     uhf_read icdev infoType address rlen w = (-6, set_device w1 (Some d'))) /\
  (fst (uhf_read icdev infoType address rlen w) = -13 <->
   exists e w', uhf_read_body infoType address rlen w = (Raise e, w') /\
                not_usb e) /\
  (fst (uhf_read icdev infoType address rlen w) = -6 <->
   exists command,
     valid_infoType infoType = true /\
     read_command infoType address rlen = Val command /\
     (fst (send command w) = Val false \/
      exists w1, send command w = (Val true, w1) /\
        (fst (recv 2000 w1) = Val None \/
         exists response, fst (recv 2000 w1) = Val (Some response) /\
                          malformed response))).
Proof.
  intros Hh. unfold uhf_read. rewrite Hh. unfold except_Exception.
  split; [|split; [|split; [|split]]].
  - destruct (valid_infoType infoType) eqn:Ev.
    + split; [|discriminate]. intros H.
      destruct (uhf_read_body infoType address rlen w) as [[code|e] w'] eqn:E.
      * apply uhf_read_body_codes in E as [-> | ->]; [discriminate H.. | exact Ev].
      * discriminate H.
    + split; [reflexivity|]. intros _. unfold uhf_read_body. rewrite Ev. reflexivity.
  - intros command d errno d' Ev Hcmd Hd Hw.
    destruct (read_command_frame _ _ _ _ Hcmd) as [Hlen _].
    unfold uhf_read_body, bind, lift, send. rewrite Ev, Hcmd. cbv beta iota.
    cbn [negb]. rewrite Hd.
    rewrite (send_command_usb_error d command errno d') by (lia || exact Hw).
    reflexivity.
  - intros command w1 d errno d' Ev Hcmd Hsend Hd Hr.
    unfold uhf_read_body, bind, lift. rewrite Ev, Hcmd. cbv beta iota.
    cbn [negb]. rewrite Hsend. unfold recv, read_response. rewrite Hd, Hr.
    reflexivity.
  - split.
    + intros H.
      destruct (uhf_read_body infoType address rlen w) as [[code|e] w'] eqn:E.
      * cbn [fst] in H. subst code.
        destruct (valid_infoType infoType) eqn:Ev.
        -- apply uhf_read_body_codes in E as [E|E]; [discriminate E.. | exact Ev].
        -- unfold uhf_read_body in E. rewrite Ev in E. discriminate E.
      * exists e, w'. split; [reflexivity|]. eapply uhf_read_body_Raise, E.
    + intros (e & w' & -> & _). reflexivity.
  - rewrite <- uhf_read_body_minus_6.
    destruct (uhf_read_body infoType address rlen w) as [[code|e] w'] eqn:E;
      cbn [fst].
    + split; [intros ->; exists w'; reflexivity|].
      intros [w'' [= ->]]. reflexivity.
    + split; [discriminate|]. intros [w'' H]. discriminate H.
Qed.

Lemma uhf_read_error_codes_witness :
  uhf_read 7 1 0 8 unplugged_world
  = (-6, set_device unplugged_world
           (Some {| handle := 7; now := 0%Q; reads := []; writes := [];
                    sent := [] |})) /\
  fst (uhf_read 7 1 0 8 garbled_world) = -6.
Proof.
  split.
  - assert (Hh : bad_handle (usb_device unplugged_world) 7 = false) by reflexivity.
    destruct (uhf_read_error_codes 7 1 0 8 unplugged_world Hh) as (_ & Hsend & _).
    apply (Hsend [8; 2; 65; 82; 49; 44; 48; 44; 56] unplugged_device 19);
      reflexivity.
  - assert (Hh : bad_handle (usb_device garbled_world) 7 = false) by reflexivity.
    destruct (uhf_read_error_codes 7 1 0 8 garbled_world Hh)
      as (_ & _ & _ & _ & Hbad).
    apply Hbad. exists [8; 2; 65; 82; 49; 44; 48; 44; 56].
    split; [reflexivity|]. split; [reflexivity|].
    right. exists (snd (send [8; 2; 65; 82; 49; 44; 48; 44; 56] garbled_world)).
    split; [reflexivity|].
    right. exists [8; 2; 65; 0; 81; 1; 2]. split; [reflexivity|].
    right. exists 81. split; [reflexivity | lia].
Defined.

(** ** Inventory session *)

Lemma world_eq w w' :
  usb_device w = usb_device w' -> pData w = pData w' ->
  tagCount w = tagCount w' -> dataLen w = dataLen w' -> w = w'.
Proof. destruct w, w'. simpl. intros -> -> -> ->. reflexivity. Qed.

Lemma record_store_body hex_data (base : nat) (j : nat) w0 :
  record_store_step hex_data (Z.of_nat base) (Z.of_nat j) tt w0
  = match setitem (pData w0) (Z.of_nat (base + 2 + j)) (hex_byte hex_data j) with
    | Val l => (Val (Next tt), set_pData w0 l)
    | Raise e => (Raise e, w0)
    end.
Proof.
  assert (Hv : (if Z.of_nat j <? len hex_data
                then getitem hex_data (Z.of_nat j) else Val 0)
               = Val (hex_byte hex_data j)).
  { unfold hex_byte. destruct (Z.ltb_spec (Z.of_nat j) (len hex_data)) as [Hlt|Hge].
    - destruct (getitem_in_range hex_data (Z.of_nat j)) as (v & Hv & ->); [lia|].
      rewrite Nat2Z.id in Hv. rewrite Hv. reflexivity.
    - rewrite lookup_ge_None_2; [reflexivity | unfold len in Hge; lia]. }
  unfold record_store_step. rewrite Hv. unfold bind, lift, pData_set, ret.
  replace (Z.of_nat base + 2 + Z.of_nat j) with (Z.of_nat (base + 2 + j)) by lia.
  destruct (setitem (pData w0) (Z.of_nat (base + 2 + j)) (hex_byte hex_data j));
    reflexivity.
Qed.

Lemma hex_pairs_bytes b : Forall is_byte b -> Forall is_byte (hex_pairs b).
Proof.
  induction 1 as [|v b Hv Hb IH]; [constructor|].
  destruct (nibbles_range v Hv) as [Hhi Hlo]. simpl.
  constructor; [apply toHexChar_byte, Hhi|].
  constructor; [apply toHexChar_byte, Hlo | exact IH].
Qed.

(** Storing the first [k] items of [hex_data] behind the two header bytes
    of a record at [base]. *)
Lemma record_store_spec hex_data (base k : nat) w :
  Forall is_byte hex_data -> (k <= length hex_data)%nat ->
  (base + 2 + k <= length (pData w))%nat ->
  record_store hex_data (Z.of_nat base) (Z.of_nat k) w
  = (Val tt,
     set_pData w (take (base + 2) (pData w) ++ take k hex_data
                  ++ drop (base + 2 + k) (pData w))).
Proof.
  intros Hb Hk Hfit. unfold record_store, bind, for_range_st.
  rewrite Nat2Z.id. change 0 with (Z.of_nat 0).
  destruct (store_loop_ok (record_store_step hex_data (Z.of_nat base))
              (hex_byte hex_data) (base + 2) k 0 w) as [w' Hloop].
  { intros j w0 _. apply record_store_body. }
  { intros j Hj. unfold hex_byte.
    destruct (lookup_lt_is_Some_2 hex_data j) as [v Hv]; [lia|].
    rewrite Hv. eapply Forall_lookup_1; eauto. }
  { lia. }
  rewrite Hloop. unfold ret. f_equal.
  apply (store_loop_inv _ (hex_byte hex_data) (base + 2)) in Hloop.
  2:{ intros j w0 _. apply record_store_body. }
  destruct Hloop as (Hd & Ht & Hl & Hlen & _ & Hlook).
  apply world_eq; cbn [set_pData usb_device pData tagCount dataLen]; try assumption.
  apply list_eq. intros j. rewrite Hlook.
  destruct (decide (base + 2 + 0 <= j < base + 2 + 0 + k)%nat) as [Hin|Hout].
  - rewrite lookup_app_r by (rewrite length_take; lia).
    rewrite length_take, Nat.min_l by lia.
    rewrite lookup_app_l by (rewrite length_take; lia).
    rewrite lookup_take_lt by lia. unfold hex_byte.
    destruct (lookup_lt_is_Some_2 hex_data (j - (base + 2))) as [v Hv]; [lia|].
    rewrite Hv. reflexivity.
  - destruct (Nat.lt_ge_cases j (base + 2)) as [Hlt|Hge].
    + rewrite lookup_app_l by (rewrite length_take; lia).
      rewrite lookup_take_lt by lia. reflexivity.
    + rewrite lookup_app_r by (rewrite length_take; lia).
      rewrite length_take, Nat.min_l by lia.
      rewrite lookup_app_r by (rewrite length_take; lia).
      rewrite length_take, Nat.min_l by lia.
      rewrite lookup_drop. f_equal. lia.
Qed.

Lemma getitem_Val_lookup l i v :
  getitem l i = Val v -> exists j : nat, l !! j = Some v.
Proof.
  unfold getitem. destruct (_ || _); [discriminate|].
  destruct (l !! _) eqn:E; [|discriminate]. intros [= <-]. eauto.
Qed.

Lemma bind_Val {A B} (m : M A) (k : A -> M B) w a w1 :
  m w = (Val a, w1) -> bind m k w = k a w1.
Proof. unfold bind. intros ->. reflexivity. Qed.

Lemma send_Val command w r dev :
  send_command (usb_device w) command = (r, dev) ->
  send command w = (r, set_device w dev).
Proof. unfold send. intros ->. reflexivity. Qed.

Lemma recv_Val timeout w r dev :
  read_response (usb_device w) timeout = (r, dev) ->
  recv timeout w = (r, set_device w dev).
Proof. unfold recv. intros ->. reflexivity. Qed.

Lemma pData_set_Val (i : nat) v w :
  is_byte v -> (i < length (pData w))%nat ->
  pData_set (Z.of_nat i) v w = (Val tt, set_pData w (<[i := v]> (pData w))).
Proof. intros Hv Hi. unfold pData_set. rewrite setitem_insert by assumption. reflexivity. Qed.

Lemma take_two_inserts (p : list Z) (off : nat) a b :
  (off + 2 <= length p)%nat ->
  take (off + 2) (<[(off + 1)%nat := b]> (<[off := a]> p)) = take off p ++ [a; b].
Proof.
  intros Hfit. apply list_eq. intros j.
  destruct (Nat.lt_ge_cases j (off + 2)) as [Hlt|Hge].
  - rewrite lookup_take_lt by lia.
    destruct (Nat.lt_ge_cases j off) as [Hj|Hj].
    + rewrite lookup_app_l by (rewrite length_take; lia).
      rewrite lookup_take_lt by lia.
      rewrite !list_lookup_insert_ne by lia. reflexivity.
    + rewrite lookup_app_r by (rewrite length_take; lia).
      rewrite length_take, Nat.min_l by lia.
      assert (Hcase : (j = off \/ j = off + 1)%nat) by lia.
      destruct Hcase as [-> | ->].
      * rewrite list_lookup_insert_ne by lia.
        rewrite list_lookup_insert_eq by lia.
        rewrite Nat.sub_diag. reflexivity.
      * rewrite list_lookup_insert_eq by (rewrite length_insert; lia).
        replace (off + 1 - off)%nat with 1%nat by lia. reflexivity.
  - rewrite lookup_take_ge by lia. symmetry. apply lookup_ge_None_2.
    rewrite length_app, length_take. simpl. lia.
Qed.

Lemma inventory_round_ok command i (off : nat) w dev1 dev2 response first words
    last_byte :
  send_command (usb_device w) command = (Val true, dev1) ->
  read_response dev1 2000 = (Val (Some response), dev2) ->
  Forall is_byte response ->
  getitem response 0 = Val first -> first <> 4 ->
  getitem response 1 = Val 160 ->
  getitem response 5 = Val words ->
  getitem response (first - 1) = Val last_byte ->
  0 < 2 * words - 8 <= len response -> 2 * words - 8 + 1 < 256 ->
  Z.of_nat off + 2 + (2 * words - 8) <= len (pData w) ->
  inventory_round command i (Z.of_nat off) w
  = (Val (Next (Z.of_nat off + (2 * words - 8 + 2))),
     set_pData (set_device w dev2)
       (put_record (pData w) (Z.of_nat off)
          (inventory_record response (2 * words - 8) last_byte))).
Proof.
  intros Hsend Hrecv Hbytes H0 Hne4 H1 H5 Hlast Hbc Hbc1 Hfit.
  set (bc := 2 * words - 8) in *.
  assert (Hlb : is_byte last_byte).
  { destruct (getitem_Val_lookup _ _ _ Hlast) as [j Hj]. eapply Forall_lookup_1; eauto. }
  assert (Htr : truthy (Some response) = true).
  { destruct response; [discriminate H0 | reflexivity]. }
  unfold inventory_round.
  rewrite (bind_Val _ _ _ _ _ (send_Val _ _ _ _ Hsend)). cbn [negb].
  rewrite (bind_Val _ _ _ _ _ (recv_Val _ (set_device w dev1) _ _ Hrecv)).
  rewrite Htr. cbn [negb response_bytes].
  unfold lift at 1. unfold bind at 1. rewrite H0.
  destruct (Z.eqb_spec first 4); [contradiction|].
  unfold lift at 1. unfold bind at 1. rewrite H1. cbn [Z.eqb Pos.eqb negb].
  unfold lift at 1. unfold bind at 1. rewrite H5.
  unfold lift at 1. unfold bind at 1. rewrite Hlast.
  unfold pData_len at 1. unfold bind at 1.
  cbn [set_device pData].
  fold bc.
  assert (Hk : (Z.to_nat bc <= length response)%nat) by (unfold len in Hbc; lia).
  destruct (Z.ltb_spec (Z.of_nat off) (len (pData w))); [|lia].
  destruct (Z.ltb_spec (Z.of_nat off + 1) (len (pData w))); [|lia].
  unfold len in Hfit.
  assert (Hrl : is_byte (bc + 1)) by (unfold is_byte; lia).
  erewrite bind_Val;
    [| apply (pData_set_Val off (bc + 1)); [exact Hrl | cbn [set_device pData]; lia]].
  replace (Z.of_nat off + 1) with (Z.of_nat (off + 1)) by lia.
  erewrite bind_Val;
    [| apply (pData_set_Val (off + 1) last_byte);
       [exact Hlb | cbn [set_pData set_device pData]; rewrite length_insert; lia]].
  unfold lift at 1. unfold bind at 1.
  rewrite (binaryToHex_take response bc Hbytes Hbc).
  set (hex := hex_pairs (take (Z.to_nat bc) response)).
  assert (Hhexlen : length hex = (2 * Z.to_nat bc)%nat).
  { unfold hex. rewrite hex_pairs_length, length_take. lia. }
  assert (Hhex : truthy (Some hex) = true).
  { destruct hex; [simpl in Hhexlen; lia | reflexivity]. }
  rewrite Hhex. cbn [response_bytes].
  replace (Z.min bc (len (pData w) - Z.of_nat (off + 1 - 1) - 2))
    with (Z.of_nat (Z.to_nat bc)) by (unfold len; lia).
  replace (Z.min bc (len (pData w) - Z.of_nat off - 2))
    with (Z.of_nat (Z.to_nat bc)) by (unfold len; lia).
  erewrite bind_Val.
  2:{ apply record_store_spec.
      - apply hex_pairs_bytes, Forall_take, Hbytes.
      - lia.
      - cbn [set_pData set_device pData]. rewrite !length_insert. lia. }
  unfold ret. f_equal.
  apply world_eq; cbn [set_pData set_device usb_device pData tagCount dataLen];
    try reflexivity.
  unfold put_record, inventory_record. fold hex.
  rewrite take_two_inserts by lia.
  rewrite !drop_insert_lt by lia.
  rewrite Nat2Z.id. rewrite <- !app_assoc. cbn [app length].
  rewrite length_take, Nat.min_l by lia.
  replace (off + S (S (Z.to_nat bc)))%nat with (off + 2 + Z.to_nat bc)%nat by lia.
  reflexivity.
Qed.

Lemma tagCount_set_Val i v w :
  is_byte v -> 0 <= i < len (tagCount w) ->
  tagCount_set i v w
  = (Val tt, set_tagCount w (<[Z.to_nat i := v]> (tagCount w))).
Proof.
  intros Hv Hi. unfold tagCount_set. rewrite <- (Z2Nat.id i) at 1 by lia.
  rewrite setitem_insert by (unfold len in Hi; assumption || lia). reflexivity.
Qed.

Lemma dataLen_set_Val i v w :
  is_byte v -> 0 <= i < len (dataLen w) ->
  dataLen_set i v w
  = (Val tt, set_dataLen w (<[Z.to_nat i := v]> (dataLen w))).
Proof.
  intros Hv Hi. unfold dataLen_set. rewrite <- (Z2Nat.id i) at 1 by lia.
  rewrite setitem_insert by (unfold len in Hi; assumption || lia). reflexivity.
Qed.

Lemma insert_pair (l : list Z) a b :
  (2 <= length l)%nat ->
  <[1%nat := b]> (<[0%nat := a]> l) = a :: b :: drop 2 l.
Proof. destruct l as [|x [|y l]]; simpl; intros; [lia | lia | reflexivity]. Qed.

Lemma getitem_Val_range l i v : 0 <= i -> getitem l i = Val v -> i < len l.
Proof.
  intros Hi. unfold getitem.
  destruct (Z.ltb_spec i 0); [lia|].
  destruct (Z.ltb_spec i 0); [lia|].
  destruct (Z.leb_spec (len l) i); [discriminate | lia].
Qed.

Lemma inventory_record_length response byte_count last_byte :
  0 <= byte_count <= len response ->
  length (inventory_record response byte_count last_byte)
  = (2 + Z.to_nat byte_count)%nat.
Proof.
  intros Hbc. unfold inventory_record. cbn [app length].
  rewrite length_take, hex_pairs_length, length_take. unfold len in Hbc. lia.
Qed.

Lemma put_record_length buffer offset record :
  0 <= offset -> offset + len record <= len buffer ->
  len (put_record buffer offset record) = len buffer.
Proof.
  unfold put_record, len. intros Ho Hfit.
  rewrite !length_app, length_take, length_drop. lia.
Qed.

Lemma inventory_round_tag command i off w dev1 dev2 response words last_byte :
  send_command (usb_device w) command = (Val true, dev1) ->
  read_response dev1 2000 = (Val (Some response), dev2) ->
  tag_response response words last_byte ->
  0 < 2 * words - 8 <= len response -> 2 * words - 8 + 1 < 256 ->
  0 <= off -> off + 2 + (2 * words - 8) <= len (pData w) ->
  inventory_round command i off w
  = (Val (Next (off + (2 * words - 8 + 2))),
     set_pData (set_device w dev2)
       (put_record (pData w) off
          (inventory_record response (2 * words - 8) last_byte))).
Proof.
  intros Hsend Hrecv (Hbytes & (first & H0 & Hne & Hlast) & H1 & H5) Hbc Hbc1 Hoff Hfit.
  rewrite <- (Z2Nat.id off) by exact Hoff.
  eapply inventory_round_ok; eauto. rewrite Z2Nat.id by exact Hoff. exact Hfit.
Qed.

(** C2: a session whose count response reports two tags and whose two
    per-tag responses pass the checks with [response[5] = 6] writes two
    records, at offsets 0 and 6, each made of the length byte 5, the byte
    at the response's self-described end, and the first four characters of
    the hex encoding of the response; it reports the count 2 and the total
    length 12 as two little-endian bytes each, and returns 0. *)
Theorem uhf_inventory_two_tags (icdev : Z) (w : World)
    (dev1 dev2 dev3 dev4 dev5 dev6 : option Device)
    (count_response r1 r2 : list Z) (last1 last2 : Z) :
  bad_handle (usb_device w) icdev = false ->
  send_command (usb_device w) [3; 2; 85; 128] = (Val true, dev1) ->
  read_response dev1 2000 = (Val (Some count_response), dev2) ->
  5 <= len count_response -> getitem count_response 4 = Val 2 ->
  send_command dev2 [3; 2; 85; 145] = (Val true, dev3) ->
  read_response dev3 2000 = (Val (Some r1), dev4) ->
  send_command dev4 [3; 2; 85; 145] = (Val true, dev5) ->
  read_response dev5 2000 = (Val (Some r2), dev6) ->
  tag_response r1 6 last1 -> tag_response r2 6 last2 ->
  2 <= len (tagCount w) -> 2 <= len (dataLen w) -> 12 <= len (pData w) ->
  uhf_inventory icdev w
  = (0, {| usb_device := dev6;
           pData := inventory_record r1 4 last1 ++ inventory_record r2 4 last2
                    ++ drop 12 (pData w);
           tagCount := 2 :: 0 :: drop 2 (tagCount w);
           dataLen := 12 :: 0 :: drop 2 (dataLen w) |}).
Proof.
  intros Hh Hs0 Hr0 Hlen0 Hcount Hs1 Hr1 Hs2 Hr2 Ht1 Ht2 Htc Hdl Hpd.
  assert (Hl1 : 6 <= len r1).
  { destruct Ht1 as (_ & _ & _ & H5). apply getitem_Val_range in H5; lia. }
  assert (Hl2 : 6 <= len r2).
  { destruct Ht2 as (_ & _ & _ & H5). apply getitem_Val_range in H5; lia. }
  unfold len in Htc, Hdl, Hpd.
  unfold uhf_inventory. rewrite Hh. unfold except_Exception, uhf_inventory_body.
  unfold lift at 1. unfold bind at 1. cbn [bytearray_of forallb is_byteb Z.leb Z.ltb Z.compare Pos.compare Pos.compare_cont andb].
  rewrite (bind_Val _ _ _ _ _ (send_Val _ _ _ _ Hs0)).
  rewrite (bind_Val _ _ _ _ _ (recv_Val _ (set_device w dev1) _ _ Hr0)).
  assert (Htr : truthy (Some count_response) = true).
  { destruct count_response; [discriminate Hcount | reflexivity]. }
  rewrite Htr. cbn [response_bytes].
  destruct (Z.leb_spec 5 (len count_response)); [|lia]. cbn [andb].
  unfold lift at 1. unfold bind at 1. rewrite Hcount.
  change (Z.land 2 255) with 2. change (Z.land (Z.shiftr 2 8) 255) with 0.
  erewrite bind_Val;
    [| apply (tagCount_set_Val 0 2);
       [unfold is_byte; lia | cbn [set_device tagCount]; unfold len; lia]].
  erewrite bind_Val;
    [| apply (tagCount_set_Val 1 0);
       [unfold is_byte; lia
       | cbn [set_device set_tagCount tagCount]; unfold len;
         rewrite length_insert; lia]].
  cbn [Z.eqb].
  unfold lift at 1. unfold bind at 1.
  change (setitem [3; 2; 85; 128] 3 145) with (Val (A := list Z) [3; 2; 85; 145]).
  unfold for_range_st. change (Z.to_nat 2) with 2%nat.
  unfold bind at 1. cbn [for_loop_st].
  erewrite (inventory_round_tag _ _ 0 _ dev3 dev4 r1 6 last1); eauto; try lia.
  2:{ cbn [set_pData set_device set_tagCount pData]. unfold len. lia. }
  change (0 + (2 * 6 - 8 + 2)) with 6. change (2 * 6 - 8) with 4.
  erewrite (inventory_round_tag _ _ 6 _ dev5 dev6 r2 6 last2); eauto; try lia.
  2:{ cbn [set_pData set_device set_tagCount pData].
      rewrite put_record_length; unfold len;
        rewrite ?inventory_record_length by lia; lia. }
  change (6 + (2 * 6 - 8 + 2)) with 12. change (2 * 6 - 8) with 4.
  change (Z.land 12 255) with 12. change (Z.land (Z.shiftr 12 8) 255) with 0.
  erewrite bind_Val;
    [| apply (dataLen_set_Val 0 12);
       [unfold is_byte; lia
       | cbn [set_device set_pData set_tagCount dataLen]; unfold len; lia]].
  erewrite bind_Val;
    [| apply (dataLen_set_Val 1 0);
       [unfold is_byte; lia
       | cbn [set_device set_pData set_tagCount set_dataLen dataLen]; unfold len;
         rewrite length_insert; lia]].
  unfold ret. f_equal.
  apply world_eq; cbn [set_pData set_device set_tagCount set_dataLen usb_device pData tagCount dataLen].
  - reflexivity.
  - assert (Hrec1 : length (inventory_record r1 4 last1) = 6%nat)
      by (rewrite inventory_record_length by lia; reflexivity).
    assert (Hrec2 : length (inventory_record r2 4 last2) = 6%nat)
      by (rewrite inventory_record_length by lia; reflexivity).
    unfold put_record. rewrite Hrec1, Hrec2.
    change (Z.to_nat 0) with 0%nat. change (Z.to_nat 6) with 6%nat.
    rewrite take_0. cbn [Nat.add app].
    rewrite (take_app_length' _ _ 6) by (symmetry; exact Hrec1).
    replace 12%nat with (6 + 6)%nat at 1 by reflexivity.
    rewrite <- (drop_drop _ 6 6).
    rewrite (drop_app_length' _ _ 6) by (symmetry; exact Hrec1).
    rewrite drop_drop. reflexivity.
  - apply (insert_pair (tagCount w)). lia.
  - apply (insert_pair (dataLen w)). lia.
Qed.

Lemma uhf_inventory_two_tags_witness :
  fst (uhf_inventory 7 two_tag_world) = 0 /\
  pData (snd (uhf_inventory 7 two_tag_world))
  = [5; 17; 48; 55; 65; 48; 5; 99; 48; 48; 65; 48] ++ replicate 8 255 /\
  dataLen (snd (uhf_inventory 7 two_tag_world)) = [12; 0].
Proof.
  set (d1 := snd (send_command (usb_device two_tag_world) [3; 2; 85; 128])).
  set (d2 := snd (read_response d1 2000)).
  set (d3 := snd (send_command d2 [3; 2; 85; 145])).
  set (d4 := snd (read_response d3 2000)).
  set (d5 := snd (send_command d4 [3; 2; 85; 145])).
  set (d6 := snd (read_response d5 2000)).
  rewrite (uhf_inventory_two_tags 7 two_tag_world d1 d2 d3 d4 d5 d6
             [4; 2; 85; 0; 2] [7; 160; 0; 0; 0; 6; 17]
             [0; 160; 1; 2; 3; 6; 0; 99] 17 99).
  - repeat split.
  - reflexivity.
  - reflexivity.
  - reflexivity.
  - unfold len. simpl. lia.
  - reflexivity.
  - reflexivity.
  - reflexivity.
  - reflexivity.
  - reflexivity.
  - split; [repeat constructor; unfold is_byte; lia|].
    split; [exists 7; split; [reflexivity | split; [lia | reflexivity]]|].
    split; reflexivity.
  - split; [repeat constructor; unfold is_byte; lia|].
    split; [exists 0; split; [reflexivity | split; [lia | reflexivity]]|].
    split; reflexivity.
  - unfold len. simpl. lia.
  - unfold len. simpl. lia.
  - unfold len. simpl. lia.
Defined.

(** *** What a round leaves alone *)

Lemma frames_ret {A} (a : A) : frames_caller (ret a).
Proof. intros w r w' [= _ <-]. split; reflexivity. Qed.

Lemma frames_lift {A} (x : res A) : frames_caller (lift x).
Proof. intros w r w' [= _ <-]. split; reflexivity. Qed.

Lemma frames_bind {A B} (m : M A) (k : A -> M B) :
  frames_caller m -> (forall a, frames_caller (k a)) -> frames_caller (bind m k).
Proof.
  intros Hm Hk w r w'. unfold bind.
  destruct (m w) as [[a|e] w1] eqn:E; intros H.
  - destruct (Hm _ _ _ E) as [Ht Hd]. destruct (Hk a _ _ _ H) as [Ht' Hd'].
    split; congruence.
  - injection H as _ <-. exact (Hm _ _ _ E).
Qed.

Lemma frames_send command : frames_caller (send command).
Proof. intros w r w' H. apply send_frame in H as (_ & Ht & Hd). split; assumption. Qed.

Lemma frames_recv timeout : frames_caller (recv timeout).
Proof. intros w r w' H. apply recv_frame in H as (_ & Ht & Hd). split; assumption. Qed.

Lemma frames_pData_len : frames_caller pData_len.
Proof. intros w r w' [= _ <-]. split; reflexivity. Qed.

Lemma frames_pData_set i v : frames_caller (pData_set i v).
Proof.
  intros w r w'. unfold pData_set.
  destruct (setitem (pData w) i v); intros [= _ <-]; split; reflexivity.
Qed.

Lemma frames_for_loop_st {A R} (body : Z -> A -> M (ctl A R)) n :
  (forall i a, frames_caller (body i a)) ->
  forall i a, frames_caller (for_loop_st body i n a).
Proof.
  intros Hbody. induction n as [|n IH]; intros i a w r w' H.
  - injection H as _ <-. split; reflexivity.
  - cbn [for_loop_st] in H.
    destruct (body i a w) as [[[a'|x]|e] w1] eqn:E.
    + destruct (Hbody _ _ _ _ _ E) as [Ht Hd].
      destruct (IH _ _ _ _ _ H) as [Ht' Hd']. split; congruence.
    + injection H as _ <-. exact (Hbody _ _ _ _ _ E).
    + injection H as _ <-. exact (Hbody _ _ _ _ _ E).
Qed.

Lemma frames_record_store hex_data current_offset data_length :
  frames_caller (record_store hex_data current_offset data_length).
Proof.
  unfold record_store. apply frames_bind; [|intros; apply frames_ret].
  apply frames_for_loop_st. intros i a. unfold record_store_step.
  apply frames_bind; [apply frames_lift|]. intros v.
  apply frames_bind; [apply frames_pData_set|]. intros _. apply frames_ret.
Qed.

Lemma frames_inventory_round command i current_offset :
  frames_caller (inventory_round command i current_offset).
Proof.
  unfold inventory_round.
  apply frames_bind; [apply frames_send|]. intros result.
  destruct (negb result); [apply frames_ret|].
  apply frames_bind; [apply frames_recv|]. intros response.
  destruct (negb (truthy response)); [apply frames_ret|].
  apply frames_bind; [apply frames_lift|]. intros first.
  destruct (first =? 4); [apply frames_ret|].
  apply frames_bind; [apply frames_lift|]. intros second.
  destruct (negb (second =? 160)); [apply frames_ret|].
  apply frames_bind; [apply frames_lift|]. intros words.
  apply frames_bind; [apply frames_lift|]. intros last_byte.
  apply frames_bind; [apply frames_pData_len|]. intros n.
  apply frames_bind.
  { destruct (_ <? _); [apply frames_pData_set | apply frames_ret]. }
  intros _. apply frames_bind.
  { destruct (_ <? _); [apply frames_pData_set | apply frames_ret]. }
  intros _. apply frames_bind; [apply frames_lift|]. intros hex_data.
  apply frames_bind; [|intros; apply frames_ret].
  destruct (truthy hex_data); [apply frames_record_store | apply frames_ret].
Qed.

Lemma for_loop_st_app {A R} (body : Z -> A -> M (ctl A R)) (k m : nat) :
  forall i a w a' w',
    for_loop_st body i k a w = (Val (Next a'), w') ->
    for_loop_st body i (k + m) a w = for_loop_st body (i + Z.of_nat k) m a' w'.
Proof.
  induction k as [|k IH]; intros i a w a' w' H.
  - injection H as <- <-. rewrite Z.add_0_r. reflexivity.
  - cbn [for_loop_st Nat.add] in *.
    destruct (body i a w) as [[[a1|x]|e] w1]; try discriminate.
    rewrite (IH _ _ _ _ _ H). f_equal. lia.
Qed.

(** C3: when the first [k] rounds of a session have gone through and the
    next per-tag response starts with 4, [uhf_inventory] returns 4 without
    any further exchange; the buffer holds what the [k] rounds wrote, and
    [dataLen] is what it was before the call. *)
Theorem uhf_inventory_fault_aborts (icdev : Z) (w : World)
    (dev1 dev2 : option Device) (count_response : list Z) (count : Z)
    (k : nat) (offset : Z) (wk : World) (devk1 devk2 : option Device)
    (response : list Z) :
  bad_handle (usb_device w) icdev = false ->
  send_command (usb_device w) [3; 2; 85; 128] = (Val true, dev1) ->
  read_response dev1 2000 = (Val (Some count_response), dev2) ->
  5 <= len count_response -> getitem count_response 4 = Val count ->
  2 <= len (tagCount w) ->
  Z.of_nat k < count ->
  for_loop_st (inventory_round [3; 2; 85; 145]) 0 k 0 (after_count w dev2 count)
    = (Val (Next offset), wk) ->
  send_command (usb_device wk) [3; 2; 85; 145] = (Val true, devk1) ->
  read_response devk1 2000 = (Val (Some response), devk2) ->
  getitem response 0 = Val 4 ->
  uhf_inventory icdev w = (4, set_device wk devk2) /\
  pData (set_device wk devk2) = pData wk /\
  dataLen (set_device wk devk2) = dataLen w.
Proof.
  intros Hh Hs0 Hr0 Hlen0 Hcount Htc Hk Hrounds Hsk Hrk Hfirst.
  split; [|split; [reflexivity|]].
  2:{ cbn [set_device dataLen].
      destruct (frames_for_loop_st _ k (frames_inventory_round _) _ _ _ _ _ Hrounds)
        as [_ Hd]. rewrite Hd. reflexivity. }
  unfold uhf_inventory. rewrite Hh. unfold except_Exception, uhf_inventory_body.
  unfold lift at 1. unfold bind at 1.
  change (bytearray_of [3; 2; 85; 128]) with (Val (A := list Z) [3; 2; 85; 128]).
  cbv beta iota.
  rewrite (bind_Val _ _ _ _ _ (send_Val _ _ _ _ Hs0)).
  rewrite (bind_Val _ _ _ _ _ (recv_Val _ (set_device w dev1) _ _ Hr0)).
  assert (Htr : truthy (Some count_response) = true).
  { destruct count_response; [discriminate Hcount | reflexivity]. }
  rewrite Htr. cbn [response_bytes].
  destruct (Z.leb_spec 5 (len count_response)); [|lia]. cbn [andb].
  unfold lift at 1. unfold bind at 1. rewrite Hcount.
  assert (Hland : forall x, is_byte (Z.land x 255)).
  { intros x. unfold is_byte. change 255 with (Z.ones 8).
    rewrite Z.land_ones by lia. apply Z.mod_pos_bound. lia. }
  erewrite bind_Val;
    [| apply (tagCount_set_Val 0); [apply Hland | cbn [set_device tagCount]; lia]].
  erewrite bind_Val;
    [| apply (tagCount_set_Val 1);
       [apply Hland
       | cbn [set_device set_tagCount tagCount]; unfold len in *;
         rewrite length_insert; lia]].
  destruct (Z.eqb_spec count 0); [lia|].
  unfold lift at 1. unfold bind at 1.
  change (setitem [3; 2; 85; 128] 3 145) with (Val (A := list Z) [3; 2; 85; 145]).
  cbv beta iota.
  change (set_tagCount _ _) with (after_count w dev2 count).
  unfold for_range_st.
  replace (Z.to_nat count) with (k + S (Z.to_nat count - k - 1))%nat by lia.
  unfold bind at 1.
  rewrite (for_loop_st_app _ _ _ _ _ _ _ _ Hrounds).
  cbn [for_loop_st]. unfold inventory_round at 1.
  rewrite (bind_Val _ _ _ _ _ (send_Val _ _ _ _ Hsk)). cbn [negb].
  rewrite (bind_Val _ _ _ _ _ (recv_Val _ (set_device wk devk1) _ _ Hrk)).
  assert (Htr' : truthy (Some response) = true).
  { destruct response; [discriminate Hfirst | reflexivity]. }
  rewrite Htr'. cbn [negb response_bytes].
  unfold lift at 1. unfold bind at 1. rewrite Hfirst.
  reflexivity.
Qed.

Lemma uhf_inventory_fault_aborts_witness :
  fst (uhf_inventory 7 faulty_tag_world) = 4 /\
  take 6 (pData (snd (uhf_inventory 7 faulty_tag_world)))
  = [5; 17; 48; 55; 65; 48] /\
  dataLen (snd (uhf_inventory 7 faulty_tag_world)) = [9; 9].
Proof.
  set (d1 := snd (send_command (usb_device faulty_tag_world) [3; 2; 85; 128])).
  set (d2 := snd (read_response d1 2000)).
  set (wk := snd (for_loop_st (inventory_round [3; 2; 85; 145]) 0 1 0
                    (after_count faulty_tag_world d2 2))).
  set (dk1 := snd (send_command (usb_device wk) [3; 2; 85; 145])).
  set (dk2 := snd (read_response dk1 2000)).
  destruct (uhf_inventory_fault_aborts 7 faulty_tag_world d1 d2 [4; 2; 85; 0; 2] 2
              1 6 wk dk1 dk2 [4; 160; 1; 2; 3; 6; 0; 99])
    as (Hret & Hp & Hd).
  - reflexivity.
  - reflexivity.
  - reflexivity.
  - unfold len. simpl. lia.
  - reflexivity.
  - unfold len. simpl. lia.
  - lia.
  - vm_compute. reflexivity.
  - reflexivity.
  - reflexivity.
  - reflexivity.
  - rewrite Hret. cbn [fst snd]. split; [reflexivity|].
    split; [rewrite Hp; reflexivity | rewrite Hd; reflexivity].
Defined.

(** *** A response too short to index *)

Lemma getitem_out_of_range l i : len l <= i -> getitem l i = Raise IndexError.
Proof.
  intros Hi. pose proof (len_nonneg l). unfold getitem.
  destruct (Z.ltb_spec i 0); [lia|].
  destruct (Z.ltb_spec i 0); [lia|].
  destruct (Z.leb_spec (len l) i); [reflexivity | lia].
Qed.

(** A per-tag response that passes the two marker checks but has no byte
    at index 5 makes the round raise [IndexError]; nothing is stored. *)
Lemma inventory_round_short command i current_offset w dev1 dev2 response first :
  send_command (usb_device w) command = (Val true, dev1) ->
  read_response dev1 2000 = (Val (Some response), dev2) ->
  getitem response 0 = Val first -> first <> 4 ->
  getitem response 1 = Val 160 ->
  len response <= 5 ->
  inventory_round command i current_offset w
  = (Raise IndexError, set_device w dev2).
Proof.
  intros Hsend Hrecv H0 Hne H1 Hshort. unfold inventory_round.
  rewrite (bind_Val _ _ _ _ _ (send_Val _ _ _ _ Hsend)). cbn [negb].
  rewrite (bind_Val _ _ _ _ _ (recv_Val _ (set_device w dev1) _ _ Hrecv)).
  assert (Htr : truthy (Some response) = true).
  { destruct response; [discriminate H0 | reflexivity]. }
  rewrite Htr. cbn [negb response_bytes].
  unfold lift at 1. unfold bind at 1. rewrite H0.
  destruct (Z.eqb_spec first 4); [contradiction|].
  unfold lift at 1. unfold bind at 1. rewrite H1. cbn [Z.eqb Pos.eqb negb].
  unfold lift at 1. unfold bind at 1.
  rewrite (getitem_out_of_range response 5 Hshort). reflexivity.
Qed.

(** C10: there is a non-empty per-tag response of length 2, with a first
    byte other than 4 and the second byte 160, for which [response[5]] is
    out of range: the [try] block of [uhf_inventory] raises [IndexError]
    and the call returns -13, not -6 and not 160. *)
Theorem uhf_inventory_short_response :
  exists (response : list Z) (dev : option Device),
    response <> [] /\ len response = 2 /\
    getitem response 0 = Val 1 /\ 1 <> 4 /\
    getitem response 1 = Val 160 /\
    getitem response 5 = Raise IndexError /\
    dev = snd (send_command
                 (snd (read_response
                         (snd (send_command (usb_device short_tag_world)
                                 [3; 2; 85; 128])) 2000))
                 [3; 2; 85; 145]) /\
    fst (read_response dev 2000) = Val (Some response) /\
    fst (uhf_inventory_body short_tag_world) = Raise IndexError /\
    fst (uhf_inventory 7 short_tag_world) = -13 /\
    fst (uhf_inventory 7 short_tag_world) <> -6 /\
    fst (uhf_inventory 7 short_tag_world) <> 160.
Proof.
  exists [1; 160]. eexists.
  split; [discriminate|]. split; [reflexivity|]. split; [reflexivity|].
  split; [lia|]. split; [reflexivity|]. split; [reflexivity|].
  split; [reflexivity|]. split; [reflexivity|]. split; [reflexivity|].
  split; [reflexivity|]. split; vm_compute; discriminate.
Qed.

(** ** Frame transport: receiving *)

Lemma device_read_event d ev rest c :
  reads d = ev :: rest -> delivers ev = Val c ->
  device_read d = (Val (take 64 c), after_read d ev rest).
Proof. intros Hr Hc. unfold device_read. rewrite Hr, Hc. reflexivity. Qed.

Lemma getitem_first l v : l !! 0%nat = Some v -> getitem l 0 = Val v.
Proof. intros H. apply (getitem_lookup l 0 v H). Qed.

Lemma read_loop_gathers start_time timeout (pre : list read_event) :
  forall fuel d response ev rest c,
    reads d = pre ++ ev :: rest ->
    all_continue start_time timeout (now d) pre ->
    delivers ev = Val c ->
    stopping start_time timeout (elapsed (now d) (pre ++ [ev])) (take 64 c) ->
    (length pre < fuel)%nat ->
    read_loop fuel timeout start_time response d
    = (Val (response ++ chunks_of pre ++ take 64 c),
       {| handle := handle d; now := elapsed (now d) (pre ++ [ev]);
          reads := rest; writes := writes d; sent := sent d |}).
Proof.
  induction pre as [|e pre IH]; intros fuel d response ev rest c Hr Hall Hc Hstop Hfuel.
  - destruct fuel as [|fuel]; [simpl in Hfuel; lia|].
    cbn [read_loop]. rewrite (device_read_event d ev rest c Hr Hc).
    destruct Hstop as (first & Hfirst & Hwhy). cbn [app elapsed fold_left] in Hwhy.
    rewrite (getitem_first _ _ Hfirst). cbn [after_read now].
    destruct Hwhy as [Hne | [Hto | Hlen]].
    + destruct (Z.eqb_spec first 63); [contradiction|]. reflexivity.
    + rewrite Hto, orb_true_r. reflexivity.
    + destruct (_ || _); [reflexivity|].
      destruct (Z.ltb_spec (len (take 64 c)) 64); [reflexivity | lia].
  - destruct fuel as [|fuel]; [simpl in Hfuel; lia|].
    destruct Hall as [(c0 & Hc0 & Hfirst & Hto & Hlen) Hall].
    cbn [read_loop]. rewrite (device_read_event d e (pre ++ ev :: rest) c0 Hr Hc0).
    rewrite (getitem_first _ _ Hfirst). cbn [after_read now Z.eqb Pos.eqb negb orb].
    rewrite Hto. destruct (Z.ltb_spec (len (take 64 c0)) 64); [lia|].
    rewrite (IH fuel _ _ ev rest c); try assumption; try reflexivity.
    + cbn [chunks_of]. rewrite Hc0, <- !app_assoc. reflexivity.
    + simpl in Hfuel. lia.
Qed.

(** What holds of C4: when the script hands over full chunks starting with
    [0x3F] within the timeout and then a non-empty chunk that starts
    otherwise, or is short, or comes after the timeout, [read_response]
    reads exactly these chunks and returns them joined in read order. *)
Lemma read_response_gathers d timeout pre ev rest c :
  reads d = pre ++ ev :: rest ->
  all_continue (now d) timeout (now d) pre ->
  delivers ev = Val c ->
  stopping (now d) timeout (elapsed (now d) (pre ++ [ev])) (take 64 c) ->
  read_response (Some d) timeout
  = (Val (Some (chunks_of pre ++ take 64 c)),
     Some {| handle := handle d; now := elapsed (now d) (pre ++ [ev]);
             reads := rest; writes := writes d; sent := sent d |}).
Proof.
  intros Hr Hall Hc Hstop. unfold read_response.
  rewrite (read_loop_gathers (now d) timeout pre _ d [] ev rest c Hr Hall Hc Hstop).
  2:{ rewrite Hr, length_app. simpl. lia. }
  cbn [app].
  assert (Hne : (len (chunks_of pre ++ take 64 c) =? 0) = false).
  { destruct Hstop as (first & Hfirst & _). apply Z.eqb_neq.
    unfold len. rewrite length_app.
    apply lookup_lt_Some in Hfirst. lia. }
  rewrite Hne. reflexivity.
Qed.

(** A read that times out before any byte has come gives "no response". *)
Lemma read_response_timeout d timeout :
  reads d = [] -> read_response (Some d) timeout = (Val None, Some d).
Proof.
  intros Hr. unfold read_response. rewrite Hr. cbn [length read_loop].
  unfold device_read. rewrite Hr. reflexivity.
Qed.

(** C4, where the code departs from it: the only read hands over zero
    bytes, so zero bytes in total were received, and [read_response] raises
    [IndexError] at [chunk_bytes[0]] instead of returning [None]; the
    [len(response) == 0] test after the loop is never reached.  A caller
    such as [uhf_read] then returns -13 where "no response" gives -6. *)
Theorem read_response_empty_chunk_raises :
  fst (device_read empty_packet_device) = Val [] /\
  fst (read_response (Some empty_packet_device) 2000) = Raise IndexError /\
  fst (read_response (Some empty_packet_device) 2000) <> Val None /\
  fst (uhf_read 7 1 0 8 empty_packet_world) = -13.
Proof. repeat split. discriminate. Qed.

(** ** The length prefix of command frames *)

Lemma setitem_len l i v l' : setitem l i v = Val l' -> len l' = len l.
Proof.
  unfold setitem. destruct (negb (is_byteb v)); [discriminate|].
  destruct (_ || _); [discriminate|]. intros [= <-].
  unfold len. rewrite length_insert. reflexivity.
Qed.

Lemma setslice_len l a b v :
  0 <= a <= b -> b <= len l ->
  len (setslice l a b v) = len l - (b - a) + len v.
Proof.
  intros Ha Hb. unfold setslice.
  rewrite !clip_in_range by lia. rewrite Z.max_r by lia.
  unfold len in *. rewrite !length_app, length_take, length_drop. lia.
Qed.

Lemma slice_to_len l b : 0 <= b <= len l -> len (slice_to l b) = b.
Proof.
  intros Hb. unfold slice_to. rewrite slice_take_drop by lia.
  change (Z.to_nat 0) with 0%nat. rewrite drop_0.
  unfold len in *. rewrite length_take. lia.
Qed.

Lemma slice_to_first l b : 0 < b <= len l -> slice_to l b !! 0%nat = l !! 0%nat.
Proof.
  intros Hb. unfold slice_to. rewrite slice_take_drop by lia.
  change (Z.to_nat 0) with 0%nat. rewrite drop_0. apply lookup_take_lt. lia.
Qed.

Lemma setitem_first l v l' :
  setitem l 0 v = Val l' -> l' !! 0%nat = Some v /\ is_byte v.
Proof.
  intros H. apply setitem_Val in H as (-> & Hlt & Hb); [|lia].
  split; [|exact Hb]. apply list_lookup_insert_eq. unfold len in Hlt. lia.
Qed.

Lemma password_command_frame AccessPassword command :
  len AccessPassword = 8 ->
  password_command AccessPassword = Val command -> length_prefixed command.
Proof.
  intros Hlen.
  destruct AccessPassword as [|a0 [|a1 [|a2 [|a3 [|a4 [|a5 [|a6 [|a7 [|a8 l]]]]]]]]];
    try (exfalso; unfold len in Hlen; simpl in Hlen; lia).
  intros [= <-]. reflexivity.
Qed.

Lemma lock_command_frame lockSetting command :
  len lockSetting = 6 ->
  lock_command lockSetting = Val command -> length_prefixed command.
Proof.
  intros Hlen.
  destruct lockSetting as [|a0 [|a1 [|a2 [|a3 [|a4 [|a5 [|a6 l]]]]]]];
    try (exfalso; unfold len in Hlen; simpl in Hlen; lia).
  intros [= <-]. reflexivity.
Qed.

Lemma action_command_frame action time command :
  bytearray_of [4; 2; 145; action; time] = Val command -> length_prefixed command.
Proof.
  unfold bytearray_of. destruct (forallb _ _); [|discriminate].
  intros [= <-]. reflexivity.
Qed.

Lemma inventory_command_frames :
  bytearray_of [3; 2; 85; 128] = Val [3; 2; 85; 128] /\
  length_prefixed [3; 2; 85; 128] /\
  setitem [3; 2; 85; 128] 3 145 = Val [3; 2; 85; 145] /\
  length_prefixed [3; 2; 85; 145].
Proof. repeat split. Qed.

Ltac len_steps H :=
  repeat (let Hs := fresh "Hs" in
          apply res_bind_Val_inv in H as (? & Hs & H);
          apply setitem_len in Hs).

(** When the caller's data holds the [wlen * 4] bytes the frame is to
    carry, the frame [uhf_write] builds carries its own length. *)
Lemma write_command_frame infoType address wlen data command :
  0 <= wlen -> wlen * 4 <= len data ->
  write_command infoType address wlen data = Val command ->
  length_prefixed command.
Proof.
  intros Hw Hdata. unfold write_command. intros H.
  apply res_bind_Val_inv in H as (c1 & Hs1 & H). apply setitem_len in Hs1.
  apply res_bind_Val_inv in H as (c2 & Hs2 & H). apply setitem_len in Hs2.
  apply res_bind_Val_inv in H as (c3 & Hs3 & H). apply setitem_len in Hs3.
  change (len (bytearray 256)) with 256 in Hs1.
  rewrite setslice_len in Hs2 by lia.
  change (len [65; 87]) with 2 in Hs2.
  apply res_bind_Val_inv in H as ([c cl] & Hbuilt & H). cbn [fst snd] in H.
  apply res_bind_Val_inv in H as (c' & Hset & H). injection H as <-.
  pose proof (setitem_len _ _ _ _ Hset) as Hlen'.
  apply setitem_first in Hset as [Hfirst Hbyte]. unfold is_byte in Hbyte.
  assert (Hpay : len (slice_to data (wlen * 4)) = wlen * 4)
    by (apply slice_to_len; lia).
  assert (Hc : len c = 256 /\ (cl = 11 + wlen * 4 \/ cl = 10 + wlen * 4)).
  { destruct (address >=? 16).
    - len_steps Hbuilt. injection Hbuilt as <- <-.
      split; [|left; reflexivity].
      rewrite setslice_len by lia. lia.
    - len_steps Hbuilt. injection Hbuilt as <- <-.
      split; [|right; reflexivity].
      rewrite setslice_len by lia. lia. }
  destruct Hc as [Hc Hcl]. unfold length_prefixed.
  rewrite slice_to_len by lia. rewrite slice_to_first by lia. exact Hfirst.
Qed.

(** C7, where the code departs from it: with fewer than [wlen * 4] bytes of
    data the slice assignment shortens the command buffer below
    [command_length]; the frame that [uhf_write] sends has 62 bytes and the
    prefix 253. *)
Theorem uhf_write_short_data_frame :
  exists frame,
    write_command 1 2 61 (pData short_data_world) = Val frame /\
    len frame = 62 /\ frame !! 0%nat = Some 253 /\
    ~ length_prefixed frame /\
    (exists d, usb_device (snd (uhf_write 7 1 2 61 short_data_world)) = Some d /\
               sent d = [frame]) /\
    fst (uhf_write 7 1 2 61 short_data_world) = 0.
Proof.
  eexists. split; [vm_compute; reflexivity|].
  split; [reflexivity|]. split; [reflexivity|].
  split; [intros H; vm_compute in H; discriminate H|].
  split; [|reflexivity].
  eexists. split; vm_compute; reflexivity.
Qed.

(** ** The loops of the frame transport end by themselves *)

(** The bound on the passes of [send_loop] is never met: any two bounds
    above the number of bytes still to send give the same run. *)
Lemma send_loop_fuel data (fuel1 : nat) :
  forall (fuel2 : nat) bytes_written d,
    (Z.to_nat (len data - bytes_written) < fuel1)%nat ->
    (Z.to_nat (len data - bytes_written) < fuel2)%nat ->
    send_loop fuel1 data bytes_written d = send_loop fuel2 data bytes_written d.
Proof.
  induction fuel1 as [|fuel1 IH]; intros fuel2 bw d H1 H2; [lia|].
  destruct fuel2 as [|fuel2]; [lia|]. cbn [send_loop].
  destruct (Z.ltb_spec bw (len data)); [|reflexivity].
  destruct (device_write d _) as [[written|e] d']; [|reflexivity].
  apply IH; lia.
Qed.

(** The bound on the passes of [read_loop] is never met: any two bounds
    above the number of scripted reads give the same run. *)
Lemma read_loop_fuel timeout start_time (fuel1 : nat) :
  forall (fuel2 : nat) response d,
    (length (reads d) < fuel1)%nat -> (length (reads d) < fuel2)%nat ->
    read_loop fuel1 timeout start_time response d
    = read_loop fuel2 timeout start_time response d.
Proof.
  induction fuel1 as [|fuel1 IH]; intros fuel2 response d H1 H2; [lia|].
  destruct fuel2 as [|fuel2]; [lia|]. cbn [read_loop]. unfold device_read.
  destruct (reads d) as [|ev rest] eqn:Hr; [reflexivity|].
  destruct (delivers ev) as [c|e]; [|reflexivity].
  destruct (getitem (take 64 c) 0) as [first|e]; [|reflexivity].
  destruct (_ || _); [reflexivity|].
  destruct (_ <? _); [reflexivity|].
  apply IH; cbn [reads]; simpl in H1, H2; lia.
Qed.

(** An empty byte string is no frame; nothing is written for it. *)
Lemma send_command_empty d : send_command (Some d) [] = (Val true, Some d).
Proof. reflexivity. Qed.

(** * Further properties of the codec *)

(** X1: [binaryToHex(source, n)] with [0 < n <= len(source)] encodes the
    first [n] bytes of the source and nothing else: the result is the
    [2 n] characters of [hex_pairs] of that prefix. *)
Theorem binaryToHex_prefix (source : list Z) (n : Z) :
  Forall is_byte source -> 0 < n <= len source ->
  exists enc,
    binaryToHex source n = Val (Some enc) /\
    enc = hex_pairs (take (Z.to_nat n) source) /\
    len enc = 2 * n.
Proof.
  intros Hb Hn. eexists. split; [apply binaryToHex_take; assumption|].
  split; [reflexivity|].
  unfold len in *. rewrite hex_pairs_length, length_take. lia.
Qed.

Lemma binaryToHex_prefix_witness :
  exists enc, binaryToHex [7; 160; 0; 9] 2 = Val (Some enc) /\
              enc = hex_pairs (take (Z.to_nat 2) [7; 160; 0; 9]) /\ len enc = 2 * 2.
Proof.
  apply binaryToHex_prefix.
  - repeat constructor; unfold is_byte; lia.
  - unfold len. simpl. lia.
Defined.

Lemma binaryToHex_loop_tail source (k : nat) :
  Forall is_byte source ->
  forall (i : nat) pre tail,
    length pre = (2 * i)%nat -> (i + k <= length source)%nat ->
    for_loop (binaryToHex_body source) (Z.of_nat i) k
      (pre ++ replicate (2 * k) 0 ++ tail)
    = Val (Next (pre ++ hex_pairs (take k (drop i source)) ++ tail)).
Proof.
  intros Hb. induction k as [|k IH]; intros i pre tail Hpre Hik.
  - reflexivity.
  - destruct (lookup_lt_is_Some_2 source i) as [v Hv]; [lia|].
    assert (Hbv : is_byte v) by (eapply Forall_lookup_1; eauto).
    rewrite (drop_S _ _ _ Hv).
    replace (2 * S k)%nat with (S (S (2 * k))) by lia.
    cbn [for_loop replicate app].
    rewrite (binaryToHex_body_step _ _ _ _ _ Hv Hbv Hpre).
    replace (Z.of_nat i + 1) with (Z.of_nat (S i)) by lia.
    specialize (IH (S i) (pre ++ [toHexChar (Z.shiftr v 4); toHexChar (Z.land v 15)]) tail).
    rewrite <- !app_assoc in IH. cbn [app] in IH. rewrite IH.
    + cbn [take hex_pairs flat_map app]. reflexivity.
    + rewrite length_app. simpl. lia.
    + lia.
Qed.

Lemma for_loop_app {A R} (body : Z -> A -> res (ctl A R)) (k m : nat) :
  forall i a a',
    for_loop body i k a = Val (Next a') ->
    for_loop body i (k + m) a = for_loop body (i + Z.of_nat k) m a'.
Proof.
  induction k as [|k IH]; intros i a a' H.
  - injection H as <-. rewrite Z.add_0_r. reflexivity.
  - cbn [for_loop Nat.add] in *.
    destruct (body i a) as [[a1|x]|e]; try discriminate.
    rewrite (IH _ _ _ H). f_equal. lia.
Qed.

(** X2: [binaryToHex] has no bound check of its own: asked for more bytes
    than a (non-empty) source holds, it raises [IndexError]; asked for
    none or fewer, or given an empty source, it returns [None]. *)
Theorem binaryToHex_out_of_range (source : list Z) (n : Z) :
  (Forall is_byte source -> source <> [] -> len source < n ->
   binaryToHex source n = Raise IndexError) /\
  (n <= 0 \/ source = [] -> binaryToHex source n = Val None).
Proof.
  split.
  - intros Hb Hne Hn. pose proof (len_nonneg source) as Hlen. unfold binaryToHex.
    destruct (Z.leb_spec n 0); [lia|]. cbn [orb].
    rewrite bool_decide_eq_false_2 by exact Hne.
    unfold for_range, bytearray. unfold len in *.
    replace (Z.to_nat n) with (length source + S (Z.to_nat n - length source - 1))%nat by lia.
    replace (Z.to_nat (n * 2))
      with (2 * length source + 2 * (Z.to_nat n - length source))%nat by lia.
    rewrite replicate_add.
    pose proof (binaryToHex_loop_tail source (length source) Hb 0 []
                  (replicate (2 * (Z.to_nat n - length source)) 0) eq_refl) as Hloop.
    cbn [app] in Hloop. change (Z.of_nat 0) with 0 in Hloop.
    rewrite (for_loop_app _ _ _ _ _ _ (Hloop ltac:(lia))).
    cbn [for_loop]. unfold binaryToHex_body at 1.
    rewrite getitem_out_of_range by (unfold len; lia). reflexivity.
  - intros [Hn | ->]; unfold binaryToHex.
    + destruct (Z.leb_spec n 0); [reflexivity | lia].
    + rewrite orb_true_r. reflexivity.
Qed.

Lemma binaryToHex_out_of_range_witness :
  binaryToHex [1; 160] 4 = Raise IndexError /\ binaryToHex [1; 160] 0 = Val None.
Proof.
  split.
  - apply (proj1 (binaryToHex_out_of_range [1; 160] 4)).
    + repeat constructor; unfold is_byte; lia.
    + discriminate.
    + unfold len. simpl. lia.
  - apply (proj2 (binaryToHex_out_of_range [1; 160] 0)). left. lia.
Defined.

Lemma unhex_app n : forall s out extra,
  unhex n s = Some out -> unhex n (s ++ extra) = Some out.
Proof.
  induction n as [|n IH]; intros s out extra H; [exact H|].
  destruct s as [|high [|low rest]]; try discriminate. cbn [unhex app] in *.
  destruct (hex_value high) as [h|]; [|discriminate].
  destruct (hex_value low) as [l|]; [|discriminate].
  destruct (unhex n rest) as [out'|] eqn:Eo; [|discriminate].
  rewrite (IH _ _ extra Eo). exact H.
Qed.

Lemma hex_value_to_lower c : hex_value (to_lower c) = hex_value c.
Proof.
  unfold to_lower.
  destruct ((65 <=? c) && (c <=? 70)) eqn:E; [|reflexivity].
  apply andb_true_iff in E as [H1 H2].
  assert (Hc : c = 65 \/ c = 66 \/ c = 67 \/ c = 68 \/ c = 69 \/ c = 70) by lia.
  repeat (destruct Hc as [-> | Hc]; [reflexivity|]). subst. reflexivity.
Qed.

Lemma unhex_to_lower n : forall s, unhex n (map to_lower s) = unhex n s.
Proof.
  induction n as [|n IH]; intros s; [reflexivity|].
  destruct s as [|high [|low rest]]; try reflexivity. cbn [unhex map].
  rewrite !hex_value_to_lower, IH. reflexivity.
Qed.

(** X3: decoding reads exactly [2 n] characters and does not mind their
    case: the encoding of a non-empty byte sequence [b], with its letters
    put in lower case and with anything appended to it, still decodes to
    [b]. *)
Theorem asciiToHex_lenient (b extra : list Z) :
  b <> [] -> Forall is_byte b ->
  asciiToHex (hex_pairs b ++ extra) (len b) = Val (Some b) /\
  asciiToHex (map to_lower (hex_pairs b) ++ extra) (len b) = Val (Some b).
Proof.
  intros Hne Hb.
  assert (Hpos : 0 < len b) by (destruct b; [congruence | unfold len; simpl; lia]).
  rewrite !asciiToHex_unhex by exact Hpos. unfold len. rewrite Nat2Z.id.
  split; f_equal; apply unhex_app.
  - apply unhex_hex_pairs, Hb.
  - rewrite unhex_to_lower. apply unhex_hex_pairs, Hb.
Qed.

Lemma asciiToHex_lenient_witness :
  asciiToHex (hex_pairs [171; 7] ++ [0; 1]) 2 = Val (Some [171; 7]) /\
  asciiToHex (map to_lower (hex_pairs [171; 7]) ++ [0; 1]) 2 = Val (Some [171; 7]).
Proof.
  apply (asciiToHex_lenient [171; 7] [0; 1]).
  - discriminate.
  - repeat constructor; unfold is_byte; lia.
Defined.

(** * Further properties of the frame transport *)

Lemma send_loop_unfold fuel data (k : nat) d :
  (64 * k < length data)%nat ->
  send_loop (S fuel) data (Z.of_nat (64 * k)) d
  = match device_write d (marked_chunk data k) with
    | (Val written, d') => send_loop fuel data (Z.of_nat (64 * (k + 1))) d'
    | (Raise (USBError errno), d') => (Val false, d')
    | (Raise e, d') => (Raise e, d')
    end.
Proof.
  intros Hk. cbn [send_loop].
  destruct (Z.ltb_spec (Z.of_nat (64 * k)) (len data)); [|unfold len in *; lia].
  rewrite slice_take_drop by (unfold len; lia).
  replace (Z.to_nat (Z.of_nat (64 * k) + 64 - Z.of_nat (64 * k))) with 64%nat by lia.
  rewrite Nat2Z.id, slice_from_1.
  set (chunk := if (len data >? 64) && _ then _ else _).
  assert (Hchunk : chunk = marked_chunk data k).
  { unfold chunk, marked_chunk, len.
    destruct (Z.gtb_spec (Z.of_nat (length data)) 64);
      destruct (Nat.ltb_spec 64 (length data)); try lia; [|reflexivity].
    destruct (Z.ltb_spec (Z.of_nat (64 * k) + 64) (Z.of_nat (length data)));
      destruct (Nat.ltb_spec (64 * (k + 1)) (length data)); try lia; reflexivity. }
  rewrite Hchunk.
  replace (Z.of_nat (64 * k) + 64) with (Z.of_nat (64 * (k + 1))) by lia.
  reflexivity.
Qed.

Lemma send_loop_aborts data (ns : list Z) :
  forall (j fuel : nat) d e rest,
    writes d = map Val ns ++ Raise e :: rest ->
    (64 * (j + length ns) < length data)%nat ->
    (length ns < fuel)%nat ->
    send_loop fuel data (Z.of_nat (64 * j)) d
    = (match e with USBError _ => Val false | _ => Raise e end,
       {| handle := handle d; now := now d; reads := reads d; writes := rest;
          sent := sent d ++ map (marked_chunk data) (seq j (length ns)) |}).
Proof.
  induction ns as [|n ns IH]; intros j fuel d e rest Hw Hlen Hfuel.
  - destruct fuel as [|fuel]; [simpl in Hfuel; lia|].
    simpl in Hlen. rewrite send_loop_unfold by lia.
    unfold device_write. rewrite Hw. cbn [map app length seq].
    rewrite app_nil_r. destruct e; reflexivity.
  - destruct fuel as [|fuel]; [simpl in Hfuel; lia|].
    simpl in Hlen, Hfuel. rewrite send_loop_unfold by lia.
    unfold device_write. rewrite Hw. cbn [map app].
    replace (j + 1)%nat with (S j) by lia.
    rewrite (IH (S j) fuel _ e rest); [| reflexivity | simpl; lia | lia].
    cbn [handle now reads sent length seq map]. rewrite <- app_assoc. reflexivity.
Qed.

(** X4: [send_command] gives up at the first write that fails: when the
    channel takes [k] chunks and raises on the next one, the [k] chunks
    stay sent, no later chunk is written and nothing is retried; the
    answer is [False] for a [USBError], and any other exception goes on to
    the caller. *)
Theorem send_command_aborts (d : Device) (frame : list Z) (ns : list Z)
    (e : exn) (rest : list (res Z)) :
  writes d = map Val ns ++ Raise e :: rest ->
  (64 * length ns < length frame)%nat ->
  send_command (Some d) frame
  = (match e with USBError _ => Val false | _ => Raise e end,
     Some {| handle := handle d; now := now d; reads := reads d; writes := rest;
             sent := sent d ++ map (marked_chunk frame) (seq 0 (length ns)) |}).
Proof.
  intros Hw Hlen. unfold send_command.
  pose proof (send_loop_aborts frame ns 0 (S (length frame)) d e rest Hw) as H.
  change (Z.of_nat (64 * 0)) with 0 in H. rewrite H; [reflexivity | | ]; simpl; lia.
Qed.

Lemma send_command_aborts_witness :
  send_command
    (Some {| handle := 1; now := 0%Q; reads := [];
             writes := [Val 64; Raise (USBError 19); Val 64]; sent := [] |})
    (replicate 130 7)
  = (Val false,
     Some {| handle := 1; now := 0%Q; reads := []; writes := [Val 64];
             sent := [] ++ map (marked_chunk (replicate 130 7)) (seq 0 1) |}).
Proof.
  apply (send_command_aborts
           {| handle := 1; now := 0%Q; reads := [];
              writes := [Val 64; Raise (USBError 19); Val 64]; sent := [] |}
           (replicate 130 7) [64] (USBError 19) [Val 64]).
  - reflexivity.
  - simpl. lia.
Defined.

(** X5: the stop rule of [read_response].  When the script hands over full
    chunks that start with [0x3F] within the timeout, and then a non-empty
    chunk that starts otherwise, or is shorter than 64 bytes, or comes
    after the timeout, exactly these chunks are read and the answer is their
    concatenation in read order; the rest of the script stays unread. *)
Theorem read_response_stop_rule (d : Device) (timeout : Z)
    (pre : list read_event) (ev : read_event) (rest : list read_event)
    (c : list Z) :
  reads d = pre ++ ev :: rest ->
  all_continue (now d) timeout (now d) pre ->
  delivers ev = Val c ->
  stopping (now d) timeout (elapsed (now d) (pre ++ [ev])) (take 64 c) ->
  exists d',
    read_response (Some d) timeout
    = (Val (Some (chunks_of pre ++ take 64 c)), Some d') /\
    reads d' = rest /\ sent d' = sent d /\ writes d' = writes d.
Proof.
  intros Hr Hall Hc Hstop. eexists.
  split; [apply (read_response_gathers d timeout pre ev rest c); assumption|].
  repeat split.
Qed.

Lemma read_response_stop_rule_witness :
  exists d',
    read_response
      (Some {| handle := 1; now := 0%Q;
               reads := [ {| took := (1 # 10)%Q; delivers := Val (replicate 64 63) |};
                          {| took := (1 # 10)%Q; delivers := Val [63; 1; 2] |};
                          {| took := (1 # 10)%Q; delivers := Val [9] |} ];
               writes := []; sent := [] |}) 2000
    = (Val (Some (replicate 64 63 ++ [63; 1; 2])), Some d') /\
    reads d' = [ {| took := (1 # 10)%Q; delivers := Val [9] |} ].
Proof.
  destruct (read_response_stop_rule
              {| handle := 1; now := 0%Q;
                 reads := [ {| took := (1 # 10)%Q; delivers := Val (replicate 64 63) |};
                            {| took := (1 # 10)%Q; delivers := Val [63; 1; 2] |};
                            {| took := (1 # 10)%Q; delivers := Val [9] |} ];
                 writes := []; sent := [] |} 2000
              [ {| took := (1 # 10)%Q; delivers := Val (replicate 64 63) |} ]
              {| took := (1 # 10)%Q; delivers := Val [63; 1; 2] |}
              [ {| took := (1 # 10)%Q; delivers := Val [9] |} ]
              [63; 1; 2]) as (d' & H1 & H2 & _).
  - reflexivity.
  - split; [|exact I]. eexists. split; [reflexivity|].
    split; [reflexivity|]. split; reflexivity.
  - reflexivity.
  - exists 63. split; [reflexivity|]. right. right. unfold len. simpl. lia.
  - exists d'. split; [exact H1 | exact H2].
Defined.

Lemma read_loop_prefix start_time timeout (pre : list read_event) :
  forall fuel d response rest,
    reads d = pre ++ rest ->
    all_continue start_time timeout (now d) pre ->
    read_loop (length pre + fuel) timeout start_time response d
    = read_loop fuel timeout start_time (response ++ chunks_of pre)
        {| handle := handle d; now := elapsed (now d) pre; reads := rest;
           writes := writes d; sent := sent d |}.
Proof.
  induction pre as [|e pre IH]; intros fuel d response rest Hr Hall.
  - cbn [length Nat.add chunks_of elapsed fold_left]. rewrite app_nil_r.
    simpl in Hr. rewrite <- Hr. destruct d; reflexivity.
  - destruct Hall as [(c0 & Hc0 & Hfirst & Hto & Hlen) Hall].
    cbn [length Nat.add read_loop].
    rewrite (device_read_event d e (pre ++ rest) c0 Hr Hc0).
    rewrite (getitem_first _ _ Hfirst). cbn [after_read now Z.eqb Pos.eqb negb orb].
    rewrite Hto. destruct (Z.ltb_spec (len (take 64 c0)) 64); [lia|].
    rewrite (IH fuel _ _ rest); [| reflexivity | exact Hall].
    cbn [chunks_of]. rewrite Hc0, <- !app_assoc. reflexivity.
Qed.

(** X6: a [USBError] in the middle of a response throws away what has
    been read.  When full continuation chunks have come in and the next
    read raises [USBError] (a timeout or any other errno), or the script is
    used up, [read_response] returns [None], not the bytes received. *)
Theorem read_response_drops_partial (d : Device) (timeout : Z)
    (pre rest : list read_event) (ev : read_event) (errno : Z) :
  all_continue (now d) timeout (now d) pre ->
  (reads d = pre ++ ev :: rest -> delivers ev = Raise (USBError errno) ->
   fst (read_response (Some d) timeout) = Val None) /\
  (reads d = pre -> fst (read_response (Some d) timeout) = Val None).
Proof.
  intros Hall. split.
  - intros Hr He. unfold read_response.
    replace (S (length (reads d))) with (length pre + S (S (length rest)))%nat
      by (rewrite Hr, length_app; simpl; lia).
    rewrite (read_loop_prefix _ _ pre _ d [] (ev :: rest) Hr Hall).
    cbn [read_loop]. unfold device_read. cbn [reads]. rewrite He. reflexivity.
  - intros Hr. unfold read_response.
    replace (S (length (reads d))) with (length pre + 1)%nat by (rewrite Hr; lia).
    rewrite (read_loop_prefix _ _ pre _ d [] [] (eq_trans Hr (eq_sym (app_nil_r pre))) Hall).
    reflexivity.
Qed.

Lemma read_response_drops_partial_witness :
  fst (read_response
         (Some {| handle := 1; now := 0%Q;
                  reads := [ {| took := (1 # 10)%Q; delivers := Val (replicate 64 63) |};
                             {| took := 2%Q; delivers := Raise (USBError 110) |} ];
                  writes := []; sent := [] |}) 2000) = Val None.
Proof.
  apply (proj1 (read_response_drops_partial
                  {| handle := 1; now := 0%Q;
                     reads := [ {| took := (1 # 10)%Q; delivers := Val (replicate 64 63) |};
                                {| took := 2%Q; delivers := Raise (USBError 110) |} ];
                     writes := []; sent := [] |} 2000
                  [ {| took := (1 # 10)%Q; delivers := Val (replicate 64 63) |} ] []
                  {| took := 2%Q; delivers := Raise (USBError 110) |} 110
                  ltac:(split; [eexists; split; [reflexivity | repeat split] | exact I]))).
  - reflexivity.
  - reflexivity.
Defined.

(** * Further properties of the command frames *)

Lemma setitem_byte l i v :
  is_byte v -> 0 <= i < len l ->
  setitem l i v = Val (<[Z.to_nat i := v]> l).
Proof.
  intros Hv Hi. rewrite <- (Z2Nat.id i) at 1 by lia.
  apply setitem_insert; [exact Hv | unfold len in Hi; lia].
Qed.

Lemma length_digit_byte n : 0 <= n <= 200 -> is_byte (length_digit n).
Proof. unfold length_digit, is_byte. destruct (n >=? 10); lia. Qed.

Ltac setitem_steps :=
  repeat (rewrite setitem_byte;
          [cbn [res_bind] | assumption | split; [lia | vm_compute; reflexivity]]).

(** X7: the frame of [uhf_read].  With an [infoType] in 1-4 and a length of
    at most 200 words, an address below [0x10] gives the 9-byte frame with
    one address digit and an address from [0x10] to [0xFF] the 10-byte frame
    with two; both start with their own length minus one, the marker 2 and
    the mnemonic [AR]. *)
Theorem read_command_layout (infoType address rlen : Z) :
  1 <= infoType <= 4 -> 0 <= rlen <= 200 ->
  (0 <= address < 16 ->
   read_command infoType address rlen
   = Val [8; 2; 65; 82; infoType + 48; 44; toHexChar address; 44;
          length_digit rlen]) /\
  (16 <= address < 256 ->
   read_command infoType address rlen
   = Val [9; 2; 65; 82; infoType + 48; 44; toHexChar (Z.shiftr address 4);
          toHexChar (Z.land address 15); 44; length_digit rlen]).
Proof.
  intros Hi Hr.
  assert (Ha : is_byte (infoType + 48)) by (unfold is_byte; lia).
  assert (Hd : is_byte (length_digit rlen)) by (apply length_digit_byte, Hr).
  assert (H2 : is_byte 2) by (unfold is_byte; lia).
  assert (H44 : is_byte 44) by (unfold is_byte; lia).
  assert (H8 : is_byte 8) by (unfold is_byte; lia).
  assert (H9 : is_byte 9) by (unfold is_byte; lia).
  split; intros Haddr; unfold read_command.
  - destruct (Z.geb_spec address 16); [lia|].
    assert (Hc : is_byte (toHexChar address)) by (apply toHexChar_byte; lia).
    revert Ha Hd Hc.
    generalize (infoType + 48) (length_digit rlen) (toHexChar address).
    intros a dg c Ha Hd Hc. setitem_steps. reflexivity.
  - destruct (Z.geb_spec address 16); [|lia].
    assert (Hn : 0 <= Z.shiftr address 4 < 16 /\ 0 <= Z.land address 15 < 16)
      by (apply nibbles_range; unfold is_byte; lia).
    assert (Hc1 : is_byte (toHexChar (Z.shiftr address 4)))
      by (apply toHexChar_byte, Hn).
    assert (Hc2 : is_byte (toHexChar (Z.land address 15)))
      by (apply toHexChar_byte, Hn).
    revert Ha Hd Hc1 Hc2.
    generalize (infoType + 48) (length_digit rlen)
      (toHexChar (Z.shiftr address 4)) (toHexChar (Z.land address 15)).
    intros a dg c1 c2 Ha Hd Hc1 Hc2. setitem_steps. reflexivity.
Qed.

Lemma read_command_layout_witness :
  read_command 1 15 8 = Val [8; 2; 65; 82; 49; 44; 70; 44; 56] /\
  read_command 1 16 8 = Val [9; 2; 65; 82; 49; 44; 49; 48; 44; 56].
Proof.
  destruct (read_command_layout 1 15 8) as [Hlow _]; [lia | lia |].
  destruct (read_command_layout 1 16 8) as [_ Hhigh]; [lia | lia |].
  split; [apply Hlow | apply Hhigh]; lia.
Defined.
Lemma setslice_in_range l a b v :
  0 <= a <= b -> b <= len l ->
  setslice l a b v = take (Z.to_nat a) l ++ v ++ drop (Z.to_nat b) l.
Proof.
  intros Ha Hb. unfold setslice.
  rewrite !clip_in_range by lia. rewrite Z.max_r by lia. reflexivity.
Qed.

Lemma slice_to_take l b : 0 <= b -> slice_to l b = take (Z.to_nat b) l.
Proof.
  intros Hb. pose proof (len_nonneg l). unfold slice_to.
  rewrite slice_take_drop by lia.
  change (Z.to_nat 0) with 0%nat. rewrite drop_0, Z.sub_0_r. reflexivity.
Qed.

(** The last steps of [uhf_write]'s frame: the payload goes in behind a
    header of [h] bytes, the prefix is stored, and the frame is cut. *)
Lemma write_command_finish (header : list Z) (x : Z) (tail0 : list Z)
    (C : list Z) (wlen : Z) (data : list Z) :
  C = x :: tail0 -> len C = 256 ->
  0 <= wlen -> len header + wlen * 4 <= 256 -> wlen * 4 <= len data ->
  0 < len header -> take (Z.to_nat (len header)) C = header ->
  (let command := setslice C (len header) (len header + wlen * 4)
                    (slice_to data (wlen * 4)) in
   let command_length := len header + wlen * 4 in
   let* command := setitem command 0 (command_length - 1) in
   Val (slice_to command command_length))%py
  = Val (<[0%nat := len header + wlen * 4 - 1]> header
         ++ take (Z.to_nat (wlen * 4)) data).
Proof.
  intros HC HlenC Hw Hfit Hdata Hh Hhead. cbv zeta.
  pose proof (len_nonneg header).
  rewrite setslice_in_range by lia. rewrite Hhead.
  rewrite (slice_to_take data) by lia.
  set (payload := take (Z.to_nat (wlen * 4)) data).
  assert (Hpay : length payload = Z.to_nat (wlen * 4)).
  { unfold payload. rewrite length_take. unfold len in Hdata. lia. }
  rewrite setitem_byte.
  2:{ unfold is_byte. lia. }
  2:{ unfold len. rewrite length_app. unfold len in Hh. lia. }
  cbn [res_bind]. change (Z.to_nat 0) with 0%nat.
  rewrite slice_to_take by lia. f_equal.
  rewrite insert_app_l by (unfold len in Hh; lia).
  rewrite app_assoc. apply take_app_length'.
  rewrite length_app, length_insert, Hpay. unfold len. lia.
Qed.

Lemma write_command_low (infoType address wlen : Z) (data : list Z) :
  1 <= infoType <= 4 -> 0 <= wlen <= 61 -> wlen * 4 <= len data ->
  0 <= address < 16 ->
  write_command infoType address wlen data
  = Val ([9 + wlen * 4; 2; 65; 87; infoType + 48; 44; toHexChar address; 44;
          length_digit wlen; 44] ++ take (Z.to_nat (wlen * 4)) data).
Proof.
  intros Hi Hw Hdata Haddr.
  assert (Ha : is_byte (infoType + 48)) by (unfold is_byte; lia).
  assert (Hd : is_byte (length_digit wlen)) by (apply length_digit_byte; lia).
  assert (H2 : is_byte 2) by (unfold is_byte; lia).
  assert (H44 : is_byte 44) by (unfold is_byte; lia).
  unfold write_command.
  destruct (Z.geb_spec address 16); [lia|].
  assert (Hc : is_byte (toHexChar address)) by (apply toHexChar_byte; lia).
  revert Ha Hd Hc.
  generalize (infoType + 48) (length_digit wlen) (toHexChar address).
  intros a dg c Ha Hd Hc. setitem_steps. cbn [fst snd].
  match goal with
  | |- context [setslice ?C 10 _ _] =>
      pose proof (write_command_finish [0; 2; 65; 87; a; 44; c; 44; dg; 44]
                    0 (skipn 1 C) C wlen data) as Hfin
  end.
  change (len [0; 2; 65; 87; a; 44; c; 44; dg; 44]) with 10 in Hfin.
  cbv zeta in Hfin. rewrite Hfin; try lia; try (vm_compute; reflexivity).
  cbn [insert list_insert]. do 3 f_equal. lia.
Qed.

Lemma write_command_high (infoType address wlen : Z) (data : list Z) :
  1 <= infoType <= 4 -> 0 <= wlen <= 61 -> wlen * 4 <= len data ->
  16 <= address < 256 ->
  write_command infoType address wlen data
  = Val ([10 + wlen * 4; 2; 65; 87; infoType + 48; 44;
          toHexChar (Z.shiftr address 4); toHexChar (Z.land address 15); 44;
          length_digit wlen; 44] ++ take (Z.to_nat (wlen * 4)) data).
Proof.
  intros Hi Hw Hdata Haddr.
  assert (Ha : is_byte (infoType + 48)) by (unfold is_byte; lia).
  assert (Hd : is_byte (length_digit wlen)) by (apply length_digit_byte; lia).
  assert (H2 : is_byte 2) by (unfold is_byte; lia).
  assert (H44 : is_byte 44) by (unfold is_byte; lia).
  unfold write_command.
  destruct (Z.geb_spec address 16); [|lia].
  assert (Hn : 0 <= Z.shiftr address 4 < 16 /\ 0 <= Z.land address 15 < 16)
    by (apply nibbles_range; unfold is_byte; lia).
  assert (Hc1 : is_byte (toHexChar (Z.shiftr address 4)))
    by (apply toHexChar_byte, Hn).
  assert (Hc2 : is_byte (toHexChar (Z.land address 15)))
    by (apply toHexChar_byte, Hn).
  revert Ha Hd Hc1 Hc2.
  generalize (infoType + 48) (length_digit wlen)
    (toHexChar (Z.shiftr address 4)) (toHexChar (Z.land address 15)).
  intros a dg c1 c2 Ha Hd Hc1 Hc2. setitem_steps. cbn [fst snd].
  match goal with
  | |- context [setslice ?C 11 _ _] =>
      pose proof (write_command_finish [0; 2; 65; 87; a; 44; c1; c2; 44; dg; 44]
                    0 (skipn 1 C) C wlen data) as Hfin
  end.
  change (len [0; 2; 65; 87; a; 44; c1; c2; 44; dg; 44]) with 11 in Hfin.
  cbv zeta in Hfin. rewrite Hfin; try lia; try (vm_compute; reflexivity).
  cbn [insert list_insert]. do 3 f_equal. lia.
Qed.

(** Under the same conditions the frame starts with its length minus one. *)
Lemma write_command_prefixed (infoType address wlen : Z) (data frame : list Z) :
  1 <= infoType <= 4 -> 0 <= wlen <= 61 -> wlen * 4 <= len data ->
  0 <= address < 256 ->
  write_command infoType address wlen data = Val frame ->
  length_prefixed frame.
Proof.
  intros Hi Hw Hdata Haddr Hframe. pose proof (len_nonneg data).
  assert (Hpl : length (take (Z.to_nat (wlen * 4)) data) = Z.to_nat (wlen * 4))
    by (rewrite length_take; unfold len in Hdata; lia).
  destruct (Z.lt_ge_cases address 16) as [Hlt|Hge].
  - rewrite write_command_low in Hframe by lia. injection Hframe as <-.
    unfold length_prefixed, len. cbn [app lookup list_lookup length].
    rewrite Hpl. f_equal. lia.
  - rewrite write_command_high in Hframe by lia. injection Hframe as <-.
    unfold length_prefixed, len. cbn [app lookup list_lookup length].
    rewrite Hpl. f_equal. lia.
Qed.

(** X8: the frame of [uhf_write].  With an [infoType] in 1-4, at most 61
    words and data that holds the [wlen * 4] bytes, the frame is the header
    (10 bytes for an address below [0x10], 11 for one from [0x10] to [0xFF])
    followed by the first [wlen * 4] bytes of the data, and its first byte
    is its length minus one. *)
Theorem write_command_layout (infoType address wlen : Z) (data : list Z) :
  1 <= infoType <= 4 -> 0 <= wlen <= 61 -> wlen * 4 <= len data ->
  (0 <= address < 16 ->
   write_command infoType address wlen data
   = Val ([9 + wlen * 4; 2; 65; 87; infoType + 48; 44; toHexChar address; 44;
           length_digit wlen; 44] ++ take (Z.to_nat (wlen * 4)) data)) /\
  (16 <= address < 256 ->
   write_command infoType address wlen data
   = Val ([10 + wlen * 4; 2; 65; 87; infoType + 48; 44;
           toHexChar (Z.shiftr address 4); toHexChar (Z.land address 15); 44;
           length_digit wlen; 44] ++ take (Z.to_nat (wlen * 4)) data)) /\
  (0 <= address < 256 ->
   forall frame, write_command infoType address wlen data = Val frame ->
                 length_prefixed frame).
Proof.
  intros Hi Hw Hdata. split; [|split].
  - apply write_command_low; assumption.
  - apply write_command_high; assumption.
  - intros Haddr frame Hframe.
    eapply write_command_prefixed; eauto.
Qed.

Lemma write_command_layout_witness :
  write_command 1 2 6 (replicate 50 53)
  = Val ([9 + 6 * 4; 2; 65; 87; 1 + 48; 44; toHexChar 2; 44; length_digit 6; 44]
         ++ take (Z.to_nat (6 * 4)) (replicate 50 53)).
Proof.
  destruct (write_command_layout 1 2 6 (replicate 50 53)) as (Hlow & _ & _).
  - lia.
  - lia.
  - unfold len. simpl. lia.
  - apply Hlow. lia.
Defined.

(** * Further properties of the operations *)

Lemma write_command_Val_bound infoType address wlen data command :
  write_command infoType address wlen data = Val command -> -2 <= wlen <= 61.
Proof.
  unfold write_command. intros H.
  apply res_bind_Val_inv in H as (c1 & _ & H).
  apply res_bind_Val_inv in H as (c2 & _ & H).
  apply res_bind_Val_inv in H as (c3 & _ & H).
  apply res_bind_Val_inv in H as ([c cl] & Hbuilt & H). cbn [fst snd] in H.
  apply res_bind_Val_inv in H as (c' & Hset & _).
  apply setitem_Val in Hset as (_ & _ & Hbyte); [|lia]. unfold is_byte in Hbyte.
  destruct (address >=? 16).
  - repeat (apply res_bind_Val_inv in Hbuilt as (? & _ & Hbuilt)).
    injection Hbuilt as _ <-. lia.
  - repeat (apply res_bind_Val_inv in Hbuilt as (? & _ & Hbuilt)).
    injection Hbuilt as _ <-. lia.
Qed.

(** X9: a write of more than 61 words (or of fewer than -2) never reaches
    the channel: the length prefix of its frame does not fit a byte, the
    [try] block raises, and [uhf_write] returns -13 with the session
    untouched. *)
Theorem uhf_write_too_long (icdev infoType address wlen : Z) (w : World) :
  bad_handle (usb_device w) icdev = false ->
  valid_infoType infoType = true ->
  wlen < -2 \/ 61 < wlen ->
  uhf_write icdev infoType address wlen w = (-13, w).
Proof.
  intros Hh Hv Hw. unfold uhf_write. rewrite Hh, Hv. cbn [negb].
  unfold except_Exception, bind, lift.
  destruct (write_command infoType address wlen (pData w)) as [command|e] eqn:E.
  - apply write_command_Val_bound in E. lia.
  - reflexivity.
Qed.

Lemma uhf_write_too_long_witness :
  uhf_write 7 1 2 62 short_data_world = (-13, short_data_world).
Proof.
  apply uhf_write_too_long; [reflexivity | reflexivity | lia].
Defined.
Lemma read_loop_keeps fuel : forall timeout start_time response d r d',
  read_loop fuel timeout start_time response d = (r, d') ->
  sent d' = sent d /\ writes d' = writes d /\ handle d' = handle d.
Proof.
  induction fuel as [|fuel IH]; intros timeout start response d r d' H.
  - injection H as _ <-. repeat split.
  - cbn [read_loop] in H. unfold device_read in H.
    destruct (reads d) as [|ev rest]; [injection H as _ <-; repeat split|].
    destruct (delivers ev) as [c|e]; [|injection H as _ <-; repeat split].
    destruct (getitem (take 64 c) 0) as [first|e];
      [|injection H as _ <-; repeat split].
    destruct (_ || _); [injection H as _ <-; repeat split|].
    destruct (_ <? _); [injection H as _ <-; repeat split|].
    apply IH in H. exact H.
Qed.

(** Reading never writes: after [read_response] the device is still there
    and its log of chunks sent is what it was. *)
Lemma read_response_keeps d timeout :
  exists d', snd (read_response (Some d) timeout) = Some d' /\
             sent d' = sent d /\ writes d' = writes d /\ handle d' = handle d.
Proof.
  unfold read_response.
  destruct (read_loop _ timeout (now d) [] d) as [r d'] eqn:E.
  apply read_loop_keeps in E. exists d'.
  split; [|exact E]. destruct r as [response|[| | |errno|]]; reflexivity.
Qed.

(** A frame of at most 64 bytes goes out as it is, in one write. *)
Lemma send_single d frame :
  writes_ok d -> 0 < len frame <= 64 ->
  send_command (Some d) frame = (Val true, Some (after_writes d [frame])).
Proof.
  intros Hok [Hpos Hle]. unfold send_command, len in *.
  pose proof (send_loop_chunks frame 1 0 (S (length frame)) d Hok) as H.
  change (Z.of_nat (64 * 0)) with 0 in H. rewrite H; [|lia|lia|lia].
  cbn [seq map]. rewrite marked_chunk_short by lia. reflexivity.
Qed.

Lemma and_then_Val b c : and_then (Val b) (Val c) = Val (b && c).
Proof. destruct b; reflexivity. Qed.

Lemma item_eq_at l i x v :
  0 <= i -> l !! Z.to_nat i = Some x -> item_eq l i v = Val (x =? v).
Proof.
  intros Hi Hx. unfold item_eq. rewrite <- (Z2Nat.id i) by exact Hi.
  rewrite (getitem_lookup _ _ _ Hx). reflexivity.
Qed.

(** All the chunks of a non-empty frame go out when no write fails. *)
Lemma send_all d frame :
  writes_ok d -> frame <> [] ->
  send_command (Some d) frame
  = (Val true,
     Some (after_writes d
             (map (marked_chunk frame) (seq 0 ((length frame + 63) / 64))))).
Proof.
  intros Hok Hne. unfold send_command.
  destruct (chunk_count_bounds (length frame)) as (Hle & Hgt & Hn).
  pose proof (send_loop_chunks frame ((length frame + 63) / 64) 0
                (S (length frame)) d Hok) as H.
  change (Z.of_nat (64 * 0)) with 0 in H. rewrite H; [reflexivity | | |]; lia.
Qed.

(** The exchange every simple operation makes: send the frame, read the
    response, test it. *)
Lemma exchange_run (test : option (list Z) -> res bool)
    (ack : option (list Z) -> bool) command w dev :
  (forall response, test response = Val (ack response)) ->
  send_command (usb_device w) command = (Val true, dev) ->
  except_Exception
    (let! sent_ok := send command in
     if sent_ok then
       let! response := recv 2000 in
       let! good := lift (test response) in
       if good then ret 0 else ret (-6)
     else ret (-6))%py w
  = (answer ack (fst (read_response dev 2000)),
     set_device w (snd (read_response dev 2000))).
Proof.
  intros Htest Hsend. unfold except_Exception.
  erewrite bind_Val; [|apply send_Val, Hsend].
  unfold bind, recv. cbn [set_device usb_device].
  destruct (read_response dev 2000) as [[response|e] dev'];
    cbn [fst snd answer]; [|reflexivity].
  unfold lift. rewrite Htest. destruct (ack response); reflexivity.
Qed.

Lemma action_test_ack response :
  (Val (truthy response) <&&> Val (4 <=? len (response_bytes response))
   <&&> item_eq (response_bytes response) 0 3
   <&&> item_eq (response_bytes response) 1 2
   <&&> item_eq (response_bytes response) 2 145
   <&&> item_eq (response_bytes response) 3 0)%py
  = Val (action_ack response).
Proof.
  destruct response as [[|b0 [|b1 [|b2 [|b3 l]]]]|]; try reflexivity.
  cbn [response_bytes truthy action_ack].
  erewrite !item_eq_at by (lia || reflexivity).
  assert (Hlen : (4 <=? len (b0 :: b1 :: b2 :: b3 :: l)) = true)
    by (apply Z.leb_le; unfold len; simpl; lia).
  rewrite Hlen, !and_then_Val.
  destruct (b0 =? 3), (b1 =? 2), (b2 =? 145), (b3 =? 0); reflexivity.
Qed.

Lemma password_test_ack response :
  (Val (truthy response) <&&> Val (5 <=? len (response_bytes response))
   <&&> item_eq (response_bytes response) 0 4
   <&&> item_eq (response_bytes response) 1 2
   <&&> item_eq (response_bytes response) 2 65
   <&&> item_eq (response_bytes response) 3 0
   <&&> item_eq (response_bytes response) 4 80)%py
  = Val (password_ack response).
Proof.
  destruct response as [[|b0 [|b1 [|b2 [|b3 [|b4 l]]]]]|]; try reflexivity.
  cbn [response_bytes truthy password_ack].
  erewrite !item_eq_at by (lia || reflexivity).
  assert (Hlen : (5 <=? len (b0 :: b1 :: b2 :: b3 :: b4 :: l)) = true)
    by (apply Z.leb_le; unfold len; simpl; lia).
  rewrite Hlen, !and_then_Val.
  destruct (b0 =? 4), (b1 =? 2), (b2 =? 65), (b3 =? 0), (b4 =? 80); reflexivity.
Qed.

Lemma lock_test_ack response :
  (Val (truthy response) <&&> Val (8 <=? len (response_bytes response))
   <&&> item_eq (response_bytes response) 0 8
   <&&> item_eq (response_bytes response) 4 76
   <&&> item_eq (response_bytes response) 6 79
   <&&> item_eq (response_bytes response) 7 75)%py
  = Val (lock_ack response).
Proof.
  destruct response as [[|b0 [|b1 [|b2 [|b3 [|b4 [|b5 [|b6 [|b7 l]]]]]]]]|];
    try reflexivity.
  cbn [response_bytes truthy lock_ack].
  erewrite !item_eq_at by (lia || reflexivity).
  assert (Hlen : (8 <=? len (b0 :: b1 :: b2 :: b3 :: b4 :: b5 :: b6 :: b7 :: l)) = true)
    by (apply Z.leb_le; unfold len; simpl; lia).
  rewrite Hlen, !and_then_Val.
  destruct (b0 =? 8), (b4 =? 76), (b6 =? 79), (b7 =? 75); reflexivity.
Qed.

Lemma valid_action_range action :
  valid_action action = true <-> 1 <= action <= 15.
Proof.
  unfold valid_action. split.
  - intros H. apply orb_true_iff in H as [H|H].
    + apply bool_decide_eq_true in H.
      repeat (apply elem_of_cons in H as [-> | H]; [lia|]). inversion H.
    + apply andb_true_iff in H as [H1 H2]. lia.
  - intros H. apply orb_true_iff. right. apply andb_true_iff. split; lia.
Qed.

(** X10: [uhf_action] on a connected reader whose writes go through.  An
    action outside 1-15 gives -2 and a time outside a byte gives -13, both
    before anything is sent.  Otherwise exactly one frame,
    [4, 2, 145, action, time], is written; the answer is 0 when the
    response starts with [3, 2, 145, 0], -6 for any other or no response,
    and -13 when the read raises something other than [USBError]. *)
Theorem uhf_action_exchange (icdev action time : Z) (w : World) (d : Device) :
  usb_device w = Some d -> handle d = icdev -> writes_ok d ->
  (~ 1 <= action <= 15 -> uhf_action icdev action time w = (-2, w)) /\
  (1 <= action <= 15 -> ~ is_byte time ->
   uhf_action icdev action time w = (-13, w)) /\
  (1 <= action <= 15 -> is_byte time ->
   let frame := [4; 2; 145; action; time] in
   let r := read_response (Some (after_writes d [frame])) 2000 in
   uhf_action icdev action time w = (answer action_ack (fst r), set_device w (snd r)) /\
   exists d', snd r = Some d' /\ sent d' = sent d ++ [frame]).
Proof.
  intros Hd Hh Hok.
  assert (Hbad : bad_handle (usb_device w) icdev = false).
  { rewrite Hd. cbn [bad_handle]. rewrite Hh, Z.eqb_refl. reflexivity. }
  unfold uhf_action. rewrite Hbad.
  split; [|split].
  - intros Hna. destruct (valid_action action) eqn:E; [|reflexivity].
    apply valid_action_range in E. contradiction.
  - intros Ha Hnt. rewrite (proj2 (valid_action_range action) Ha). cbn [negb].
    unfold except_Exception, bind, lift, bytearray_of.
    assert (Hf : forallb is_byteb [4; 2; 145; action; time] = false).
    { cbn [forallb]. destruct (is_byteb time) eqn:E; [|rewrite !andb_false_r; reflexivity].
      exfalso. apply Hnt. unfold is_byteb in E. apply andb_true_iff in E as [E1 E2].
      unfold is_byte. lia. }
    rewrite Hf. reflexivity.
  - intros Ha Ht. cbv zeta. set (frame := [4; 2; 145; action; time]).
    rewrite (proj2 (valid_action_range action) Ha). cbn [negb].
    assert (Hf : bytearray_of frame = Val frame).
    { unfold bytearray_of, frame. cbn [forallb].
      rewrite (is_byteb_true time Ht), (is_byteb_true action) by (unfold is_byte; lia).
      reflexivity. }
    split.
    + unfold except_Exception at 1. unfold lift at 1. unfold bind at 1. rewrite Hf.
      apply (exchange_run
               (fun response =>
                  (Val (truthy response) <&&> Val (4 <=? len (response_bytes response))
                   <&&> item_eq (response_bytes response) 0 3
                   <&&> item_eq (response_bytes response) 1 2
                   <&&> item_eq (response_bytes response) 2 145
                   <&&> item_eq (response_bytes response) 3 0)%py)
               action_ack frame w _ action_test_ack).
      rewrite Hd. apply send_single; [exact Hok | unfold len; simpl; lia].
    + destruct (read_response_keeps (after_writes d [frame]) 2000)
        as (d' & Hs & Hsent & _).
      exists d'. split; [exact Hs | exact Hsent].
Qed.

Lemma uhf_action_exchange_witness :
  uhf_action 7 16 50 read_world = (-2, read_world) /\
  uhf_action 7 5 300 read_world = (-13, read_world) /\
  fst (uhf_action 7 5 50 read_world) = -6.
Proof.
  destruct (uhf_action_exchange 7 16 50 read_world
              {| handle := 7; now := 0%Q;
                 reads := [{| took := (1 # 100)%Q;
                              delivers := Val [8; 2; 65; 0; 82; 1; 2] |}];
                 writes := []; sent := [] |} eq_refl eq_refl
              ltac:(intros e He; inversion He)) as (H1 & _ & _).
  destruct (uhf_action_exchange 7 5 300 read_world
              {| handle := 7; now := 0%Q;
                 reads := [{| took := (1 # 100)%Q;
                              delivers := Val [8; 2; 65; 0; 82; 1; 2] |}];
                 writes := []; sent := [] |} eq_refl eq_refl
              ltac:(intros e He; inversion He)) as (_ & H2 & _).
  destruct (uhf_action_exchange 7 5 50 read_world
              {| handle := 7; now := 0%Q;
                 reads := [{| took := (1 # 100)%Q;
                              delivers := Val [8; 2; 65; 0; 82; 1; 2] |}];
                 writes := []; sent := [] |} eq_refl eq_refl
              ltac:(intros e He; inversion He)) as (_ & _ & H3).
  split; [apply H1; lia|]. split; [apply H2; [lia | unfold is_byte; lia]|].
  destruct H3 as [H3 _]; [lia | unfold is_byte; lia|]. rewrite H3. reflexivity.
Defined.
Lemma password_command_value AccessPassword :
  len AccessPassword = 8 ->
  password_command AccessPassword = Val ([11; 2; 65; 80] ++ AccessPassword).
Proof.
  intros Hlen.
  destruct AccessPassword as [|a0 [|a1 [|a2 [|a3 [|a4 [|a5 [|a6 [|a7 [|a8 l]]]]]]]]];
    try (exfalso; unfold len in Hlen; simpl in Hlen; lia).
  reflexivity.
Qed.

Lemma lock_command_value lockSetting :
  len lockSetting = 6 ->
  lock_command lockSetting = Val ([10; 2; 65; 76] ++ lockSetting ++ [0]).
Proof.
  intros Hlen.
  destruct lockSetting as [|a0 [|a1 [|a2 [|a3 [|a4 [|a5 [|a6 l]]]]]]];
    try (exfalso; unfold len in Hlen; simpl in Hlen; lia).
  reflexivity.
Qed.

(** X11: [uhf_setAccessPassword] on a connected reader whose writes go
    through.  A password that is not 8 bytes long gives -2 before anything
    is sent.  For 8 bytes exactly one frame is written, [11, 2, 'A', 'P']
    followed by the password as it is; the answer is 0 when the response
    starts with [4, 2, 65, 0, 80], and -6 for any other or no response. *)
Theorem uhf_setAccessPassword_exchange (icdev : Z) (AccessPassword : list Z)
    (w : World) (d : Device) :
  usb_device w = Some d -> handle d = icdev -> writes_ok d ->
  (len AccessPassword <> 8 ->
   uhf_setAccessPassword icdev AccessPassword w = (-2, w)) /\
  (len AccessPassword = 8 ->
   let frame := [11; 2; 65; 80] ++ AccessPassword in
   let r := read_response (Some (after_writes d [frame])) 2000 in
   uhf_setAccessPassword icdev AccessPassword w
   = (answer password_ack (fst r), set_device w (snd r)) /\
   exists d', snd r = Some d' /\ sent d' = sent d ++ [frame]).
Proof.
  intros Hd Hh Hok.
  assert (Hbad : bad_handle (usb_device w) icdev = false).
  { rewrite Hd. cbn [bad_handle]. rewrite Hh, Z.eqb_refl. reflexivity. }
  unfold uhf_setAccessPassword. rewrite Hbad. split.
  - intros Hlen. destruct (Z.eqb_spec (len AccessPassword) 8); [contradiction|].
    reflexivity.
  - intros Hlen. cbv zeta. set (frame := [11; 2; 65; 80] ++ AccessPassword).
    rewrite Hlen. cbn [Z.eqb Pos.eqb negb]. split.
    + unfold except_Exception at 1. unfold lift at 1. unfold bind at 1.
      rewrite (password_command_value _ Hlen). fold frame.
      apply (exchange_run
               (fun response =>
                  (Val (truthy response) <&&> Val (5 <=? len (response_bytes response))
                   <&&> item_eq (response_bytes response) 0 4
                   <&&> item_eq (response_bytes response) 1 2
                   <&&> item_eq (response_bytes response) 2 65
                   <&&> item_eq (response_bytes response) 3 0
                   <&&> item_eq (response_bytes response) 4 80)%py)
               password_ack frame w _ password_test_ack).
      rewrite Hd. apply send_single; [exact Hok|].
      unfold frame, len in *. rewrite length_app. simpl. lia.
    + destruct (read_response_keeps (after_writes d [frame]) 2000)
        as (d' & Hs & Hsent & _).
      exists d'. split; [exact Hs | exact Hsent].
Qed.

Lemma uhf_setAccessPassword_exchange_witness :
  uhf_setAccessPassword 7 [1; 2; 3; 4; 5; 6; 7] read_world = (-2, read_world) /\
  fst (uhf_setAccessPassword 7 [1; 2; 3; 4; 5; 6; 7; 8] read_world) = -6.
Proof.
  destruct (uhf_setAccessPassword_exchange 7 [1; 2; 3; 4; 5; 6; 7] read_world
              {| handle := 7; now := 0%Q;
                 reads := [{| took := (1 # 100)%Q;
                              delivers := Val [8; 2; 65; 0; 82; 1; 2] |}];
                 writes := []; sent := [] |} eq_refl eq_refl
              ltac:(intros e He; inversion He)) as (H1 & _).
  destruct (uhf_setAccessPassword_exchange 7 [1; 2; 3; 4; 5; 6; 7; 8] read_world
              {| handle := 7; now := 0%Q;
                 reads := [{| took := (1 # 100)%Q;
                              delivers := Val [8; 2; 65; 0; 82; 1; 2] |}];
                 writes := []; sent := [] |} eq_refl eq_refl
              ltac:(intros e He; inversion He)) as (_ & H2).
  split; [apply H1; unfold len; simpl; lia|].
  destruct H2 as [H2 _]; [reflexivity|]. rewrite H2. reflexivity.
Defined.

(** X12: [uhf_lockMemory] on a connected reader whose writes go through.
    A setting that is not 6 bytes long gives -2 before anything is sent.
    For 6 bytes exactly one frame of 11 bytes is written: [10, 2, 'A', 'L'],
    the setting as it is, and a closing zero byte; the answer is 0 when the
    response has 8 bytes at least with 8 first, [L] at 4, [O] at 6 and [K]
    at 7, and -6 for any other or no response. *)
Theorem uhf_lockMemory_exchange (icdev : Z) (lockSetting : list Z)
    (w : World) (d : Device) :
  usb_device w = Some d -> handle d = icdev -> writes_ok d ->
  (len lockSetting <> 6 -> uhf_lockMemory icdev lockSetting w = (-2, w)) /\
  (len lockSetting = 6 ->
   let frame := [10; 2; 65; 76] ++ lockSetting ++ [0] in
   let r := read_response (Some (after_writes d [frame])) 2000 in
   uhf_lockMemory icdev lockSetting w
   = (answer lock_ack (fst r), set_device w (snd r)) /\
   exists d', snd r = Some d' /\ sent d' = sent d ++ [frame]).
Proof.
  intros Hd Hh Hok.
  assert (Hbad : bad_handle (usb_device w) icdev = false).
  { rewrite Hd. cbn [bad_handle]. rewrite Hh, Z.eqb_refl. reflexivity. }
  unfold uhf_lockMemory. rewrite Hbad. split.
  - intros Hlen. destruct (Z.eqb_spec (len lockSetting) 6); [contradiction|].
    reflexivity.
  - intros Hlen. cbv zeta. set (frame := [10; 2; 65; 76] ++ lockSetting ++ [0]).
    rewrite Hlen. cbn [Z.eqb Pos.eqb negb]. split.
    + unfold except_Exception at 1. unfold lift at 1. unfold bind at 1.
      rewrite (lock_command_value _ Hlen). fold frame.
      apply (exchange_run
               (fun response =>
                  (Val (truthy response) <&&> Val (8 <=? len (response_bytes response))
                   <&&> item_eq (response_bytes response) 0 8
                   <&&> item_eq (response_bytes response) 4 76
                   <&&> item_eq (response_bytes response) 6 79
                   <&&> item_eq (response_bytes response) 7 75)%py)
               lock_ack frame w _ lock_test_ack).
      rewrite Hd. apply send_single; [exact Hok|].
      unfold frame, len in *. rewrite !length_app. simpl. lia.
    + destruct (read_response_keeps (after_writes d [frame]) 2000)
        as (d' & Hs & Hsent & _).
      exists d'. split; [exact Hs | exact Hsent].
Qed.

Lemma uhf_lockMemory_exchange_witness :
  uhf_lockMemory 7 [48; 48; 50] read_world = (-2, read_world) /\
  fst (uhf_lockMemory 7 [48; 48; 50; 48; 48; 50] read_world) = -6.
Proof.
  destruct (uhf_lockMemory_exchange 7 [48; 48; 50] read_world
              {| handle := 7; now := 0%Q;
                 reads := [{| took := (1 # 100)%Q;
                              delivers := Val [8; 2; 65; 0; 82; 1; 2] |}];
                 writes := []; sent := [] |} eq_refl eq_refl
              ltac:(intros e He; inversion He)) as (H1 & _).
  destruct (uhf_lockMemory_exchange 7 [48; 48; 50; 48; 48; 50] read_world
              {| handle := 7; now := 0%Q;
                 reads := [{| took := (1 # 100)%Q;
                              delivers := Val [8; 2; 65; 0; 82; 1; 2] |}];
                 writes := []; sent := [] |} eq_refl eq_refl
              ltac:(intros e He; inversion He)) as (_ & H2).
  split; [apply H1; unfold len; simpl; lia|].
  destruct H2 as [H2 _]; [reflexivity|]. rewrite H2. reflexivity.
Defined.

Lemma write_test_ack response :
  (Val (truthy response) <&&> Val (1 <=? len (response_bytes response))
   <&&> item_eq (response_bytes response) 0 8)%py
  = Val (write_ack response).
Proof.
  destruct response as [[|b0 l]|]; try reflexivity.
  cbn [response_bytes truthy write_ack].
  erewrite !item_eq_at by (lia || reflexivity).
  assert (Hlen : (1 <=? len (b0 :: l)) = true)
    by (apply Z.leb_le; unfold len; simpl; lia).
  rewrite Hlen, !and_then_Val. reflexivity.
Qed.

(** X13: [uhf_write] on a connected reader whose writes go through, with an
    [infoType] in 1-4, an address below [0x100], at most 61 words and data
    that holds them.  The frame is built, starts with its length minus one,
    and goes out in the chunks of [send_command]; the answer is 0 when the
    response starts with 8 and -6 for any other or no response.  From 14
    words on the frame is longer than 64 bytes, and what goes out first is
    the marker [0x82], not the frame's length prefix. *)
Theorem uhf_write_exchange (icdev infoType address wlen : Z) (w : World)
    (d : Device) :
  usb_device w = Some d -> handle d = icdev -> writes_ok d ->
  1 <= infoType <= 4 -> 0 <= address < 256 -> 0 <= wlen <= 61 ->
  wlen * 4 <= len (pData w) ->
  exists frame,
    write_command infoType address wlen (pData w) = Val frame /\
    length_prefixed frame /\
    (let r := read_response (Some (after_writes d (chunks_of_frame frame))) 2000 in
     uhf_write icdev infoType address wlen w
     = (answer write_ack (fst r), set_device w (snd r)) /\
     exists d', snd r = Some d' /\ sent d' = sent d ++ chunks_of_frame frame) /\
    (wlen <= 13 -> chunks_of_frame frame = [frame]) /\
    (14 <= wlen ->
     exists chunk rest, chunks_of_frame frame = chunk :: rest /\
                        chunk !! 0%nat = Some 130).
Proof.
  intros Hd Hh Hok Hi Ha Hw Hdata.
  assert (Hbad : bad_handle (usb_device w) icdev = false).
  { rewrite Hd. cbn [bad_handle]. rewrite Hh, Z.eqb_refl. reflexivity. }
  assert (Hv : valid_infoType infoType = true).
  { assert (Hc : infoType = 1 \/ infoType = 2 \/ infoType = 3 \/ infoType = 4) by lia.
    destruct Hc as [-> | [-> | [-> | ->]]]; reflexivity. }
  pose proof (len_nonneg (pData w)) as Hn.
  assert (Hpl : length (take (Z.to_nat (wlen * 4)) (pData w)) = Z.to_nat (wlen * 4))
    by (rewrite length_take; unfold len in Hdata; lia).
  assert (Hframe : exists frame,
            write_command infoType address wlen (pData w) = Val frame /\
            (length frame = Z.to_nat (10 + wlen * 4)
             \/ length frame = Z.to_nat (11 + wlen * 4))).
  { destruct (Z.lt_ge_cases address 16).
    - eexists. split; [apply write_command_low; lia|]. left.
      rewrite length_app, Hpl. simpl. lia.
    - eexists. split; [apply write_command_high; lia|]. right.
      rewrite length_app, Hpl. simpl. lia. }
  destruct Hframe as (frame & Hcmd & Hlen).
  assert (Hne : frame <> []) by (destruct frame; [simpl in Hlen; lia | discriminate]).
  exists frame. split; [exact Hcmd|].
  split; [eapply write_command_prefixed; eauto|].
  split; [|split].
  - cbv zeta. split.
    + unfold uhf_write. rewrite Hbad, Hv. cbn [negb].
      unfold except_Exception at 1. unfold lift at 1. unfold bind at 1. rewrite Hcmd.
      apply (exchange_run
               (fun response =>
                  (Val (truthy response) <&&> Val (1 <=? len (response_bytes response))
                   <&&> item_eq (response_bytes response) 0 8)%py)
               write_ack frame w _ write_test_ack).
      rewrite Hd. apply send_all; assumption.
    + destruct (read_response_keeps (after_writes d (chunks_of_frame frame)) 2000)
        as (d' & Hs & Hsent & _).
      exists d'. split; [exact Hs | exact Hsent].
  - intros Hshort. unfold chunks_of_frame.
    assert (Hc : ((length frame + 63) / 64 = 1)%nat).
    { pose proof (Nat.div_mod_eq (length frame + 63) 64).
      pose proof (Nat.mod_upper_bound (length frame + 63) 64). lia. }
    rewrite Hc. cbn [seq map]. rewrite marked_chunk_short by lia. reflexivity.
  - intros Hlong. unfold chunks_of_frame.
    destruct (chunk_count_bounds (length frame)) as (Hle & Hgt & _).
    destruct ((length frame + 63) / 64)%nat as [|[|n]] eqn:Hc; [lia | lia |].
    cbn [seq map]. eexists. eexists. split; [reflexivity|].
    destruct (marked_chunk_long frame 0) as (_ & H0 & _); [lia | lia |].
    rewrite H0. destruct (Nat.ltb_spec (64 * (0 + 1)) (length frame)); [reflexivity | lia].
Qed.

Lemma uhf_write_exchange_witness :
  exists frame,
    write_command 1 2 6 (pData short_data_world) = Val frame /\
    length_prefixed frame /\ chunks_of_frame frame = [frame].
Proof.
  destruct (uhf_write_exchange 7 1 2 6 short_data_world
              {| handle := 7; now := 0%Q;
                 reads := [{| took := (1 # 100)%Q; delivers := Val [8] |}];
                 writes := []; sent := [] |} eq_refl eq_refl
              ltac:(intros e He; inversion He))
    as (frame & H1 & H2 & _ & H3 & _).
  - lia.
  - lia.
  - lia.
  - unfold len. simpl. lia.
  - exists frame. split; [exact H1|]. split; [exact H2|]. apply H3. lia.
Defined.

(** * What the operations leave alone *)

Section Keeps.
Variable P : World -> World -> Prop.
Hypothesis P_refl : forall w, P w w.
Hypothesis P_trans : forall w1 w2 w3, P w1 w2 -> P w2 w3 -> P w1 w3.

Lemma keeps_ret {A} (a : A) : keeps P (ret a).
Proof. intros w r w' [= _ <-]. apply P_refl. Qed.

Lemma keeps_lift {A} (x : res A) : keeps P (lift x).
Proof. intros w r w' [= _ <-]. apply P_refl. Qed.

Lemma keeps_pData_len : keeps P pData_len.
Proof. intros w r w' [= _ <-]. apply P_refl. Qed.

Lemma keeps_bind {A B} (m : M A) (k : A -> M B) :
  keeps P m -> (forall a, keeps P (k a)) -> keeps P (bind m k).
Proof.
  intros Hm Hk w r w'. unfold bind.
  destruct (m w) as [[a|e] w1] eqn:E; intros H.
  - eapply P_trans; [eapply Hm, E | eapply Hk, H].
  - injection H as _ <-. eapply Hm, E.
Qed.

Lemma keeps_for_loop_st {A R} (body : Z -> A -> M (ctl A R)) n :
  (forall i a, keeps P (body i a)) ->
  forall i a, keeps P (for_loop_st body i n a).
Proof.
  intros Hbody. induction n as [|n IH]; intros i a w r w' H.
  - injection H as _ <-. apply P_refl.
  - cbn [for_loop_st] in H.
    destruct (body i a w) as [[[a'|x]|e] w1] eqn:E.
    + eapply P_trans; [eapply Hbody, E | eapply IH, H].
    + injection H as _ <-. eapply Hbody, E.
    + injection H as _ <-. eapply Hbody, E.
Qed.

Lemma keeps_except (body : M Z) w :
  keeps P body -> P w (snd (except_Exception body w)).
Proof.
  intros Hb. unfold except_Exception.
  destruct (body w) as [[code|e] w'] eqn:E; cbn [snd]; eapply Hb, E.
Qed.
End Keeps.

Lemma same_buffers_refl w : same_buffers w w.
Proof. repeat split. Qed.

Lemma same_buffers_trans w1 w2 w3 :
  same_buffers w1 w2 -> same_buffers w2 w3 -> same_buffers w1 w3.
Proof. intros (Hp & Ht & Hd) (Hp' & Ht' & Hd'). repeat split; congruence. Qed.

Lemma same_sizes_refl w : same_sizes w w.
Proof. repeat split. Qed.

Lemma same_sizes_trans w1 w2 w3 :
  same_sizes w1 w2 -> same_sizes w2 w3 -> same_sizes w1 w3.
Proof. intros (Hp & Ht & Hd) (Hp' & Ht' & Hd'). repeat split; congruence. Qed.

Lemma same_buffers_sizes w w' : same_buffers w w' -> same_sizes w w'.
Proof.
  unfold same_sizes. intros (Hp & Ht & Hd). rewrite Hp, Ht, Hd. repeat split.
Qed.

Lemma keeps_send_buffers command : keeps same_buffers (send command).
Proof. intros w r w' H. apply send_frame in H. exact H. Qed.

Lemma keeps_recv_buffers timeout : keeps same_buffers (recv timeout).
Proof. intros w r w' H. apply recv_frame in H. exact H. Qed.

Lemma keeps_send_sizes command : keeps same_sizes (send command).
Proof. intros w r w' H. apply same_buffers_sizes, (keeps_send_buffers _ _ _ _ H). Qed.

Lemma keeps_recv_sizes timeout : keeps same_sizes (recv timeout).
Proof. intros w r w' H. apply same_buffers_sizes, (keeps_recv_buffers _ _ _ _ H). Qed.

Lemma setitem_length l i v l' : setitem l i v = Val l' -> length l' = length l.
Proof. intros H. apply setitem_len in H. unfold len in H. lia. Qed.

Lemma keeps_pData_set i v : keeps same_sizes (pData_set i v).
Proof.
  intros w r w'. unfold pData_set.
  destruct (setitem (pData w) i v) as [l|e] eqn:E; intros [= _ <-].
  - repeat split. apply (setitem_length _ _ _ _ E).
  - apply same_sizes_refl.
Qed.

Lemma keeps_tagCount_set i v : keeps same_sizes (tagCount_set i v).
Proof.
  intros w r w'. unfold tagCount_set.
  destruct (setitem (tagCount w) i v) as [l|e] eqn:E; intros [= _ <-].
  - repeat split. apply (setitem_length _ _ _ _ E).
  - apply same_sizes_refl.
Qed.

Lemma keeps_dataLen_set i v : keeps same_sizes (dataLen_set i v).
Proof.
  intros w r w'. unfold dataLen_set.
  destruct (setitem (dataLen w) i v) as [l|e] eqn:E; intros [= _ <-].
  - repeat split. apply (setitem_length _ _ _ _ E).
  - apply same_sizes_refl.
Qed.

Ltac keeps_buffers :=
  repeat first
    [ apply keeps_ret; apply same_buffers_refl
    | apply keeps_lift; apply same_buffers_refl
    | apply keeps_send_buffers
    | apply keeps_recv_buffers
    | apply keeps_bind; [apply same_buffers_trans | | intros ?]
    | progress cbv zeta
    | match goal with
      | |- keeps _ (if ?b then _ else _) => destruct b
      end ].

Ltac keeps_sizes :=
  repeat first
    [ apply keeps_ret; apply same_sizes_refl
    | apply keeps_lift; apply same_sizes_refl
    | apply keeps_pData_len; apply same_sizes_refl
    | apply keeps_send_sizes
    | apply keeps_recv_sizes
    | apply keeps_pData_set
    | apply keeps_tagCount_set
    | apply keeps_dataLen_set
    | apply keeps_for_loop_st;
      [apply same_sizes_refl | apply same_sizes_trans | intros ? ?]
    | apply keeps_bind; [apply same_sizes_trans | | intros ?]
    | progress cbv zeta
    | match goal with
      | |- keeps _ (if ?b then _ else _) => destruct b
      | |- keeps _ (match ?x with Next _ => _ | Return _ => _ end) => destruct x
      end ].

(** X14: [uhf_write], [uhf_action], [uhf_setAccessPassword] and
    [uhf_lockMemory] never store into a buffer of the caller: whatever the
    arguments, the channel and the outcome, [pData], [tagCount] and
    [dataLen] hold afterwards what they held before. *)
Theorem command_operations_keep_buffers (w : World) :
  (forall icdev infoType address wlen,
     same_buffers w (snd (uhf_write icdev infoType address wlen w))) /\
  (forall icdev action time, same_buffers w (snd (uhf_action icdev action time w))) /\
  (forall icdev AccessPassword,
     same_buffers w (snd (uhf_setAccessPassword icdev AccessPassword w))) /\
  (forall icdev lockSetting,
     same_buffers w (snd (uhf_lockMemory icdev lockSetting w))).
Proof.
  split; [|split; [|split]]; intros.
  - unfold uhf_write.
    destruct (bad_handle _ _); [apply same_buffers_refl|].
    apply keeps_except. keeps_buffers.
  - unfold uhf_action.
    destruct (bad_handle _ _); [apply same_buffers_refl|].
    apply keeps_except. keeps_buffers.
  - unfold uhf_setAccessPassword.
    destruct (bad_handle _ _); [apply same_buffers_refl|].
    apply keeps_except. keeps_buffers.
  - unfold uhf_lockMemory.
    destruct (bad_handle _ _); [apply same_buffers_refl|].
    apply keeps_except. keeps_buffers.
Qed.
(** X15: no operation ever changes the length of a buffer of the caller.
    [uhf_read] and [uhf_inventory], which do store, never write past the
    end of [pData], [tagCount] or [dataLen] and never make them grow or
    shrink, whatever the arguments, the responses and the outcome. *)
Theorem operations_keep_sizes (w : World) :
  (forall icdev infoType address rlen,
     same_sizes w (snd (uhf_read icdev infoType address rlen w))) /\
  (forall icdev, same_sizes w (snd (uhf_inventory icdev w))).
Proof.
  split; intros.
  - unfold uhf_read.
    destruct (bad_handle _ _); [apply same_sizes_refl|].
    apply keeps_except. unfold uhf_read_body.
    repeat first
      [ progress keeps_sizes
      | progress unfold read_store, read_store_step, for_range_st ].
  - unfold uhf_inventory.
    destruct (bad_handle _ _); [apply same_sizes_refl|].
    apply keeps_except. unfold uhf_inventory_body.
    repeat first
      [ progress keeps_sizes
      | progress unfold inventory_round, record_store, record_store_step,
          for_range_st ].
Qed.

(** * Further properties of the inventory session *)



Lemma land_255_byte x : is_byte (Z.land x 255).
Proof.
  unfold is_byte. change 255 with (Z.ones 8).
  rewrite Z.land_ones by lia. apply Z.mod_pos_bound. lia.
Qed.

Lemma tagCount_store16 {A} n (k : M A) w :
  2 <= len (tagCount w) ->
  (tagCount_set 0 (Z.land n 255) ;;
   tagCount_set 1 (Z.land (Z.shiftr n 8) 255) ;; k)%py w
  = k (set_tagCount w (store16 n (tagCount w))).
Proof.
  intros Hlen.
  erewrite bind_Val; [|apply tagCount_set_Val; [apply land_255_byte | lia]].
  erewrite bind_Val;
    [| apply tagCount_set_Val;
       [ apply land_255_byte
       | cbn [set_tagCount tagCount]; unfold len in *; rewrite length_insert; lia]].
  f_equal. apply world_eq; try reflexivity.
  cbn [set_tagCount tagCount]. apply (insert_pair (tagCount w)). unfold len in Hlen. lia.
Qed.

Lemma dataLen_store16 {A} n (k : M A) w :
  2 <= len (dataLen w) ->
  (dataLen_set 0 (Z.land n 255) ;;
   dataLen_set 1 (Z.land (Z.shiftr n 8) 255) ;; k)%py w
  = k (set_dataLen w (store16 n (dataLen w))).
Proof.
  intros Hlen.
  erewrite bind_Val; [|apply dataLen_set_Val; [apply land_255_byte | lia]].
  erewrite bind_Val;
    [| apply dataLen_set_Val;
       [ apply land_255_byte
       | cbn [set_dataLen dataLen]; unfold len in *; rewrite length_insert; lia]].
  f_equal. apply world_eq; try reflexivity.
  cbn [set_dataLen dataLen]. apply (insert_pair (dataLen w)). unfold len in Hlen. lia.
Qed.

(** The first exchange of a session: the count is read and stored, and the
    rest of the [try] block runs on from there. *)
Lemma uhf_inventory_count_stage icdev w dev1 dev2 count_response count :
  bad_handle (usb_device w) icdev = false ->
  send_command (usb_device w) [3; 2; 85; 128] = (Val true, dev1) ->
  read_response dev1 2000 = (Val (Some count_response), dev2) ->
  5 <= len count_response -> getitem count_response 4 = Val count ->
  2 <= len (tagCount w) ->
  uhf_inventory icdev w
  = except_Exception
      (if count =? 0 then
         dataLen_set 0 0 ;; dataLen_set 1 0 ;; ret 0
       else
         let! r := for_range_st count (inventory_round [3; 2; 85; 145]) 0 in
         match r with
         | Return code => ret code
         | Next current_offset =>
             dataLen_set 0 (Z.land current_offset 255) ;;
             dataLen_set 1 (Z.land (Z.shiftr current_offset 8) 255) ;;
             ret 0
         end)%py
      (set_tagCount (set_device w dev2) (store16 count (tagCount w))).
Proof.
  intros Hh Hs0 Hr0 Hlen0 Hcount Htc.
  unfold uhf_inventory. rewrite Hh. unfold except_Exception, uhf_inventory_body.
  unfold lift at 1. unfold bind at 1.
  change (bytearray_of [3; 2; 85; 128]) with (Val (A := list Z) [3; 2; 85; 128]).
  cbv beta iota.
  rewrite (bind_Val _ _ _ _ _ (send_Val _ _ _ _ Hs0)).
  rewrite (bind_Val _ _ _ _ _ (recv_Val _ (set_device w dev1) _ _ Hr0)).
  assert (Htr : truthy (Some count_response) = true).
  { destruct count_response; [discriminate Hcount | reflexivity]. }
  rewrite Htr. cbn [response_bytes].
  destruct (Z.leb_spec 5 (len count_response)); [|lia]. cbn [andb].
  unfold lift at 1. unfold bind at 1. rewrite Hcount.
  rewrite tagCount_store16 by (cbn [set_device tagCount]; exact Htc).
  cbn [set_device tagCount usb_device pData dataLen].
  destruct (count =? 0); [reflexivity|].
  unfold lift at 1. unfold bind at 1.
  change (setitem [3; 2; 85; 128] 3 145) with (Val (A := list Z) [3; 2; 85; 145]).
  reflexivity.
Qed.

(** X16: a session in which the reader reports no tag.  After the one
    exchange [uhf_inventory] returns 0, stores the count 0 and the length 0
    as two bytes each, and leaves [pData] as it was; no follow-up frame is
    sent. *)
Theorem uhf_inventory_no_tags (icdev : Z) (w : World) (dev1 dev2 : option Device)
    (count_response : list Z) :
  bad_handle (usb_device w) icdev = false ->
  send_command (usb_device w) [3; 2; 85; 128] = (Val true, dev1) ->
  read_response dev1 2000 = (Val (Some count_response), dev2) ->
  5 <= len count_response -> getitem count_response 4 = Val 0 ->
  2 <= len (tagCount w) -> 2 <= len (dataLen w) ->
  uhf_inventory icdev w
  = (0, {| usb_device := dev2; pData := pData w;
           tagCount := 0 :: 0 :: drop 2 (tagCount w);
           dataLen := 0 :: 0 :: drop 2 (dataLen w) |}).
Proof.
  intros Hh Hs0 Hr0 Hlen0 Hcount Htc Hdl.
  rewrite (uhf_inventory_count_stage icdev w dev1 dev2 count_response 0
             Hh Hs0 Hr0 Hlen0 Hcount Htc).
  cbn [Z.eqb]. unfold except_Exception.
  pose proof (dataLen_store16 0 (ret 0)
                (set_tagCount (set_device w dev2) (store16 0 (tagCount w)))) as Hst.
  change (Z.land 0 255) with 0 in Hst. change (Z.land (Z.shiftr 0 8) 255) with 0 in Hst.
  rewrite Hst by exact Hdl. reflexivity.
Qed.

Lemma uhf_inventory_no_tags_witness :
  fst (uhf_inventory 7 no_tag_world) = 0 /\
  pData (snd (uhf_inventory 7 no_tag_world)) = [1; 2; 3] /\
  tagCount (snd (uhf_inventory 7 no_tag_world)) = [0; 0] /\
  dataLen (snd (uhf_inventory 7 no_tag_world)) = [0; 0; 9].
Proof.
  rewrite (uhf_inventory_no_tags 7 no_tag_world
             (snd (send_command (usb_device no_tag_world) [3; 2; 85; 128]))
             (snd (read_response
                     (snd (send_command (usb_device no_tag_world) [3; 2; 85; 128]))
                     2000))
             [4; 2; 85; 0; 0]).
  - repeat split.
  - reflexivity.
  - reflexivity.
  - reflexivity.
  - unfold len. simpl. lia.
  - reflexivity.
  - unfold len. simpl. lia.
  - unfold len. simpl. lia.
Defined.



(** A frame of at most 64 bytes that [send_command] reports sent is on the
    wire, once and as it is. *)
Lemma send_true_sent d frame dev1 :
  send_command (Some d) frame = (Val true, dev1) -> 0 < len frame <= 64 ->
  exists d1, dev1 = Some d1 /\ sent d1 = sent d ++ [frame].
Proof.
  intros H [Hpos Hle]. unfold send_command in H. cbn [send_loop] in H.
  destruct (Z.ltb_spec 0 (len frame)); [|lia].
  destruct (Z.gtb_spec (len frame) 64); [lia|]. cbn [andb] in H.
  rewrite slice_whole in H by lia.
  destruct (device_write d frame) as [[written|e] d'] eqn:Ew.
  - destruct (length frame) as [|n] eqn:El; [unfold len in Hpos; lia|].
    cbn [send_loop] in H.
    destruct (Z.ltb_spec (0 + 64) (len frame)); [lia|].
    injection H as <-. exists d'. split; [reflexivity|].
    unfold device_write in Ew.
    destruct (writes d) as [|[n0|e] rest]; try discriminate Ew;
      injection Ew as _ <-; reflexivity.
  - destruct e; discriminate H.
Qed.

Lemma same_device_refl w : same_device w w.
Proof. reflexivity. Qed.

Lemma same_device_trans w1 w2 w3 :
  same_device w1 w2 -> same_device w2 w3 -> same_device w1 w3.
Proof. unfold same_device. congruence. Qed.

Lemma keeps_pData_set_device i v : keeps same_device (pData_set i v).
Proof.
  intros w r w'. unfold pData_set.
  destruct (setitem (pData w) i v); intros [= _ <-]; reflexivity.
Qed.

Lemma keeps_tagCount_set_device i v : keeps same_device (tagCount_set i v).
Proof.
  intros w r w'. unfold tagCount_set.
  destruct (setitem (tagCount w) i v); intros [= _ <-]; reflexivity.
Qed.

Lemma keeps_dataLen_set_device i v : keeps same_device (dataLen_set i v).
Proof.
  intros w r w'. unfold dataLen_set.
  destruct (setitem (dataLen w) i v); intros [= _ <-]; reflexivity.
Qed.

Ltac keeps_device :=
  repeat first
    [ apply keeps_ret; apply same_device_refl
    | apply keeps_lift; apply same_device_refl
    | apply keeps_pData_len; apply same_device_refl
    | apply keeps_pData_set_device
    | apply keeps_tagCount_set_device
    | apply keeps_dataLen_set_device
    | apply keeps_for_loop_st;
      [apply same_device_refl | apply same_device_trans | intros ? ?]
    | apply keeps_bind; [apply same_device_trans | | intros ?]
    | progress cbv zeta
    | progress unfold record_store, record_store_step, for_range_st
    | match goal with
      | |- keeps _ (if ?b then _ else _) => destruct b
      end ].

(** A frame of at most 64 bytes that [send] reports as sent has gone out in
    one write. *)
Lemma send_sent command w w1 d :
  0 < len command <= 64 -> usb_device w = Some d ->
  send command w = (Val true, w1) ->
  exists d1, usb_device w1 = Some d1 /\ sent d1 = sent d ++ [command].
Proof.
  intros Hlen Hd H. unfold send in H. rewrite Hd in H.
  destruct (send_command (Some d) command) as [r dev1] eqn:Es.
  injection H as -> <-.
  apply send_true_sent in Es as (d1 & -> & Hs1); [|exact Hlen].
  exists d1. split; [reflexivity | exact Hs1].
Qed.

(** Reading leaves the log of what was sent alone. *)
Lemma recv_sent timeout w r w2 d :
  usb_device w = Some d -> recv timeout w = (r, w2) ->
  exists d2, usb_device w2 = Some d2 /\ sent d2 = sent d.
Proof.
  intros Hd H. unfold recv in H. rewrite Hd in H.
  destruct (read_response_keeps d timeout) as (d2 & Hd2 & Hsent & _).
  destruct (read_response (Some d) timeout) as [r' dev2].
  cbn [snd] in Hd2. subst dev2. injection H as _ <-.
  exists d2. split; [reflexivity | exact Hsent].
Qed.

(** A round that lets the loop go on has written its frame once. *)
Lemma inventory_round_sent command i offset w offset' w' d :
  0 < len command <= 64 -> usb_device w = Some d ->
  inventory_round command i offset w = (Val (Next offset'), w') ->
  exists d', usb_device w' = Some d' /\ sent d' = sent d ++ [command].
Proof.
  intros Hlen Hd H. unfold inventory_round in H.
  apply bind_Val_inv in H as (result & w1 & Hsend & H).
  destruct result; cbn [negb] in H;
    [|apply ret_inv in H as [H _]; discriminate H].
  destruct (send_sent _ _ _ _ Hlen Hd Hsend) as (d1 & Hd1 & Hs1).
  apply bind_Val_inv in H as (response & w2 & Hrecv & H).
  destruct (recv_sent _ _ _ _ _ Hd1 Hrecv) as (d2 & Hd2 & Hs2).
  match type of H with
  | ?m ?w0 = _ => assert (Hk : keeps same_device m) by keeps_device
  end.
  apply Hk in H. unfold same_device in H.
  exists d2. split; [congruence|]. rewrite Hs2, Hs1. reflexivity.
Qed.

Lemma inventory_rounds_sent command (k : nat) : forall i offset w offset' w' d,
  0 < len command <= 64 -> usb_device w = Some d ->
  for_loop_st (inventory_round command) i k offset w = (Val (Next offset'), w') ->
  exists d', usb_device w' = Some d' /\ sent d' = sent d ++ replicate k command.
Proof.
  induction k as [|k IH]; intros i offset w offset' w' d Hlen Hd H.
  - injection H as _ <-. exists d. split; [exact Hd|].
    cbn [replicate]. rewrite app_nil_r. reflexivity.
  - cbn [for_loop_st] in H.
    destruct (inventory_round command i offset w) as [[[a|x]|e] w1] eqn:E;
      try discriminate H.
    destruct (inventory_round_sent _ _ _ _ _ _ _ Hlen Hd E) as (d1 & Hd1 & Hs1).
    destruct (IH _ _ _ _ _ _ Hlen Hd1 H) as (d' & Hd' & Hs').
    exists d'. split; [exact Hd'|].
    rewrite Hs', Hs1, <- app_assoc. reflexivity.
Qed.

(** A round never ends the call with 0: what it returns is -6, 4 or 160. *)
Lemma inventory_round_return command i offset w code w' :
  inventory_round command i offset w = (Val (Return code), w') -> code <> 0.
Proof.
  intros E. unfold inventory_round in E.
  apply bind_Val_inv in E as (result & wc & _ & E).
  destruct result; cbn [negb] in E;
    [|apply ret_inv in E as [[= ->] _]; discriminate].
  apply bind_Val_inv in E as (response & wd & _ & E).
  destruct (negb (truthy response));
    [apply ret_inv in E as [[= ->] _]; discriminate|].
  cbv zeta in E.
  apply bind_Val_inv in E as (first & we & _ & E).
  destruct (first =? 4); [apply ret_inv in E as [[= ->] _]; discriminate|].
  apply bind_Val_inv in E as (second & wf & _ & E).
  destruct (negb (second =? 160));
    [apply ret_inv in E as [[= ->] _]; discriminate|].
  apply bind_Val_inv in E as (words & wg & _ & E).
  apply bind_Val_inv in E as (last_byte & wh & _ & E).
  apply bind_Val_inv in E as (n0 & wi & _ & E).
  apply bind_Val_inv in E as (u3 & wj & _ & E).
  apply bind_Val_inv in E as (u4 & wk & _ & E).
  apply bind_Val_inv in E as (hex_data & wl & _ & E).
  apply bind_Val_inv in E as (u5 & wm & _ & E).
  apply ret_inv in E as [E _]. discriminate E.
Qed.

Lemma inventory_rounds_return command (k : nat) : forall i offset w code w',
  for_loop_st (inventory_round command) i k offset w = (Val (Return code), w') ->
  code <> 0.
Proof.
  induction k as [|k IH]; intros i offset w code w' H; [discriminate H|].
  cbn [for_loop_st] in H.
  destruct (inventory_round command i offset w) as [[[a|x]|e] w1] eqn:E.
  - exact (IH _ _ _ _ _ H).
  - injection H as -> ->. exact (inventory_round_return _ _ _ _ _ _ E).
  - discriminate H.
Qed.

(** X18: one round trip for the count and one per tag.  Whenever
    [uhf_inventory] returns 0, the call has written the frame
    [3, 2, 85, 128] once and then the frame [3, 2, 85, 145] once for each
    tag the reader announced in byte 4 of its first response, each in one
    write, and nothing else. *)
Theorem uhf_inventory_round_trips (icdev : Z) (w w' : World) (d : Device) :
  usb_device w = Some d -> handle d = icdev ->
  uhf_inventory icdev w = (0, w') ->
  exists dev1 dev2 count_response count d',
    send_command (Some d) [3; 2; 85; 128] = (Val true, dev1) /\
    read_response dev1 2000 = (Val (Some count_response), dev2) /\
    getitem count_response 4 = Val count /\
    usb_device w' = Some d' /\
    sent d' = sent d ++ [3; 2; 85; 128]
              :: replicate (Z.to_nat count) [3; 2; 85; 145].
Proof.
  intros Hd Hh H. unfold uhf_inventory in H.
  rewrite Hd in H. cbn [bad_handle] in H. rewrite Hh, Z.eqb_refl in H.
  cbn [negb] in H. apply except_Exception_0 in H.
  unfold uhf_inventory_body in H.
  apply bind_Val_inv in H as (command & w0 & Hcmd & H).
  apply lift_inv in Hcmd as [Hcmd ->].
  change (bytearray_of [3; 2; 85; 128]) with (Val (A := list Z) [3; 2; 85; 128])
    in Hcmd.
  injection Hcmd as ->.
  apply bind_Val_inv in H as (sent_ok & w1 & Hsend & H).
  destruct sent_ok; [|apply ret_inv in H as [H _]; discriminate H].
  assert (Hl128 : 0 < len [3; 2; 85; 128] <= 64) by (unfold len; simpl; lia).
  assert (Hl145 : 0 < len [3; 2; 85; 145] <= 64) by (unfold len; simpl; lia).
  destruct (send_sent _ _ _ _ Hl128 Hd Hsend) as (d1 & Hd1 & Hs1).
  apply bind_Val_inv in H as (response & w2 & Hrecv & H).
  destruct (recv_sent _ _ _ _ _ Hd1 Hrecv) as (d2 & Hd2 & Hs2).
  cbv zeta in H.
  destruct (truthy response && (5 <=? len (response_bytes response))) eqn:Egood;
    [|apply ret_inv in H as [H _]; discriminate H].
  apply andb_true_iff in Egood as [Etruthy _].
  destruct response as [count_response|]; [|discriminate Etruthy].
  cbn [response_bytes] in H.
  apply bind_Val_inv in H as (count & w3 & Hcount & H).
  apply lift_inv in Hcount as [Hcount ->].
  apply bind_Val_inv in H as (u1 & w4 & Ht0 & H).
  apply keeps_tagCount_set_device in Ht0.
  apply bind_Val_inv in H as (u2 & w5 & Ht1 & H).
  apply keeps_tagCount_set_device in Ht1.
  assert (Hd5 : usb_device w5 = Some d2) by (unfold same_device in *; congruence).
  exists (usb_device w1), (usb_device w2), count_response, count.
  assert (Hsc : send_command (Some d) [3; 2; 85; 128] = (Val true, usb_device w1)).
  { unfold send in Hsend. rewrite Hd in Hsend.
    destruct (send_command (Some d) [3; 2; 85; 128]) as [r dev].
    injection Hsend as -> <-. reflexivity. }
  assert (Hrr : read_response (usb_device w1) 2000
                = (Val (Some count_response), usb_device w2)).
  { unfold recv in Hrecv.
    destruct (read_response (usb_device w1) 2000) as [r dev].
    injection Hrecv as -> <-. reflexivity. }
  destruct (Z.eqb_spec count 0) as [-> | Hnz].
  - match type of H with
    | ?m ?w0 = _ => assert (Hk : keeps same_device m) by keeps_device
    end.
    apply Hk in H. unfold same_device in H.
    exists d2. split; [exact Hsc|]. split; [exact Hrr|].
    split; [symmetry; exact Hcount|]. split; [congruence|].
    cbn [Z.to_nat replicate]. rewrite Hs2, Hs1. reflexivity.
  - apply bind_Val_inv in H as (command & w6 & Hcmd & H).
    apply lift_inv in Hcmd as [Hcmd ->].
    change (setitem [3; 2; 85; 128] 3 145) with (Val (A := list Z) [3; 2; 85; 145])
      in Hcmd.
    injection Hcmd as ->.
    apply bind_Val_inv in H as (r & w7 & Hloop & H).
    destruct r as [current_offset|code].
    + unfold for_range_st in Hloop.
      destruct (inventory_rounds_sent _ _ _ _ _ _ _ _ Hl145 Hd5 Hloop)
        as (d7 & Hd7 & Hs7).
      match type of H with
      | ?m ?w0 = _ => assert (Hk : keeps same_device m) by keeps_device
      end.
      apply Hk in H. unfold same_device in H.
      exists d7. split; [exact Hsc|]. split; [exact Hrr|].
      split; [symmetry; exact Hcount|]. split; [congruence|].
      rewrite Hs7, Hs2, Hs1, <- app_assoc. reflexivity.
    + apply ret_inv in H as [H _]. injection H as H. subst code.
      exfalso. unfold for_range_st in Hloop.
      apply inventory_rounds_return in Hloop. contradiction.
Qed.

Lemma uhf_inventory_round_trips_witness :
  (exists dev1 dev2 count_response count d',
     send_command (Some two_tag_device) [3; 2; 85; 128] = (Val true, dev1) /\
     read_response dev1 2000 = (Val (Some count_response), dev2) /\
     getitem count_response 4 = Val count /\
     usb_device (snd (uhf_inventory 7 two_tag_world)) = Some d' /\
     sent d' = sent two_tag_device ++ [3; 2; 85; 128]
               :: replicate (Z.to_nat count) [3; 2; 85; 145]) /\
  uhf_inventory 7 two_tag_world = (0, snd (uhf_inventory 7 two_tag_world)).
Proof.
  assert (H : uhf_inventory 7 two_tag_world
              = (0, snd (uhf_inventory 7 two_tag_world))) by reflexivity.
  split; [|exact H].
  exact (uhf_inventory_round_trips 7 two_tag_world
           (snd (uhf_inventory 7 two_tag_world)) two_tag_device
           eq_refl eq_refl H).
Defined.

Lemma after_count_store16 w dev count :
  2 <= len (tagCount w) ->
  after_count w dev count
  = set_tagCount (set_device w dev) (store16 count (tagCount w)).
Proof.
  intros Hlen. unfold after_count, store16. f_equal.
  apply (insert_pair (tagCount w)). unfold len in Hlen. lia.
Qed.

(** A [return] in round [k] of a session ends the call with its code. *)
Lemma uhf_inventory_round_returns icdev w dev1 dev2 count_response count
    (k : nat) offset wk code w' :
  bad_handle (usb_device w) icdev = false ->
  send_command (usb_device w) [3; 2; 85; 128] = (Val true, dev1) ->
  read_response dev1 2000 = (Val (Some count_response), dev2) ->
  5 <= len count_response -> getitem count_response 4 = Val count ->
  2 <= len (tagCount w) ->
  Z.of_nat k < count ->
  for_loop_st (inventory_round [3; 2; 85; 145]) 0 k 0 (after_count w dev2 count)
    = (Val (Next offset), wk) ->
  inventory_round [3; 2; 85; 145] (0 + Z.of_nat k) offset wk
    = (Val (Return code), w') ->
  uhf_inventory icdev w = (code, w') /\ dataLen w' = dataLen w.
Proof.
  intros Hh Hs0 Hr0 Hlen0 Hcount Htc Hk Hrounds Hround.
  split.
  - rewrite (uhf_inventory_count_stage icdev w dev1 dev2 count_response count
               Hh Hs0 Hr0 Hlen0 Hcount Htc).
    rewrite <- after_count_store16 by exact Htc.
    destruct (Z.eqb_spec count 0); [lia|].
    unfold except_Exception, for_range_st.
    replace (Z.to_nat count) with (k + S (Z.to_nat count - k - 1))%nat by lia.
    unfold bind at 1.
    rewrite (for_loop_st_app _ _ _ _ _ _ _ _ Hrounds).
    cbn [for_loop_st]. rewrite Hround. reflexivity.
  - destruct (frames_for_loop_st _ k (frames_inventory_round _) _ _ _ _ _ Hrounds)
      as [_ Hd].
    destruct (frames_inventory_round _ _ _ _ _ _ Hround) as [_ Hd'].
    rewrite Hd', Hd. reflexivity.
Qed.

(** X19: the other ways a round ends a session.  After [k] rounds that
    went through, the call returns -6 when the follow-up frame cannot be
    sent or no response comes, and 160 when the response starts with a
    byte other than 4 and its second byte is not 160.  Nothing more is
    exchanged, [pData] keeps what the [k] rounds wrote, and [dataLen] is
    what it was before the call. *)
Theorem uhf_inventory_round_aborts (icdev : Z) (w : World)
    (dev1 dev2 : option Device) (count_response : list Z) (count : Z)
    (k : nat) (offset : Z) (wk : World) :
  bad_handle (usb_device w) icdev = false ->
  send_command (usb_device w) [3; 2; 85; 128] = (Val true, dev1) ->
  read_response dev1 2000 = (Val (Some count_response), dev2) ->
  5 <= len count_response -> getitem count_response 4 = Val count ->
  2 <= len (tagCount w) ->
  Z.of_nat k < count ->
  for_loop_st (inventory_round [3; 2; 85; 145]) 0 k 0 (after_count w dev2 count)
    = (Val (Next offset), wk) ->
  (forall devk1,
     send_command (usb_device wk) [3; 2; 85; 145] = (Val false, devk1) ->
     uhf_inventory icdev w = (-6, set_device wk devk1) /\
     dataLen (set_device wk devk1) = dataLen w) /\
  (forall devk1 devk2,
     send_command (usb_device wk) [3; 2; 85; 145] = (Val true, devk1) ->
     read_response devk1 2000 = (Val None, devk2) ->
     uhf_inventory icdev w = (-6, set_device wk devk2) /\
     dataLen (set_device wk devk2) = dataLen w) /\
  (forall devk1 devk2 response first second,
     send_command (usb_device wk) [3; 2; 85; 145] = (Val true, devk1) ->
     read_response devk1 2000 = (Val (Some response), devk2) ->
     getitem response 0 = Val first -> first <> 4 ->
     getitem response 1 = Val second -> second <> 160 ->
     uhf_inventory icdev w = (160, set_device wk devk2) /\
     dataLen (set_device wk devk2) = dataLen w).
Proof.
  intros Hh Hs0 Hr0 Hlen0 Hcount Htc Hk Hrounds.
  split; [|split].
  - intros devk1 Hsk.
    apply (uhf_inventory_round_returns icdev w dev1 dev2 count_response count
             k offset wk); try assumption.
    unfold inventory_round.
    rewrite (bind_Val _ _ _ _ _ (send_Val _ _ _ _ Hsk)). reflexivity.
  - intros devk1 devk2 Hsk Hrk.
    apply (uhf_inventory_round_returns icdev w dev1 dev2 count_response count
             k offset wk); try assumption.
    unfold inventory_round.
    rewrite (bind_Val _ _ _ _ _ (send_Val _ _ _ _ Hsk)). cbn [negb].
    rewrite (bind_Val _ _ _ _ _ (recv_Val _ (set_device wk devk1) _ _ Hrk)).
    reflexivity.
  - intros devk1 devk2 response first second Hsk Hrk H0 Hne4 H1 Hne160.
    apply (uhf_inventory_round_returns icdev w dev1 dev2 count_response count
             k offset wk); try assumption.
    unfold inventory_round.
    rewrite (bind_Val _ _ _ _ _ (send_Val _ _ _ _ Hsk)). cbn [negb].
    rewrite (bind_Val _ _ _ _ _ (recv_Val _ (set_device wk devk1) _ _ Hrk)).
    assert (Htr : truthy (Some response) = true).
    { destruct response; [discriminate H0 | reflexivity]. }
    rewrite Htr. cbn [negb response_bytes].
    unfold lift at 1. unfold bind at 1. rewrite H0.
    destruct (Z.eqb_spec first 4); [contradiction|].
    unfold lift at 1. unfold bind at 1. rewrite H1.
    destruct (Z.eqb_spec second 160); [contradiction|]. reflexivity.
Qed.

Lemma uhf_inventory_round_aborts_witness :
  fst (uhf_inventory 7 bad_marker_world) = 160 /\
  dataLen (snd (uhf_inventory 7 bad_marker_world)) = [9; 9].
Proof.
  set (d1 := snd (send_command (usb_device bad_marker_world) [3; 2; 85; 128])).
  set (d2 := snd (read_response d1 2000)).
  set (wk := snd (for_loop_st (inventory_round [3; 2; 85; 145]) 0 1 0
                    (after_count bad_marker_world d2 2))).
  set (dk1 := snd (send_command (usb_device wk) [3; 2; 85; 145])).
  set (dk2 := snd (read_response dk1 2000)).
  destruct (uhf_inventory_round_aborts 7 bad_marker_world d1 d2 [4; 2; 85; 0; 2] 2
              1 6 wk) as (_ & _ & H).
  - reflexivity.
  - reflexivity.
  - reflexivity.
  - unfold len. simpl. lia.
  - reflexivity.
  - unfold len. simpl. lia.
  - lia.
  - vm_compute. reflexivity.
  - destruct (H dk1 dk2 [7; 161; 1; 2; 3; 6; 0; 99] 7 161) as [Hret Hd];
      try reflexivity; try lia.
    rewrite Hret. split; [reflexivity | exact Hd].
Defined.

(** * The session life cycle *)

(** X20: [uhf_disconnect].  It returns 32 for a handle that is not the open
    session's, -13 when releasing the interface or disposing of the
    resources raises [USBError], and 0 otherwise; only with 0 is the session
    closed -- in every other case, also when another exception leaves the
    function, the session and the buffers are exactly what they were. *)
Theorem uhf_disconnect_outcomes (release_interface dispose_resources : res unit)
    (icdev : Z) (w : World) :
  (bad_handle (usb_device w) icdev = true ->
   uhf_disconnect release_interface dispose_resources icdev w = (Val 32, w)) /\
  (bad_handle (usb_device w) icdev = false ->
   forall u1 u2, release_interface = Val u1 -> dispose_resources = Val u2 ->
   uhf_disconnect release_interface dispose_resources icdev w
   = (Val 0, set_device w None)) /\
  (bad_handle (usb_device w) icdev = false ->
   forall errno,
     release_interface = Raise (USBError errno) \/
     ((exists u, release_interface = Val u) /\
      dispose_resources = Raise (USBError errno)) ->
   uhf_disconnect release_interface dispose_resources icdev w = (Val (-13), w)) /\
  (fst (uhf_disconnect release_interface dispose_resources icdev w) <> Val 0 ->
   snd (uhf_disconnect release_interface dispose_resources icdev w) = w).
Proof.
  unfold uhf_disconnect. split; [|split; [|split]].
  - intros ->. reflexivity.
  - intros -> u1 u2 -> ->. reflexivity.
  - intros -> errno [-> | [[u ->] ->]]; reflexivity.
  - destruct (bad_handle _ _); [reflexivity|].
    destruct release_interface as [u1|[| | |errno|]]; try reflexivity.
    destruct dispose_resources as [u2|[| | |errno|]]; try reflexivity.
    intros H. contradiction H. reflexivity.
Qed.

Lemma uhf_disconnect_outcomes_witness :
  uhf_disconnect (Val tt) (Val tt) 8 read_world = (Val 32, read_world) /\
  uhf_disconnect (Val tt) (Val tt) 7 read_world = (Val 0, set_device read_world None) /\
  uhf_disconnect (Val tt) (Raise (USBError 5)) 7 read_world = (Val (-13), read_world).
Proof.
  destruct (uhf_disconnect_outcomes (Val tt) (Val tt) 8 read_world) as (H1 & _).
  destruct (uhf_disconnect_outcomes (Val tt) (Val tt) 7 read_world) as (_ & H2 & _).
  destruct (uhf_disconnect_outcomes (Val tt) (Raise (USBError 5)) 7 read_world)
    as (_ & _ & H3 & _).
  split; [apply H1; reflexivity|].
  split; [apply (H2 eq_refl tt tt); reflexivity|].
  apply (H3 eq_refl 5). right. split; [exists tt|]; reflexivity.
Defined.

(** X21: once [uhf_disconnect] has returned 0, every operation answers 32
    for every handle and touches nothing, and so does a second
    [uhf_disconnect]. *)
Theorem disconnected_session_refuses (release_interface dispose_resources : res unit)
    (icdev : Z) (w w' : World) :
  uhf_disconnect release_interface dispose_resources icdev w = (Val 0, w') ->
  forall h : Z,
    (forall infoType address rlen, uhf_read h infoType address rlen w' = (32, w')) /\
    (forall infoType address wlen, uhf_write h infoType address wlen w' = (32, w')) /\
    (forall action time, uhf_action h action time w' = (32, w')) /\
    (forall AccessPassword, uhf_setAccessPassword h AccessPassword w' = (32, w')) /\
    (forall lockSetting, uhf_lockMemory h lockSetting w' = (32, w')) /\
    uhf_inventory h w' = (32, w') /\
    (forall r1 r2, uhf_disconnect r1 r2 h w' = (Val 32, w')).
Proof.
  intros H h.
  assert (Hnone : usb_device w' = None).
  { unfold uhf_disconnect in H. destruct (bad_handle _ _); [discriminate H|].
    destruct release_interface as [u1|[| | |errno|]]; try discriminate H.
    destruct dispose_resources as [u2|[| | |errno|]]; try discriminate H.
    injection H as <-. reflexivity. }
  unfold uhf_read, uhf_write, uhf_action, uhf_setAccessPassword, uhf_lockMemory,
    uhf_inventory, uhf_disconnect.
  rewrite Hnone. cbn [bad_handle]. repeat split.
Qed.

Lemma disconnected_session_refuses_witness :
  uhf_inventory 7 (set_device read_world None) = (32, set_device read_world None).
Proof.
  apply (disconnected_session_refuses (Val tt) (Val tt) 7 read_world
           (set_device read_world None) eq_refl 7).
Defined.

Lemma for_each_release_inv (interfaces : list interface) (r : ctl unit Z) :
  for_each release_driver interfaces tt = Val r ->
  (r = Next tt /\ Forall released interfaces) \/ r = Return (-1).
Proof.
  induction interfaces as [|intf interfaces IH]; intros H.
  - injection H as <-. left. split; [reflexivity | constructor].
  - cbn [for_each] in H. unfold release_driver in H at 1. unfold res_bind in H.
    destruct (is_kernel_driver_active intf) as [[|]|e] eqn:Ea; try discriminate H.
    + destruct (detach_kernel_driver intf) as [u|[| | |errno|]] eqn:Ed;
        try discriminate H.
      * destruct (IH H) as [[-> Hall] | ->]; [left | right; reflexivity].
        split; [reflexivity|]. constructor; [|exact Hall].
        right. split; [exact Ea | exists u; exact Ed].
      * injection H as <-. right. reflexivity.
    + destruct (IH H) as [[-> Hall] | ->]; [left | right; reflexivity].
      split; [reflexivity|]. constructor; [|exact Hall]. left. exact Ea.
Qed.

Lemma for_each_configs_inv (configs : list (res (list interface))) (r : ctl unit Z) :
  for_each release_drivers configs tt = Val r ->
  (r = Next tt /\
   Forall (fun config =>
             exists interfaces, config = Val interfaces /\
                                Forall released interfaces) configs) \/
  r = Return (-1).
Proof.
  induction configs as [|config configs IH]; intros H.
  - injection H as <-. left. split; [reflexivity | constructor].
  - cbn [for_each] in H. unfold release_drivers in H at 1. unfold res_bind in H.
    destruct config as [interfaces|e]; [|discriminate H].
    destruct (for_each release_driver interfaces tt) as [[[]|c]|e] eqn:E;
      try discriminate H.
    + apply for_each_release_inv in E as [[_ Hall] | E]; [|discriminate E].
      destruct (IH H) as [[-> Hrest] | ->]; [left | right; reflexivity].
      split; [reflexivity|]. constructor; [|exact Hrest].
      exists interfaces. split; [reflexivity | exact Hall].
    + apply for_each_release_inv in E as [[E _] | E]; [discriminate E|].
      injection E as ->. injection H as <-. right. reflexivity.
Qed.

(** [uhf_connect] gets to return the handle only when every step went
    through; whatever else it returns after the device is found is -1. *)
Lemma claim_device_inv host d code :
  claim_device host d = Val code ->
  code = -1 \/ (code = handle d /\ claimable host).
Proof.
  unfold claim_device.
  destruct (for_each release_drivers (configurations host) tt) as [[[]|c]|e] eqn:E;
    [| |discriminate].
  - apply for_each_configs_inv in E as [[_ Hall] | E]; [|discriminate E].
    unfold or_return_minus_1.
    destruct (set_configuration host) as [u|[| | |errno|]] eqn:Es; try discriminate;
      [|intros [= <-]; left; reflexivity].
    destruct (claim_interface host) as [u'|[| | |errno|]] eqn:Ec; try discriminate;
      [|intros [= <-]; left; reflexivity].
    intros [= <-]. right. split; [reflexivity|].
    split; [exact Hall|]. split; [exists u; exact Es | exists u'; exact Ec].
  - apply for_each_configs_inv in E as [[E _] | E]; [discriminate E|].
    injection E as ->. intros [= <-]. left. reflexivity.
Qed.

Lemma for_each_release_ok (interfaces : list interface) :
  Forall released interfaces ->
  for_each release_driver interfaces tt = Val (Next tt).
Proof.
  induction 1 as [|intf interfaces Hi Hc IH]; [reflexivity|].
  cbn [for_each]. unfold release_driver at 1. unfold res_bind.
  destruct Hi as [-> | [-> [u ->]]]; exact IH.
Qed.

Lemma claim_device_ok host d : claimable host -> claim_device host d = Val (handle d).
Proof.
  intros (Hdrv & [u1 Hcfg] & [u2 Hclaim]). unfold claim_device.
  assert (Hloop : for_each release_drivers (configurations host) tt = Val (Next tt)).
  { induction Hdrv as [|config configs (interfaces & -> & Hc) Hcs IH]; [reflexivity|].
    cbn [for_each]. unfold release_drivers at 1. cbn [res_bind].
    rewrite (for_each_release_ok interfaces Hc). exact IH. }
  rewrite Hloop, Hcfg, Hclaim. reflexivity.
Qed.

(** X22: [uhf_connect].  A port other than 100 gives -1 and changes
    nothing.  On port 100: when [usb.core.find] raises, the answer is -1 and
    the session is left as it was; when it finds no device, the answer is
    -32 and the session is dropped; when it finds a device, that device
    becomes the session whatever comes after, and the answer is its handle,
    which the operations then accept, if every later step goes through, and
    -1 if any of them does not.  The caller's buffers are never touched. *)
Theorem uhf_connect_outcomes (host : Host) (port baud : Z) (w : World) :
  same_buffers w (snd (uhf_connect host port baud w)) /\
  (port <> 100 -> uhf_connect host port baud w = (-1, w)) /\
  (port = 100 ->
   (forall e, usb_core_find host = Raise e ->
      uhf_connect host port baud w = (-1, w)) /\
   (usb_core_find host = Val None ->
      uhf_connect host port baud w = (-32, set_device w None)) /\
   (forall d, usb_core_find host = Val (Some d) ->
      usb_device (snd (uhf_connect host port baud w)) = Some d /\
      (claimable host ->
       fst (uhf_connect host port baud w) = handle d /\
       bad_handle (usb_device (snd (uhf_connect host port baud w)))
         (fst (uhf_connect host port baud w)) = false) /\
      (~ claimable host -> fst (uhf_connect host port baud w) = -1))).
Proof.
  unfold uhf_connect. split; [|split].
  - destruct (negb (port =? 100)); [apply same_buffers_refl|].
    destruct (usb_core_find host) as [[d|]|e];
      [|repeat split|apply same_buffers_refl].
    destruct (claim_device host d); repeat split.
  - intros Hp. destruct (Z.eqb_spec port 100); [contradiction | reflexivity].
  - intros ->. cbn [Z.eqb Pos.eqb negb].
    split; [|split].
    + intros e ->. reflexivity.
    + intros ->. reflexivity.
    + intros d ->. cbv zeta. split; [|split].
      * destruct (claim_device host d); reflexivity.
      * intros Hok. rewrite (claim_device_ok host d Hok). cbn [fst snd].
        split; [reflexivity|]. cbn [set_device usb_device bad_handle].
        rewrite Z.eqb_refl. reflexivity.
      * intros Hno. destruct (claim_device host d) as [code|e] eqn:E;
          [|reflexivity].
        apply claim_device_inv in E as [-> | [_ Hok]];
          [reflexivity | contradiction].
Qed.

Lemma uhf_connect_outcomes_witness :
  uhf_connect empty_host 0 115200 read_world = (-1, read_world) /\
  uhf_connect no_backend_host 100 115200 read_world = (-1, read_world) /\
  uhf_connect empty_host 100 115200 read_world
  = (-32, set_device read_world None) /\
  uhf_connect busy_host 100 115200 read_world
  = (-1, set_device read_world (Some unplugged_device)) /\
  fst (uhf_connect ready_host 100 115200 read_world) = handle unplugged_device.
Proof.
  destruct (uhf_connect_outcomes empty_host 0 115200 read_world) as (_ & H1 & _).
  destruct (uhf_connect_outcomes no_backend_host 100 115200 read_world)
    as (_ & _ & H2).
  destruct (uhf_connect_outcomes empty_host 100 115200 read_world) as (_ & _ & H3).
  destruct (uhf_connect_outcomes busy_host 100 115200 read_world) as (_ & _ & H4).
  destruct (uhf_connect_outcomes ready_host 100 115200 read_world) as (_ & _ & H5).
  split; [apply H1; lia|].
  split; [destruct (H2 eq_refl) as (H & _); apply (H OtherException); reflexivity|].
  split; [destruct (H3 eq_refl) as (_ & H & _); apply H; reflexivity|].
  split.
  - destruct (H4 eq_refl) as (_ & _ & H).
    destruct (H unplugged_device eq_refl) as (Hdev & _ & Hno).
    assert (Hbusy : ~ claimable busy_host).
    { intros (_ & _ & [u Hu]). discriminate Hu. }
    specialize (Hno Hbusy).
    destruct (uhf_connect busy_host 100 115200 read_world) as [code w'] eqn:E.
    cbn [fst snd] in Hdev, Hno. subst code. f_equal.
    injection E as <-. reflexivity.
  - destruct (H5 eq_refl) as (_ & _ & H).
    destruct (H unplugged_device eq_refl) as (_ & Hok & _).
    apply Hok. split; [|split; exists tt; reflexivity].
    constructor; [|constructor].
    exists [ {| is_kernel_driver_active := Val true;
                detach_kernel_driver := Val tt |};
             {| is_kernel_driver_active := Val false;
                detach_kernel_driver := Raise (USBError 1) |} ].
    split; [reflexivity|].
    constructor; [|constructor; [|constructor]].
    + right. split; [reflexivity | exists tt; reflexivity].
    + left. reflexivity.
Defined.

(** X23: a whole session.  When the device is found, every kernel driver
    that is active detaches, and the configuration and the claim go
    through, [uhf_connect] returns the handle of the device found and the
    session is open on it; [uhf_disconnect] with that handle then returns
    0, and the session is closed. *)
Theorem connect_then_disconnect (host : Host) (baud : Z) (w : World) (d : Device) :
  usb_core_find host = Val (Some d) ->
  Forall (fun config =>
            exists interfaces,
              config = Val interfaces /\
              Forall (fun intf =>
                        is_kernel_driver_active intf = Val false \/
                        (is_kernel_driver_active intf = Val true /\
                         exists u, detach_kernel_driver intf = Val u))
                interfaces)
    (configurations host) ->
  (exists u, set_configuration host = Val u) ->
  (exists u, claim_interface host = Val u) ->
  uhf_connect host 100 baud w = (handle d, set_device w (Some d)) /\
  uhf_disconnect (Val tt) (Val tt) (handle d) (set_device w (Some d))
  = (Val 0, set_device w None).
Proof.
  intros Hf Hdrv Hcfg Hclaim. split.
  - unfold uhf_connect. cbn [Z.eqb Pos.eqb negb]. rewrite Hf. cbv zeta.
    rewrite (claim_device_ok host d); [reflexivity|].
    split; [exact Hdrv | split; assumption].
  - unfold uhf_disconnect. cbn [set_device usb_device bad_handle].
    rewrite Z.eqb_refl. reflexivity.
Qed.

Lemma connect_then_disconnect_witness :
  uhf_connect ready_host 100 115200 read_world
  = (handle unplugged_device, set_device read_world (Some unplugged_device)).
Proof.
  apply (connect_then_disconnect ready_host 115200 read_world unplugged_device).
  - reflexivity.
  - constructor; [|constructor].
    exists [ {| is_kernel_driver_active := Val true;
                detach_kernel_driver := Val tt |};
             {| is_kernel_driver_active := Val false;
                detach_kernel_driver := Raise (USBError 1) |} ].
    split; [reflexivity|].
    constructor; [|constructor; [|constructor]].
    + right. split; [reflexivity | exists tt; reflexivity].
    + left. reflexivity.
  - exists tt. reflexivity.
  - exists tt. reflexivity.
Defined.

(** * The example session *)






